(** * ftlogic: the formula parser, the knowledge base and the evaluator

    A shallow embedding of [ftlogic.core] (signature, parser, knowledge
    base, structure, interpretation, evaluator, the queries of a model)
    and the properties of its specification and of the code.

    Conventions.
    - A Python [str] is a Rocq [string]; every character is read as the
      code point of the same number (0..255).
    - Python integers that may be [-1] (results of [find]) are in [Z];
      lengths and counters that are never negative are in [nat].
    - A Python call either returns, raises, or recurses for ever: see
      [outcome].  Recursion that is not structural carries a fuel.
    - A dict is a [gmap]; a list is a [list].  Where a method updates an
      object in place, the object is threaded through the call
      ([add]) or lives in a store of objects ([Store]).
    - Tensors, callables and the operations of tensorflow are a
      parameter ([PyRuntime]); so is the standard product operator set
      ([Fuzzyops]). *)

From Stdlib Require Import ZArith Ascii String Lia.
From stdpp Require Import base option list gmap strings.

(** ** Python string primitives *)

Module PyStr.

(** [str.isspace] on the code points below 256. *)
Definition isspace (c : ascii) : bool :=
  let n := nat_of_ascii c in
  ((9 <=? n) && (n <=? 13)) || ((28 <=? n) && (n <=? 32))
  || (n =? 133) || (n =? 160).

Fixpoint lstrip (s : string) : string :=
  match s with
  | EmptyString => EmptyString
  | String c r => if isspace c then lstrip r else s
  end.

Fixpoint rstrip (s : string) : string :=
  match s with
  | EmptyString => EmptyString
  | String c r =>
      match rstrip r with
      | EmptyString => if isspace c then EmptyString else String c EmptyString
      | r' => String c r'
      end
  end.

(** [s.strip()] *)
Definition strip (s : string) : string := rstrip (lstrip s).

(** [s.startswith(key)] *)
Fixpoint startswith (s key : string) {struct key} : bool :=
  match key with
  | EmptyString => true
  | String k key' =>
      match s with
      | EmptyString => false
      | String c s' => Ascii.eqb c k && startswith s' key'
      end
  end.

Fixpoint str_drop (n : nat) (s : string) : string :=
  match n, s with
  | O, _ => s
  | S _, EmptyString => EmptyString
  | S n', String _ r => str_drop n' r
  end.

Fixpoint str_take (n : nat) (s : string) : string :=
  match n, s with
  | O, _ => EmptyString
  | S _, EmptyString => EmptyString
  | S n', String c r => String c (str_take n' r)
  end.

(** A slice bound, as Python normalises it: negative bounds count from
    the end, and every bound is clamped to [0, len]. *)
Definition clamp (len i : Z) : Z :=
  if (i <? 0)%Z then Z.max 0 (len + i) else Z.min i len.

(** [s[start:stop]]; [stop = None] is [s[start:]]. *)
Definition slice (s : string) (start : Z) (stop : option Z) : string :=
  let len := Z.of_nat (String.length s) in
  let lo := clamp len start in
  let hi := match stop with Some j => clamp len j | None => len end in
  str_take (Z.to_nat (hi - lo)) (str_drop (Z.to_nat lo) s).

Fixpoint find_from (s sub : string) (i : Z) : Z :=
  if startswith s sub then i
  else match s with
       | EmptyString => (-1)%Z
       | String _ r => find_from r sub (i + 1)%Z
       end.

(** [s.find(sub)] *)
Definition find (s sub : string) : Z := find_from s sub 0%Z.

(** [s[0]] and [s[-1]] of a string that may be empty. *)
Definition first (s : string) : option ascii :=
  match s with EmptyString => None | String c _ => Some c end.

Fixpoint last (s : string) : option ascii :=
  match s with
  | EmptyString => None
  | String c EmptyString => Some c
  | String _ r => last r
  end.

(** The comparison [s[i] == c] for [s[i]] read by [first] or [last]. *)
Definition is_char (o : option ascii) (c : ascii) : bool :=
  match o with Some x => Ascii.eqb x c | None => false end.

(** The characters of a string, each as a string of length one: what
    iterating over a [str] yields. *)
Fixpoint chars (s : string) : list string :=
  match s with
  | EmptyString => []
  | String c r => String c EmptyString :: chars r
  end.

Definition isalpha (c : ascii) : bool :=
  let n := nat_of_ascii c in
  ((97 <=? n) && (n <=? 122)) || ((65 <=? n) && (n <=? 90)).

Definition isdigit (c : ascii) : bool :=
  let n := nat_of_ascii c in (48 <=? n) && (n <=? 57).

Definition isalnum (c : ascii) : bool := isalpha c || isdigit c.

(** The longest prefix of [s] whose characters all satisfy [p]: what a
    greedy character-class repetition consumes. *)
Fixpoint span (p : ascii -> bool) (s : string) : nat :=
  match s with
  | EmptyString => 0
  | String c r => if p c then S (span p r) else 0
  end.

Fixpoint all_chars (p : ascii -> bool) (s : string) : bool :=
  match s with
  | EmptyString => true
  | String c r => p c && all_chars p r
  end.

End PyStr.

(** ** Node kinds, exceptions and the outcomes of a Python call *)

Inductive NodeType :=
| UNIVERSAL | EXISTENTIAL | IMPLICATION | DISJUNCTION | CONJUNCTION
| NEGATION | PREDICATE | VARIABLE | CONSTANT | BRACKET | FUNCTOR.

#[global] Instance NodeType_eq_dec : EqDecision NodeType.
Proof. solve_decision. Defined.

(** The messages of [ParseError], one constructor per [raise] of the
    parser, carrying what the message formats. *)
Inductive ParseErrorMsg :=
| EmptyFormula
| UnbalancedParenthesise (formula : string)
| ParenthesiseNonFormula (formula : string)
| InvalidQuantVariable (formula variable : string)
| MissingColon (formula : string)
| InvalidQuantDomain (formula domain : string)
| QuantNonFormula (formula : string)
| JunctorNonFormula (type : NodeType) (operand : string)
| NegateNonFormula (operand : string)
| ArityMismatch (symbol : string) (arity : Z) (received : nat) (formula : string)
| NotATerm (argument : string) (type : NodeType) (formula : string)
| InvalidFormula (formula : string)
| NotAFormula (formula : string).

Inductive Exn :=
| ParseError (msg : ParseErrorMsg)
| MissingJunctor (key : NodeType)         (* KeyError of junctorSymbols[type] *)
| KeyError (key : string)                 (* d[key] *)
| IndexError                              (* children[i], value[i] *)
| TypeError (what : string)
| NotInterpretable (symbol : string)      (* ValueError of interpret *)
| SignatureMismatch                       (* ValueError of KnowledgeBase.add *)
| CouldNotParse (formula : string) (err : ParseErrorMsg) (* Exception of add *)
| EvaluationError (type : NodeType)        (* a node kind unknown to evaluate *)
| RuntimeError (what : string).           (* raised by the tensor runtime *)

Inductive outcome (A : Type) :=
| Return (a : A)
| Raise (e : Exn)
| OutOfFuel.
Arguments Return {A} a.
Arguments Raise {A} e.
Arguments OutOfFuel {A}.

#[global] Instance outcome_bind : MBind outcome := fun A B k m =>
  match m with
  | Return a => k a
  | Raise e => Raise e
  | OutOfFuel => OutOfFuel
  end.

#[global] Instance outcome_ret : MRet outcome := fun A a => Return a.

(** [results = []; for x in xs: results.append(body(x))] *)
Section ForEach.
Context {A B : Type} (body : A -> outcome B).
Fixpoint for_each (xs : list A) : outcome (list B) :=
  match xs with
  | [] => Return []
  | x :: rest =>
      r ← body x;
      rs ← for_each rest;
      Return (r :: rs)
  end.
End ForEach.

(** [for x in xs: acc = body(acc, x)] *)
Section FoldEach.
Context {A S : Type} (body : S -> A -> outcome S).
Fixpoint fold_each (xs : list A) (acc : S) : outcome S :=
  match xs with
  | [] => Return acc
  | x :: rest => acc' ← body acc x; fold_each rest acc'
  end.
End FoldEach.

(** ** signature.py *)

Record Signature := mkSignature {
  predicates : gmap string Z;
  functors : gmap string Z;
  constants : list string;
}.

#[global] Instance Signature_eq_dec : EqDecision Signature.
Proof. solve_decision. Defined.

(** [key in d] for a dict. *)
Definition dict_contains {V} (d : gmap string V) (key : string) : bool :=
  match d !! key with Some _ => true | None => false end.

(** [Signature.__contains__] *)
Definition Signature_contains (self : Signature) (symbol : string) : bool :=
  dict_contains (predicates self) symbol
  || dict_contains (functors self) symbol
  || bool_decide (symbol ∈ constants self).

(** [Signature.__eq__]; [!=] is its negation. *)
Definition Signature_eq (self other : Signature) : bool :=
  bool_decide (predicates self = predicates other)
  && bool_decide (functors self = functors other)
  && bool_decide (constants self = constants other).

(** ** parser.py: parse trees *)

(** The [value] of a node: a symbol or junctor token, or the list
    [[variable, domain]] of a quantifier. *)
Inductive NodeValue :=
| Sym (s : string)
| Quant (variable domain : string).

#[global] Instance NodeValue_eq_dec : EqDecision NodeValue.
Proof. solve_decision. Defined.

#[warning="-register-all"] Inductive ParseTree :=
| Node (value : NodeValue) (type : NodeType)
       (children : list ParseTree) (signature : Signature).

Definition value (t : ParseTree) : NodeValue :=
  match t with Node v _ _ _ => v end.
Definition type (t : ParseTree) : NodeType :=
  match t with Node _ ty _ _ => ty end.
Definition children (t : ParseTree) : list ParseTree :=
  match t with Node _ _ cs _ => cs end.
Definition ParseTree_signature (t : ParseTree) : Signature :=
  match t with Node _ _ _ sg => sg end.

Definition isFormula (self : ParseTree) : bool :=
  match type self with
  | CONJUNCTION | DISJUNCTION | EXISTENTIAL | IMPLICATION
  | UNIVERSAL | BRACKET | NEGATION | PREDICATE => true
  | _ => false
  end.

Definition isTerm (self : ParseTree) : bool :=
  match type self with
  | CONSTANT | VARIABLE | FUNCTOR => true
  | _ => false
  end.

Definition isAtom (self : ParseTree) : bool :=
  match type self with PREDICATE => true | _ => false end.

(** [value[i]]: an element of a quantifier's pair, or a character of a
    symbol. *)
Definition value_index (v : NodeValue) (i : nat) : outcome string :=
  match v, i with
  | Quant x _, 0 => Return x
  | Quant _ d, 1 => Return d
  | Quant _ _, _ => Raise IndexError
  | Sym s, _ =>
      match PyStr.chars s !! i with
      | Some c => Return c
      | None => Raise IndexError
      end
  end.

(** [for v in childVars: if not v in vars: vars.append(v)] *)
Definition append_new (vars childVars : list NodeValue) : list NodeValue :=
  fold_left (fun acc v => if bool_decide (v ∈ acc) then acc else acc ++ [v])
            childVars vars.

(** What [vars.extend(x)] appends for a string [x]: its characters. *)
Definition iterate (x : string) : list NodeValue := Sym <$> PyStr.chars x.

Definition is_quantifier (ty : NodeType) : bool :=
  match ty with UNIVERSAL | EXISTENTIAL => true | _ => false end.

Fixpoint getVariables (self : ParseTree) : outcome (list NodeValue) :=
  match self with
  | Node value type children _ =>
      match type with
      | VARIABLE => Return [value]
      | CONSTANT => Return []
      | _ =>
          vars ← fold_each (fun vars child =>
                              childVars ← getVariables child;
                              Return (append_new vars childVars))
                           children [];
          if is_quantifier type then
            v0 ← value_index value 0;
            Return (if bool_decide (Sym v0 ∈ vars) then vars else vars ++ [Sym v0])
          else Return vars
      end
  end.

Fixpoint getBound (self : ParseTree) : outcome (list NodeValue) :=
  match self with
  | Node value type children _ =>
      if isTerm self then Return []
      else if is_quantifier type then
        match children with
        | [] => Raise IndexError
        | child :: _ =>
            vars ← getBound child;
            v0 ← value_index value 0;
            Return (vars ++ iterate v0)
        end
      else
        fold_each (fun vars child =>
                     bound ← getBound child;
                     Return (vars ++ bound))
                  children []
  end.

(** [[x for x in self.getVariables() if x not in self.getBound()]] *)
Definition getFree (self : ParseTree) : outcome (list NodeValue) :=
  vars ← getVariables self;
  kept ← for_each (fun x => bound ← getBound self;
                             Return (if bool_decide (x ∈ bound) then [] else [x]))
                  vars;
  Return (concat kept).

(** [getDomains]: on a quantifier node, [doms.extend(self.value[1])]
    unless [self.value[1]] is already in [doms]. *)
Fixpoint getDomains (self : ParseTree) : outcome (list NodeValue) :=
  match self with
  | Node value type children _ =>
      if isTerm self then Return []
      else if is_quantifier type then
        match children with
        | [] => Raise IndexError
        | child :: _ =>
            doms ← getDomains child;
            v1 ← value_index value 1;
            Return (if bool_decide (Sym v1 ∈ doms) then doms
                    else doms ++ iterate v1)
        end
      else
        fold_each (fun doms child =>
                     childDoms ← getDomains child;
                     Return (doms ++ childDoms))
                  children []
  end.

(** The loop of [ParseTree.__eq__] over the children, which are as many
    on both sides when it is reached:
    [if not self.children[i] == other.children[i]: return False]. *)
Section EqChildren.
Context (eq : ParseTree -> ParseTree -> bool).
Fixpoint eq_children (cs cs' : list ParseTree) : bool :=
  match cs, cs' with
  | c :: cs, c' :: cs' => if negb (eq c c') then false else eq_children cs cs'
  | _, _ => true
  end.
End EqChildren.

(** [ParseTree.__eq__] on two parse trees: the three attributes, the
    number of children, then the children in turn. *)
Fixpoint ParseTree_eq (self other : ParseTree) : bool :=
  match self, other with
  | Node value type children signature, Node value' type' children' signature' =>
      if negb (bool_decide (value = value') && bool_decide (type = type')
               && Signature_eq signature signature') then false
      else if negb (length children =? length children') then false
      else eq_children ParseTree_eq children children'
  end.

(** [x in trees] for a list of parse trees: some element equals [x]. *)
Definition list_contains (trees : list ParseTree) (x : ParseTree) : bool :=
  existsb (fun e => ParseTree_eq x e) trees.

(** ** parser.py: the parser *)

Definition _STANDARD_PRECEDENCE : list NodeType :=
  [BRACKET; VARIABLE; CONSTANT; FUNCTOR; PREDICATE;
   EXISTENTIAL; UNIVERSAL; NEGATION; CONJUNCTION; DISJUNCTION; IMPLICATION].

(** A dict from node types to symbols; [None] is a missing key. *)
Definition _STANDARD_JUNCTOR_SYMBOLS (type : NodeType) : option string :=
  match type with
  | CONJUNCTION => Some ","%string
  | DISJUNCTION => Some ";"%string
  | NEGATION => Some "!"%string
  | IMPLICATION => Some "-:"%string
  | _ => None
  end.

(** The [while] loop of [_findTopLevel]: [s] is [s[i:]], the loop stops
    at the end of the string with [pos = -1]. *)
Fixpoint _findTopLevel_loop (s key : string) (i depth : Z) : Z :=
  match s with
  | EmptyString => (-1)%Z
  | String c rest =>
      let depth := if Ascii.eqb c ")" then Z.max 0 (depth - 1) else depth in
      if PyStr.startswith s key && (depth =? 0)%Z then i
      else
        let depth := if Ascii.eqb c "(" then (depth + 1)%Z else depth in
        _findTopLevel_loop rest key (i + 1)%Z depth
  end.

Definition _findTopLevel (s key : string) : Z :=
  _findTopLevel_loop s key 0 0.

(** The [for] loop of [_splitAtLevel]: [suffix] is [str[i:]]. *)
Fixpoint _splitAtLevel_loop (str seperator suffix : string)
    (i depth begin : Z) (result : list string) : list string :=
  match suffix with
  | EmptyString => result ++ [PyStr.slice str begin None]
  | String c rest =>
      if Ascii.eqb c "(" then
        _splitAtLevel_loop str seperator rest (i + 1)%Z (depth + 1)%Z begin result
      else if Ascii.eqb c ")" then
        _splitAtLevel_loop str seperator rest (i + 1)%Z
                           (Z.max 0 (depth - 1)) begin result
      else if (depth =? 0)%Z && PyStr.startswith suffix seperator then
        _splitAtLevel_loop str seperator rest (i + 1)%Z depth
                           (i + Z.of_nat (String.length seperator))%Z
                           (result ++ [PyStr.slice str begin (Some i)])
      else
        _splitAtLevel_loop str seperator rest (i + 1)%Z depth begin result
  end.

Definition _splitAtLevel (str seperator : string) : list string :=
  _splitAtLevel_loop str seperator str 0 0 0 [].

(** [re.search(r"[a-zA-Z]+[a-zA-Z0-9]*", s)]: the match of the pattern
    at the start of [s] (both repetitions are greedy and the second
    never has to give back), then the leftmost match, as its span. *)
Definition re_match_here (s : string) : option nat :=
  let letters := PyStr.span PyStr.isalpha s in
  if letters =? 0 then None
  else Some (letters + PyStr.span PyStr.isalnum (PyStr.str_drop letters s)).

Fixpoint re_search_from (s : string) (i : nat) : option (nat * nat) :=
  match re_match_here s with
  | Some e => Some (i, i + e)
  | None =>
      match s with
      | EmptyString => None
      | String _ r => re_search_from r (S i)
      end
  end.

Definition re_search (s : string) : option (nat * nat) := re_search_from s 0.

Definition _varSyntaxCheck (variable : string) (signature : Signature) : bool :=
  match re_search variable with
  | None => false
  | Some (b, e) =>
      (b =? 0) && (e =? String.length variable)
      && negb (Signature_contains signature variable)
  end.

Section Parse.
Context (signature : Signature) (precedence : list NodeType)
        (junctorSymbols : NodeType -> option string).

Section Body.
(** The recursive call [_parse(_, signature, precedence, junctorSymbols)]. *)
Context (rec : string -> outcome ParseTree).

(** The loop over the arguments of a predicate or functor. *)
Definition _parse_arguments (formula : string) (arguments : list string)
  : outcome (list ParseTree) :=
  for_each (fun argument =>
              parsedArgument ← rec argument;
              if negb (isTerm parsedArgument) then
                Raise (ParseError (NotATerm argument (type parsedArgument) formula))
              else Return parsedArgument)
           arguments.

(** The branches of the loop over the node kinds.  A branch gives
    [None] when it ends in [continue] (or reaches the end of the
    loop body), and the outcome of [_parse] otherwise. *)

(** [type == NodeType.BRACKET] *)
Definition _parse_bracket (formula : string) (type : NodeType)
  : option (outcome ParseTree) :=
  if negb (PyStr.is_char (PyStr.first formula) "(") then None
  else if negb (PyStr.is_char (PyStr.last formula) ")") then
    Some (Raise (ParseError (UnbalancedParenthesise formula)))
  else Some (
    child ← rec (PyStr.slice formula 1 (Some (-1)%Z));
    if negb (isFormula child) then
      Raise (ParseError (ParenthesiseNonFormula formula))
    else Return (Node (Sym "()") type [child] signature)).

(** [type == NodeType.UNIVERSAL or type == NodeType.EXISTENTIAL] *)
Definition _parse_quantifier (formula : string) (type : NodeType)
  : option (outcome ParseTree) :=
  if (bool_decide (type = UNIVERSAL)
      && negb (PyStr.is_char (PyStr.first formula) "A"))
     || (bool_decide (type = EXISTENTIAL)
         && negb (PyStr.is_char (PyStr.first formula) "E"))
  then None
  else
    let varEnd := PyStr.find formula "~" in
    if (varEnd =? -1)%Z then None
    else
      let variable := PyStr.slice formula 1 (Some varEnd) in
      if negb (_varSyntaxCheck variable signature) then
        Some (Raise (ParseError (InvalidQuantVariable formula variable)))
      else
        let domainEnd := PyStr.find formula ":" in
        if (domainEnd =? -1)%Z then
          Some (Raise (ParseError (MissingColon formula)))
        else
          let domain := PyStr.slice formula (varEnd + 1) (Some domainEnd) in
          if negb (_varSyntaxCheck domain signature) then
            Some (Raise (ParseError (InvalidQuantDomain formula domain)))
          else Some (
            child ← rec (PyStr.slice formula (domainEnd + 1) None);
            if negb (isFormula child) then
              Raise (ParseError (QuantNonFormula formula))
            else Return (Node (Quant variable domain) type [child] signature)).

(** The split of [formula] at [operatorPos] into the two operands of
    the junctor [sym]. *)
Definition _parse_operands (formula : string) (type : NodeType)
    (sym : string) (operatorPos : Z) : outcome ParseTree :=
  let len_sym := Z.of_nat (String.length sym) in
  left ← rec (PyStr.slice formula 0 (Some operatorPos));
  right ← rec (PyStr.slice formula (operatorPos + len_sym) None);
  if negb (isFormula left) then
    Raise (ParseError (JunctorNonFormula type
             (PyStr.slice formula 0 (Some operatorPos))))
  else if negb (isFormula right) then
    Raise (ParseError (JunctorNonFormula type
             (PyStr.slice formula (operatorPos + 1 + len_sym) None)))
  else Return (Node (Sym sym) type [left; right] signature).

(** [type == NodeType.IMPLICATION or type == NodeType.DISJUNCTION or
    type == NodeType.CONJUNCTION] *)
Definition _parse_junctor (formula : string) (type : NodeType)
  : option (outcome ParseTree) :=
  match junctorSymbols type with
  | None => Some (Raise (MissingJunctor type))
  | Some sym =>
      let operatorPos := _findTopLevel formula sym in
      if (operatorPos =? -1)%Z then None
      else Some (_parse_operands formula type sym operatorPos)
  end.

(** [type == NodeType.NEGATION] *)
Definition _parse_negation (formula : string) (type : NodeType)
  : option (outcome ParseTree) :=
  match junctorSymbols NEGATION with
  | None => Some (Raise (MissingJunctor NEGATION))
  | Some sym =>
      if PyStr.startswith formula sym then
        let operand :=
          PyStr.slice formula (Z.of_nat (String.length sym)) None in
        Some (
          child ← rec operand;
          if negb (isFormula child) then
            Raise (ParseError (NegateNonFormula operand))
          else Return (Node (Sym sym) type [child] signature))
      else None
  end.

(** [type == NodeType.PREDICATE or type == NodeType.FUNCTOR] *)
Definition _parse_application (formula : string) (type : NodeType)
  : option (outcome ParseTree) :=
  let resultIndex := PyStr.find formula "(" in
  if (resultIndex =? -1)%Z then None
  else
    let symbol := PyStr.slice formula 0 (Some resultIndex) in
    let table :=
      if bool_decide (type = PREDICATE) then predicates signature
      else functors signature in
    match table !! symbol with
    | None => None
    | Some arity =>
        let arguments :=
          _splitAtLevel
            (PyStr.slice formula (resultIndex + 1) (Some (-1)%Z)) "," in
        if negb (Z.of_nat (length arguments) =? arity)%Z then
          Some (Raise (ParseError
                  (ArityMismatch symbol arity (length arguments) formula)))
        else Some (
          children ← _parse_arguments formula arguments;
          Return (Node (Sym symbol) type children signature))
    end.

(** One turn of the loop over the node kinds. *)
Definition _parse_type (formula : string) (type : NodeType)
  : option (outcome ParseTree) :=
  match type with
  | BRACKET => _parse_bracket formula type
  | UNIVERSAL | EXISTENTIAL => _parse_quantifier formula type
  | IMPLICATION | DISJUNCTION | CONJUNCTION => _parse_junctor formula type
  | NEGATION => _parse_negation formula type
  | PREDICATE | FUNCTOR => _parse_application formula type
  | CONSTANT =>
      if bool_decide (formula ∈ constants signature) then
        Some (Return (Node (Sym formula) type [] signature))
      else None
  | VARIABLE =>
      if _varSyntaxCheck formula signature then
        Some (Return (Node (Sym formula) type [] signature))
      else None
  end.

(** [for type in types: ...], then the [raise] after the loop. *)
Fixpoint _parse_loop (formula : string) (types : list NodeType)
  : outcome ParseTree :=
  match types with
  | [] => Raise (ParseError (InvalidFormula formula))
  | type :: rest =>
      match _parse_type formula type with
      | Some result => result
      | None => _parse_loop formula rest
      end
  end.
End Body.

Fixpoint _parse (fuel : nat) (formula : string) : outcome ParseTree :=
  match fuel with
  | O => OutOfFuel
  | S fuel' =>
      let formula := PyStr.strip formula in
      if String.eqb formula "" then Raise (ParseError EmptyFormula)
      else _parse_loop (_parse fuel') formula (rev precedence)
  end.

Definition parse (fuel : nat) (formula : string) (onlyFormulas : bool)
  : outcome ParseTree :=
  parseTree ← _parse fuel formula;
  if onlyFormulas && negb (isFormula parseTree) then
    Raise (ParseError (NotAFormula formula))
  else Return parseTree.
End Parse.

(** [parse(formula, signature, onlyFormulas=...)] with the default
    precedence and junctor symbols.  A call on a text of [n] characters
    nests at most [n + 1] deep (see [_parse_fuel_enough]). *)
Definition parse_default (formula : string) (signature : Signature)
    (onlyFormulas : bool) : outcome ParseTree :=
  parse signature _STANDARD_PRECEDENCE _STANDARD_JUNCTOR_SYMBOLS
        (S (String.length formula)) formula onlyFormulas.

(** ** knowledgebase.py *)

Record KnowledgeBase := mkKnowledgeBase {
  kb_signature : Signature;
  parseTrees : list ParseTree;
}.

(** The argument of [add]: a [ParseTree], or anything else, which is
    handed to the parser as text. *)
Inductive Formula :=
| Parsed (tree : ParseTree)
| Text (text : string).

(** [self.parseTrees.append(pt)] *)
Definition append_tree (self : KnowledgeBase) (pt : ParseTree) : KnowledgeBase :=
  mkKnowledgeBase (kb_signature self) (parseTrees self ++ [pt]).

(** [KnowledgeBase.add]: the knowledge base after the call, and how the
    call ended. *)
Definition add (self : KnowledgeBase) (formula : Formula)
  : KnowledgeBase * outcome unit :=
  match formula with
  | Parsed tree =>
      if negb (Signature_eq (ParseTree_signature tree) (kb_signature self)) then
        (self, Raise SignatureMismatch)
      else (append_tree self tree, Return ())
  | Text text =>
      match parse_default text (kb_signature self) true with
      | Return pt => (append_tree self pt, Return ())
      | Raise (ParseError err) => (self, Raise (CouldNotParse text err))
      | Raise e => (self, Raise e)
      | OutOfFuel => (self, OutOfFuel)
      end
  end.

(** [KnowledgeBase.__init__]: the loop over the initial formulas. *)
Fixpoint add_all (self : KnowledgeBase) (formulas : list Formula)
  : KnowledgeBase * outcome unit :=
  match formulas with
  | [] => (self, Return ())
  | f :: rest =>
      match add self f with
      | (self', Return _) => add_all self' rest
      | failed => failed
      end
  end.

(** [KnowledgeBase.__init__]; [formulas = None] is the call that leaves
    the argument out, and the loop then iterates over [None]. *)
Definition KnowledgeBase_init (signature : Signature)
    (formulas : option (list Formula)) : KnowledgeBase * outcome unit :=
  let self := mkKnowledgeBase signature [] in
  match formulas with
  | None => (self, Raise (TypeError "'NoneType' object is not iterable"))
  | Some formulas => add_all self formulas
  end.

(** [KnowledgeBase.__len__] *)
Definition KnowledgeBase_len (self : KnowledgeBase) : nat :=
  length (parseTrees self).

(** [KnowledgeBase.__contains__]: whatever the parser raises is caught
    by the bare [except] and answered with [False]. *)
Definition KnowledgeBase_contains (self : KnowledgeBase) (formula : Formula)
  : outcome bool :=
  match formula with
  | Parsed tree => Return (list_contains (parseTrees self) tree)
  | Text text =>
      match parse_default text (kb_signature self) true with
      | Return tree => Return (list_contains (parseTrees self) tree)
      | Raise _ => Return false
      | OutOfFuel => OutOfFuel
      end
  end.

(** ** The tensor runtime

    The values that structures map symbols to (tensors and callables)
    and the operations of numpy and tensorflow on them are outside the
    core: they are a parameter of the evaluator. *)

Class PyRuntime := {
  Obj : Type;
  (* calling [f] on the unpacked list [args] *)
  py_call : Obj -> list Obj -> outcome Obj;
  (* [t.shape[0]] *)
  shape0 : Obj -> outcome nat;
  (* [t[i:j]] *)
  getslice : Obj -> nat -> nat -> outcome Obj;
  (* [tf.concat(values, 0)] *)
  tf_concat : list Obj -> outcome Obj;
}.

(** ** fuzzyops/operators.py: the operator set *)

Record OperatorSet `{PyRuntime} := mkOperatorSet {
  negation : Obj -> outcome Obj;
  tnorm : Obj -> Obj -> outcome Obj;
  tconorm : Obj -> Obj -> outcome Obj;
  implication : Obj -> Obj -> outcome Obj;
  universal : Obj -> outcome Obj;
  existential : Obj -> outcome Obj;
}.

(** [fuzzyops.standardProductSet], the module-level operator set built
    from floating-point tensor operations. *)
Class Fuzzyops `{PyRuntime} := {
  standardProductSet : OperatorSet;
}.

(** ** structure.py and interpretation.py *)

Section Interpretation.
Context `{PyRuntime}.

Record Structure := mkStructure {
  structure_signature : Signature;
  mappings : gmap string Obj;
}.

(** [Structure.__contains__] and [Structure.__call__] *)
Definition Structure_contains (self : Structure) (symbol : string) : bool :=
  dict_contains (mappings self) symbol.

Definition Structure_call (self : Structure) (symbol : string) : outcome Obj :=
  match mappings self !! symbol with
  | Some v => Return v
  | None => Raise (KeyError symbol)
  end.

(** The property [Structure.complete]: the three loops over the
    symbols of the signature.  The answer does not depend on the order
    in which a dict yields its keys. *)
Definition Structure_complete (self : Structure) : bool :=
  forallb (fun p => dict_contains (mappings self) p)
          (fst <$> map_to_list (predicates (structure_signature self)))
  && forallb (fun f => dict_contains (mappings self) f)
             (fst <$> map_to_list (functors (structure_signature self)))
  && forallb (fun c => dict_contains (mappings self) c)
             (constants (structure_signature self)).

(** [d[key]] *)
Definition dict_get (d : gmap string Obj) (key : string) : outcome Obj :=
  match d !! key with
  | Some v => Return v
  | None => Raise (KeyError key)
  end.

(** An interpretation by the values of its three attributes.  The
    objects behind them, and what [extend] does to them, are in
    [Store] below. *)
Record Interpretation := mkInterpretation {
  structure : Structure;
  variableAssignment : gmap string Obj;
  domainAssignment : gmap string Obj;
}.

Definition interpret (self : Interpretation) (symbol : string) : outcome Obj :=
  if Structure_contains (structure self) symbol then
    Structure_call (structure self) symbol
  else if dict_contains (variableAssignment self) symbol then
    dict_get (variableAssignment self) symbol
  else if dict_contains (domainAssignment self) symbol then
    dict_get (domainAssignment self) symbol
  else Raise (NotInterpretable symbol).

(** [interpretation(parseTree.value)]: a list is not hashable. *)
Definition interpret_value (self : Interpretation) (v : NodeValue) : outcome Obj :=
  match v with
  | Sym symbol => interpret self symbol
  | Quant _ _ => Raise (TypeError "unhashable type: 'list'")
  end.

(** [d.update(substitution)] on a dict [d] *)
Definition dict_update (d substitution : gmap string Obj) : gmap string Obj :=
  substitution ∪ d.

Definition extend (self : Interpretation) (substitution : gmap string Obj)
  : Interpretation :=
  let variableAssignment := dict_update (variableAssignment self) substitution in
  mkInterpretation (structure self) variableAssignment (domainAssignment self).

(** *** The evaluator *)

Fixpoint evaluate (parseTree : ParseTree) (interpretation : Interpretation)
    (junctors : OperatorSet) {struct parseTree} : outcome Obj :=
  match parseTree with
  | Node value type children _ =>
      match type with
      | CONSTANT | VARIABLE => interpret_value interpretation value
      | FUNCTOR | PREDICATE =>
          childValues ← for_each (fun child => evaluate child interpretation junctors)
                                 children;
          f ← interpret_value interpretation value;
          py_call f childValues
      | BRACKET =>
          match children with
          | child0 :: _ => evaluate child0 interpretation junctors
          | [] => Raise IndexError
          end
      | NEGATION =>
          match children with
          | child0 :: _ =>
              a ← evaluate child0 interpretation junctors;
              negation junctors a
          | [] => Raise IndexError
          end
      | CONJUNCTION | DISJUNCTION | IMPLICATION =>
          let operator :=
            match type with
            | CONJUNCTION => tnorm junctors
            | DISJUNCTION => tconorm junctors
            | _ => implication junctors
            end in
          match children with
          | child0 :: rest =>
              a ← evaluate child0 interpretation junctors;
              match rest with
              | child1 :: _ =>
                  b ← evaluate child1 interpretation junctors;
                  operator a b
              | [] => Raise IndexError
              end
          | [] => Raise IndexError
          end
      | EXISTENTIAL | UNIVERSAL =>
          boundVariable ← value_index value 0;
          domainSymbol ← value_index value 1;
          domain ← interpret interpretation domainSymbol;
          n ← shape0 domain;
          results ← for_each
            (fun i =>
               variableValue ← getslice domain i (i + 1);
               let substitution : gmap string Obj :=
                 {[ boundVariable := variableValue ]} in
               let extInterpretation := extend interpretation substitution in
               match children with
               | child0 :: _ => evaluate child0 extInterpretation junctors
               | [] => Raise IndexError
               end)
            (seq 0 n);
          let aggregator :=
            match type with
            | EXISTENTIAL => existential junctors
            | _ => universal junctors
            end in
          batch ← tf_concat results;
          aggregator batch
      end
  end.

(** [evaluateKB]; [aggregator = None] is the call that leaves the
    argument out.  The [isinstance] test is the type of the first
    argument. *)
Definition evaluateKB `{!Fuzzyops} (knowledgeBase : KnowledgeBase)
    (interpretation : Interpretation) (junctors : OperatorSet)
    (aggregator : option (Obj -> outcome Obj)) : outcome Obj :=
  let aggregator :=
    match aggregator with
    | Some agg => agg
    | None => universal standardProductSet
    end in
  results ← for_each (fun pt => evaluate pt interpretation junctors)
                     (parseTrees knowledgeBase);
  batch ← tf_concat results;
  aggregator batch.

(** *** model.py: the agent and its queries *)

Record Model := mkModel {
  knowledgeBase : KnowledgeBase;
  model_interpretation : Interpretation;
  operatorSet : OperatorSet;
}.

(** How [Model.query] ends: with a value, with the [ValueError] that
    wraps what the parser raised, or as the evaluator ends. *)
Inductive QueryResult :=
| Answer (v : Obj)
| QueryValueError (formula : string) (err : Exn)
| QueryRaise (e : Exn)
| QueryOutOfFuel.

Definition evaluated (o : outcome Obj) : QueryResult :=
  match o with
  | Return v => Answer v
  | Raise e => QueryRaise e
  | OutOfFuel => QueryOutOfFuel
  end.

(** [Model.query]: a text is parsed with the signature of the knowledge
    base and [onlyFormulas] left at its default. *)
Definition query (self : Model) (formula : Formula) : QueryResult :=
  match formula with
  | Parsed tree =>
      evaluated (evaluate tree (model_interpretation self) (operatorSet self))
  | Text text =>
      match parse_default text (kb_signature (knowledgeBase self)) false with
      | Return tree =>
          evaluated (evaluate tree (model_interpretation self) (operatorSet self))
      | Raise err => QueryValueError text err
      | OutOfFuel => QueryOutOfFuel
      end
  end.

End Interpretation.

(** ** Interpretations as objects

    [Interpretation.extend] copies a dict and updates the copy in place,
    and [Interpretation.__init__] keeps a reference to the dicts it is
    given.  Here the dicts, structures and interpretations are objects
    in a store, and attributes hold references. *)

Module Store.
(** References are numbers. *)
Abbreviation ref := nat (only parsing).

Section Store.
Context `{PyRuntime}.

Inductive cell :=
| Dict (d : gmap string Obj)
| StructureObj (signature : Signature) (mappings : ref)
| InterpretationObj (structure variableAssignment domainAssignment : ref).

Abbreviation store := (gmap ref cell) (only parsing).

(** A new object. *)
Definition alloc (h : store) (c : cell) : store * ref :=
  let r := fresh (dom h) in (<[r := c]> h, r).

(** [if x:] for an optional argument [x]: [None] and the empty dict
    are false. *)
Definition truthy (h : store) (x : option ref) : bool :=
  match x with
  | None => false
  | Some r =>
      match h !! r with
      | Some (Dict d) => negb (bool_decide (d = ∅))
      | _ => true
      end
  end.

(** [Interpretation.__init__] *)
Definition Interpretation_init (h : store) (structure : ref)
    (variableAssignment domainAssignment : option ref) : store * ref :=
  let '(h, va) :=
    match variableAssignment with
    | Some r => if truthy h variableAssignment then (h, r) else alloc h (Dict ∅)
    | None => alloc h (Dict ∅)
    end in
  let '(h, da) :=
    match domainAssignment with
    | Some r => if truthy h domainAssignment then (h, r) else alloc h (Dict ∅)
    | None => alloc h (Dict ∅)
    end in
  alloc h (InterpretationObj structure va da).

(** [Interpretation.extend] *)
Definition extend (h : store) (self substitution : ref) : outcome (store * ref) :=
  match h !! self with
  | Some (InterpretationObj st va da) =>
      match h !! va, h !! substitution with
      | Some (Dict d_va), Some (Dict d_sub) =>
          (* variableAssignment = copy.copy(self.variableAssignment) *)
          let '(h, variableAssignment) := alloc h (Dict d_va) in
          (* variableAssignment.update(substitution) *)
          let h := <[variableAssignment := Dict (dict_update d_va d_sub)]> h in
          Return (Interpretation_init h st (Some variableAssignment) (Some da))
      | _, _ => Raise (TypeError "not a dict")
      end
  | _ => Raise (TypeError "not an Interpretation")
  end.

Definition read_dict (h : store) (r : ref) : option (gmap string Obj) :=
  match h !! r with Some (Dict d) => Some d | _ => None end.

(** The values behind an interpretation object. *)
Definition snapshot (h : store) (r : ref) : option Interpretation :=
  match h !! r with
  | Some (InterpretationObj st va da) =>
      match h !! st with
      | Some (StructureObj sg m) =>
          d_m ← read_dict h m;
          d_va ← read_dict h va;
          d_da ← read_dict h da;
          Some (mkInterpretation (mkStructure sg d_m) d_va d_da)
      | _ => None
      end
  | _ => None
  end.

(** The reference in the [structure] attribute. *)
Definition structure_ref (h : store) (r : ref) : option ref :=
  match h !! r with
  | Some (InterpretationObj st _ _) => Some st
  | _ => None
  end.
End Store.
Abbreviation store := (gmap ref cell) (only parsing).
End Store.

(** ** Notions used in the statements *)

(** A call of the parser has ended as the parser ends: by returning or
    by raising a [ParseError]. *)
Definition ended {A} (o : outcome A) : Prop :=
  match o with
  | Return _ | Raise (ParseError _) => True
  | _ => False
  end.

(** Two runs ended, and the same way. *)
Definition agree {A} (o1 o2 : outcome A) : Prop := o1 = o2 /\ ended o1.

(** The same for one turn of the loop over the node kinds. *)
Inductive agree_turn {A} : option (outcome A) -> option (outcome A) -> Prop :=
| agree_continue : agree_turn None None
| agree_result r1 r2 : agree r1 r2 -> agree_turn (Some r1) (Some r2).

(** The junctor symbols are a complete mapping and no symbol is empty. *)
Definition complete_symbols (junctorSymbols : NodeType -> option string) : Prop :=
  forall type, type ∈ [IMPLICATION; DISJUNCTION; CONJUNCTION; NEGATION] ->
    exists sym, junctorSymbols type = Some sym /\ sym <> EmptyString.

(** The characters the grammar gives a meaning to, and white space. *)
Definition reserved (c : ascii) : bool :=
  PyStr.isspace c
  || Ascii.eqb c "(" || Ascii.eqb c ")" || Ascii.eqb c "," || Ascii.eqb c ";"
  || Ascii.eqb c "!" || Ascii.eqb c "~" || Ascii.eqb c ":" || Ascii.eqb c "-".

(** A bare name: not empty, and free of reserved characters. *)
Definition bare (s : string) : Prop :=
  s <> EmptyString /\ PyStr.all_chars (fun c => negb (reserved c)) s = true.

(** A token: [[a-zA-Z][a-zA-Z0-9]*] over the entire length. *)
Definition token (s : string) : Prop :=
  (exists c, PyStr.first s = Some c /\ PyStr.isalpha c = true)
  /\ PyStr.all_chars PyStr.isalnum s = true.

(** The bracket depth after a text read from depth [d]: up on [(], down
    on [)], never negative. *)
Fixpoint depth_after (s : string) (d : Z) : Z :=
  match s with
  | EmptyString => d
  | String c r =>
      depth_after r (if Ascii.eqb c "(" then (d + 1)%Z
                     else if Ascii.eqb c ")" then Z.max 0 (d - 1)
                     else d)
  end.

(** The bracket depth of position [i] of [s], read from depth [d]: the
    depth after the characters before it, and a [)] at [i] has already
    closed. *)
Definition depth_at_from (s : string) (d : Z) (i : nat) : Z :=
  let d' := depth_after (PyStr.str_take i s) d in
  if PyStr.is_char (PyStr.first (PyStr.str_drop i s)) ")" then Z.max 0 (d' - 1)
  else d'.

Definition depth_at (s : string) (i : nat) : Z := depth_at_from s 0 i.

(** [key] occurs in [s] at position [i], at bracket depth 0. *)
Definition top_level_occurrence (s key : string) (i : nat) : Prop :=
  i < String.length s /\
  PyStr.startswith (PyStr.str_drop i s) key = true /\
  depth_at s i = 0%Z.

(** [sym] is the symbol of the junctor [type], and no junctor that binds
    more loosely occurs in [s] at bracket depth 0. *)
Definition loosest_junctor (s : string) (type : NodeType) (sym : string) : Prop :=
  match type with
  | IMPLICATION => sym = "-:"%string
  | DISJUNCTION =>
      sym = ";"%string /\ forall i, ~ top_level_occurrence s "-:" i
  | CONJUNCTION =>
      sym = ","%string /\ (forall i, ~ top_level_occurrence s "-:" i)
      /\ forall i, ~ top_level_occurrence s ";" i
  | _ => False
  end.

(** No [)] of the text closes a bracket opened before the text, read
    from [d] brackets opened inside it. *)
Fixpoint unclosed_from (s : string) (d : nat) : bool :=
  match s with
  | EmptyString => true
  | String c r =>
      if Ascii.eqb c "(" then unclosed_from r (S d)
      else if Ascii.eqb c ")" then
        match d with O => false | S d' => unclosed_from r d' end
      else unclosed_from r d
  end.

Definition unclosed (s : string) : bool := unclosed_from s 0.

(** A node as the parser builds it: the signature of the parser, a value
    and children that fit the kind of the node.  An application node
    applies a symbol that its table declares, to as many terms as the
    declared arity, and to at least one. *)
Definition node_ok (signature : Signature)
    (junctorSymbols : NodeType -> option string) (node : ParseTree) : Prop :=
  ParseTree_signature node = signature /\
  match type node with
  | PREDICATE =>
      exists symbol, value node = Sym symbol /\
        predicates signature !! symbol = Some (Z.of_nat (length (children node))) /\
        1 <= length (children node) /\
        Forall (fun child => isTerm child = true) (children node)
  | FUNCTOR =>
      exists symbol, value node = Sym symbol /\
        functors signature !! symbol = Some (Z.of_nat (length (children node))) /\
        1 <= length (children node) /\
        Forall (fun child => isTerm child = true) (children node)
  | CONSTANT =>
      exists name, value node = Sym name /\ name ∈ constants signature /\
        children node = []
  | VARIABLE =>
      exists name, value node = Sym name /\
        _varSyntaxCheck name signature = true /\ children node = []
  | UNIVERSAL | EXISTENTIAL =>
      exists variable domain child,
        value node = Quant variable domain /\
        _varSyntaxCheck variable signature = true /\
        _varSyntaxCheck domain signature = true /\
        children node = [child] /\ isFormula child = true
  | IMPLICATION | DISJUNCTION | CONJUNCTION =>
      exists sym left right,
        junctorSymbols (type node) = Some sym /\ value node = Sym sym /\
        children node = [left; right] /\
        isFormula left = true /\ isFormula right = true
  | NEGATION =>
      exists sym child,
        junctorSymbols NEGATION = Some sym /\ value node = Sym sym /\
        children node = [child] /\ isFormula child = true
  | BRACKET =>
      exists child,
        value node = Sym "()" /\ children node = [child] /\
        isFormula child = true
  end.

(** The names in a node: its symbol, or its variable and its domain. *)
Definition names (node : ParseTree) : list string :=
  match value node with
  | Sym s => [s]
  | Quant variable domain => [variable; domain]
  end.

(** The nodes of a tree. *)
Fixpoint nodes (t : ParseTree) : list ParseTree :=
  match t with
  | Node _ _ children _ => t :: flat_map nodes children
  end.

(** The variable that a node brings into a tree: the name of a variable
    node, the bound variable of a quantifier node. *)
Definition variable_of (node : ParseTree) : option NodeValue :=
  match type node, value node with
  | VARIABLE, name => Some name
  | (UNIVERSAL | EXISTENTIAL), Quant variable _ => Some (Sym variable)
  | _, _ => None
  end.

(** The domain that a quantifier node ranges over. *)
Definition domain_of (node : ParseTree) : option string :=
  match type node, value node with
  | (UNIVERSAL | EXISTENTIAL), Quant _ domain => Some domain
  | _, _ => None
  end.

Section Grounding.
Context `{PyRuntime}.

(** The loop of a quantifier over a domain of [n] values. *)
Definition grounding (child : ParseTree) (boundVariable : string)
    (interpretation : Interpretation) (junctors : OperatorSet)
    (domain : Obj) (n : nat) : outcome (list Obj) :=
  for_each (fun i =>
              variableValue ← getslice domain i (i + 1);
              evaluate child
                (extend interpretation {[ boundVariable := variableValue ]})
                junctors)
           (seq 0 n).

(** What the specification says a quantifier node is worth over the
    domain [domain] of [n] values. *)
Definition quantifier_value (type : NodeType) (child : ParseTree)
    (boundVariable : string) (interpretation : Interpretation)
    (junctors : OperatorSet) (domain : Obj) (n : nat) : outcome Obj :=
  results ← grounding child boundVariable interpretation junctors domain n;
  batch ← tf_concat results;
  match type with
  | UNIVERSAL => universal junctors batch
  | _ => existential junctors batch
  end.
End Grounding.

(** The errors that the evaluator raises by itself on a tree that does
    not fit it: a child or an element of a value that is not there, and
    the pair of a quantifier used as a symbol. *)
Definition structural (e : Exn) : Prop :=
  e = IndexError \/ e = TypeError "unhashable type: 'list'".

(** A call ended, and not with such an error. *)
Definition no_structural_error {A} (o : outcome A) : Prop :=
  match o with
  | Return _ => True
  | Raise e => ~ structural e
  | OutOfFuel => False
  end.

Section Quiet.
Context `{PyRuntime}.

(** The tensor operations and the operators raise no such error
    themselves. *)
Definition quiet (junctors : OperatorSet) : Prop :=
  (forall f args, no_structural_error (py_call f args)) /\
  (forall t, no_structural_error (shape0 t)) /\
  (forall t i j, no_structural_error (getslice t i j)) /\
  (forall ts, no_structural_error (tf_concat ts)) /\
  (forall a, no_structural_error (negation junctors a)) /\
  (forall a b, no_structural_error (tnorm junctors a b)) /\
  (forall a b, no_structural_error (tconorm junctors a b)) /\
  (forall a b, no_structural_error (implication junctors a b)) /\
  (forall t, no_structural_error (universal junctors t)) /\
  (forall t, no_structural_error (existential junctors t)).
End Quiet.

(** ** A small runtime

    Tensors of rank one over the integers and functions on them: enough
    to run the evaluator on examples. *)

Module Example.

Inductive value :=
| Tensor (rows : list Z)
| Callable (f : list (list Z) -> list Z).

Definition rows_of (v : value) : outcome (list Z) :=
  match v with
  | Tensor rows => Return rows
  | Callable _ => Raise (TypeError "not a tensor")
  end.

Definition runtime : PyRuntime := {|
  Obj := value;
  py_call f args :=
    match f with
    | Callable g => rows ← for_each rows_of args; Return (Tensor (g rows))
    | Tensor _ => Raise (TypeError "not callable")
    end;
  shape0 t := rows ← rows_of t; Return (length rows);
  getslice t i j := rows ← rows_of t; Return (Tensor (take (j - i) (drop i rows)));
  tf_concat values :=
    match values with
    | [] => Raise (RuntimeError "concat of an empty list")
    | _ => rows ← for_each rows_of values; Return (Tensor (concat rows))
    end;
|}.

(** An operator set whose aggregators give back the batch. *)
Definition plain : @OperatorSet runtime := {|
  negation a := Return a;
  tnorm a b := Return a;
  tconorm a b := Return a;
  implication a b := Return b;
  universal t := Return t;
  existential t := Return t;
|}.

(** The same with a universal aggregator that always gives [[z]]. *)
Definition constant_universal (z : Z) : @OperatorSet runtime := {|
  negation := @negation runtime plain;
  tnorm := @tnorm runtime plain;
  tconorm := @tconorm runtime plain;
  implication := @implication runtime plain;
  universal t := Return (Tensor [z]);
  existential := @existential runtime plain;
|}.

Definition no_signature : Signature := mkSignature ∅ ∅ [].

Definition Friend_signature : Signature :=
  mkSignature {[ "Friend"%string := 2%Z ]} ∅ ["a"%string; "b"%string].

(** A signature with a predicate of arity 0. *)
Definition Z_signature : Signature :=
  mkSignature {[ "Zero"%string := 0%Z ]} ∅ [].

Definition P_signature : Signature :=
  mkSignature {[ "P"%string := 1%Z ]} ∅ ["a"%string].

(** [P(a)], with [a] mapped to the batch [[1]] and [P] to the identity. *)
Definition P_a : ParseTree :=
  Node (Sym "P") PREDICATE [Node (Sym "a") CONSTANT [] P_signature] P_signature.

Definition P_structure : @Structure runtime :=
  mkStructure P_signature
    {[ "a"%string := Tensor [1%Z];
       "P"%string := Callable (fun args => concat args) ]}.

Definition P_interpretation : @Interpretation runtime :=
  mkInterpretation P_structure ∅ ∅.

Definition P_kb : KnowledgeBase := mkKnowledgeBase P_signature [P_a].

(** [Ax~D:x] as a tree, and an interpretation in which [D] is a domain
    of two values and also a variable. *)
Definition forall_x_D : ParseTree :=
  Node (Quant "x" "D") UNIVERSAL [Node (Sym "x") VARIABLE [] no_signature]
       no_signature.

Definition shadowed : @Interpretation runtime :=
  mkInterpretation (mkStructure no_signature ∅)
    {[ "D"%string := Tensor [7%Z] ]}
    {[ "D"%string := Tensor [1%Z; 2%Z] ]}.

(** A store with an interpretation at reference 4 and a substitution
    at reference 5. *)
Definition objects : gmap nat (@Store.cell runtime) :=
  {[ 0 := Store.Dict ∅;
     1 := Store.StructureObj no_signature 0;
     2 := Store.Dict {[ "x"%string := Tensor [1%Z] ]};
     3 := Store.Dict {[ "D"%string := Tensor [1%Z; 2%Z] ]};
     4 := Store.InterpretationObj 1 2 3;
     5 := Store.Dict {[ "x"%string := Tensor [2%Z]; "y"%string := Tensor [3%Z] ]} ]}.

End Example.

(** * Properties *)

(** ** Strings *)

Module PyStrFacts.
Import PyStr.

Lemma length_str_drop n s : String.length (str_drop n s) = String.length s - n.
Proof.
  revert s; induction n as [|n IH]; intros [|c r]; simpl; try lia.
  apply IH.
Qed.

Lemma length_str_take n s : String.length (str_take n s) = n `min` String.length s.
Proof.
  revert s; induction n as [|n IH]; intros [|c r]; simpl; try lia.
  rewrite IH; lia.
Qed.

Lemma length_slice s a b :
  Z.of_nat (String.length (slice s a b)) =
  let len := Z.of_nat (String.length s) in
  Z.max 0 (match b with Some j => clamp len j | None => len end - clamp len a).
Proof.
  unfold slice. rewrite length_str_take, length_str_drop.
  cbv zeta. set (len := Z.of_nat (String.length s)).
  assert (0 <= clamp len a <= len)%Z as Ha.
  { unfold clamp. destruct (Z.ltb_spec a 0); lia. }
  assert (forall j, 0 <= clamp len j <= len)%Z as Hb.
  { intros j. unfold clamp. destruct (Z.ltb_spec j 0); lia. }
  destruct b as [j|]; [specialize (Hb j)|]; lia.
Qed.

Lemma length_slice_le s a b : String.length (slice s a b) <= String.length s.
Proof.
  pose proof (length_slice s a b) as E. cbv zeta in E.
  destruct b as [j|]; unfold clamp in E;
    repeat match type of E with context [Z.ltb ?x ?y] =>
      destruct (Z.ltb_spec x y) end; lia.
Qed.

(** [s[a:]] and [s[a:-1]] with [a > 0] lose a character. *)
Lemma length_slice_from s a b :
  s <> EmptyString -> (0 < a)%Z ->
  String.length (slice s a b) < String.length s.
Proof.
  intros Hs Ha. pose proof (length_slice s a b) as E. cbv zeta in E.
  assert (0 < String.length s) by (destruct s; simpl; [done|lia]).
  destruct b as [j|]; unfold clamp in E;
    repeat match type of E with context [Z.ltb ?x ?y] =>
      destruct (Z.ltb_spec x y) end; lia.
Qed.

(** [s[0:p]] with [p] a position of [s] loses a character. *)
Lemma length_slice_upto s p :
  (0 <= p < Z.of_nat (String.length s))%Z ->
  String.length (slice s 0 (Some p)) < String.length s.
Proof.
  intros Hp. pose proof (length_slice s 0 (Some p)) as E. cbv zeta in E.
  unfold clamp in E;
    repeat match type of E with context [Z.ltb ?x ?y] =>
      destruct (Z.ltb_spec x y) end; lia.
Qed.

Lemma length_lstrip s : String.length (lstrip s) <= String.length s.
Proof.
  induction s as [|c r IH]; simpl; [lia|].
  destruct (isspace c); simpl; lia.
Qed.

Lemma length_rstrip s : String.length (rstrip s) <= String.length s.
Proof.
  induction s as [|c r IH]; simpl; [lia|].
  destruct (rstrip r); [destruct (isspace c)|]; simpl in *; lia.
Qed.

Lemma length_strip s : String.length (strip s) <= String.length s.
Proof.
  unfold strip. pose proof (length_rstrip (lstrip s)).
  pose proof (length_lstrip s). lia.
Qed.

Lemma find_from_bound s sub i :
  find_from s sub i = (-1)%Z \/
  (i <= find_from s sub i <= i + Z.of_nat (String.length s))%Z.
Proof.
  revert i; induction s as [|c r IH]; intros i; cbn [find_from String.length].
  - destruct (startswith EmptyString sub); [right|left]; lia.
  - destruct (startswith (String c r) sub); [right; lia|].
    destruct (IH (i + 1)%Z) as [->|?]; [by left|right; lia].
Qed.

Lemma eqb_empty s : String.eqb s "" = false <-> s <> EmptyString.
Proof. rewrite String.eqb_neq. done. Qed.

End PyStrFacts.

Lemma _findTopLevel_loop_bound s key i depth :
  _findTopLevel_loop s key i depth = (-1)%Z \/
  (i <= _findTopLevel_loop s key i depth < i + Z.of_nat (String.length s))%Z.
Proof.
  revert i depth; induction s as [|c r IH]; intros i depth; [by left|].
  cbn [_findTopLevel_loop String.length].
  destruct (_ && _); [right; lia|].
  match goal with |- context [_findTopLevel_loop r key ?j ?d] =>
    destruct (IH j d) as [->|?] end; [by left|right; lia].
Qed.

Lemma _findTopLevel_bound s key :
  _findTopLevel s key <> (-1)%Z ->
  (0 <= _findTopLevel s key < Z.of_nat (String.length s))%Z.
Proof.
  unfold _findTopLevel. destruct (_findTopLevel_loop_bound s key 0 0); lia.
Qed.

(** Every piece of a split is a slice of the text. *)
Lemma _splitAtLevel_loop_pieces str seperator suffix i depth begin result x :
  x ∈ _splitAtLevel_loop str seperator suffix i depth begin result ->
  x ∈ result \/ exists a b, x = PyStr.slice str a b.
Proof.
  revert i depth begin result; induction suffix as [|c r IH];
    intros i depth begin result; cbn [_splitAtLevel_loop].
  - rewrite elem_of_app, list_elem_of_singleton. intros [?| ->]; eauto.
  - repeat case_match; intros Hx; apply IH in Hx; try done.
    destruct Hx as [Hx|?]; [|by right].
    apply elem_of_app in Hx as [?|Hx]; [by left|].
    apply list_elem_of_singleton in Hx as ->. eauto.
Qed.

Lemma _splitAtLevel_length str seperator x :
  x ∈ _splitAtLevel str seperator -> String.length x <= String.length str.
Proof.
  intros Hx. apply _splitAtLevel_loop_pieces in Hx as [Hx|(a & b & ->)].
  - by apply elem_of_nil in Hx.
  - apply PyStrFacts.length_slice_le.
Qed.

Lemma _splitAtLevel_loop_nonempty str seperator suffix i depth begin result :
  _splitAtLevel_loop str seperator suffix i depth begin result <> [].
Proof.
  revert i depth begin result; induction suffix as [|c r IH];
    intros i depth begin result; cbn [_splitAtLevel_loop].
  - by destruct result.
  - repeat case_match; apply IH.
Qed.

(** A split has at least one piece. *)
Lemma _splitAtLevel_nonempty str seperator :
  1 <= length (_splitAtLevel str seperator).
Proof.
  pose proof (_splitAtLevel_loop_nonempty str seperator str 0 0 0 []) as Hne.
  unfold _splitAtLevel. destruct (_splitAtLevel_loop _ _ _ _ _ _ _); simpl; [done|lia].
Qed.

(** ** The parser returns or raises: fuel

    Every recursive call of [_parse] is on a text shorter than the
    stripped formula, as long as no junctor symbol is the empty string.
    Two runs with enough fuel then end the same way, and not by running
    out of fuel. *)

Lemma agree_Return {A} (a : A) : agree (Return a) (Return a).
Proof. done. Qed.

Lemma agree_Raise {A} msg :
  agree (@Raise A (ParseError msg)) (Raise (ParseError msg)).
Proof. done. Qed.

Lemma agree_bind {A B} (m1 m2 : outcome A) (k1 k2 : A -> outcome B) :
  agree m1 m2 -> (forall a, m1 = Return a -> agree (k1 a) (k2 a)) ->
  agree (m1 ≫= k1) (m2 ≫= k2).
Proof.
  intros [<- Hm] Hk. destruct m1 as [a|e|]; [by apply Hk|done|done].
Qed.

Lemma agree_for_each {A B} (f g : A -> outcome B) xs :
  (forall x, x ∈ xs -> agree (f x) (g x)) ->
  agree (for_each f xs) (for_each g xs).
Proof.
  induction xs as [|x xs IH]; intros Hfg; cbn [for_each]; [done|].
  apply agree_bind; [apply Hfg; left|intros r _].
  apply agree_bind; [apply IH; intros; apply Hfg; by right|done].
Qed.

Create HintDb agree.
#[local] Hint Resolve agree_Return agree_Raise : agree.
#[local] Hint Constructors agree_turn : agree.

Section ParseFuel.
Context (signature : Signature) (precedence : list NodeType)
        (junctorSymbols : NodeType -> option string).
Hypothesis symbols : complete_symbols junctorSymbols.

Let shorter (formula sub : string) : Prop :=
  String.length sub < String.length formula.

Lemma symbol_length type :
  type ∈ [IMPLICATION; DISJUNCTION; CONJUNCTION; NEGATION] ->
  exists sym, junctorSymbols type = Some sym /\
              (0 < Z.of_nat (String.length sym))%Z.
Proof.
  intros Hs. apply symbols in Hs as (sym & -> & Hne). exists sym.
  split; [done|]. destruct sym; simpl; [done|lia].
Qed.

Lemma _parse_type_agree rec1 rec2 formula type :
  formula <> EmptyString ->
  (forall sub, shorter formula sub -> agree (rec1 sub) (rec2 sub)) ->
  agree_turn (_parse_type signature junctorSymbols rec1 formula type)
             (_parse_type signature junctorSymbols rec2 formula type).
Proof.
  intros Hne Hrec.
  assert (forall a b, (0 < a)%Z ->
            agree (rec1 (PyStr.slice formula a b)) (rec2 (PyStr.slice formula a b)))
    as Hfrom.
  { intros. apply Hrec. by apply PyStrFacts.length_slice_from. }
  assert (forall type,
            type ∈ [IMPLICATION; DISJUNCTION; CONJUNCTION; NEGATION] ->
            agree_turn (_parse_junctor signature junctorSymbols rec1 formula type)
                       (_parse_junctor signature junctorSymbols rec2 formula type))
    as Hjunctor.
  { intros type' Hin. unfold _parse_junctor, _parse_operands.
    destruct (symbol_length _ Hin) as (sym & -> & Hlen).
    destruct (Z.eqb_spec (_findTopLevel formula sym) (-1)) as [|Hpos];
      [constructor|].
    apply _findTopLevel_bound in Hpos. constructor.
    apply agree_bind; [apply Hrec; by apply PyStrFacts.length_slice_upto|intros].
    apply agree_bind; [apply Hfrom; lia|intros].
    repeat case_match; auto with agree. }
  assert (forall type,
            agree_turn (_parse_application signature rec1 formula type)
                       (_parse_application signature rec2 formula type))
    as Happlication.
  { intros type'. unfold _parse_application, _parse_arguments.
    destruct (Z.eqb_spec (PyStr.find formula "(") (-1)) as [|Hfind];
      [constructor|].
    repeat case_match; auto with agree.
    all: constructor; apply agree_bind; [|auto with agree].
    all: apply agree_for_each; intros x Hx.
    all: apply agree_bind; [|intros; case_match; auto with agree].
    all: apply Hrec; apply _splitAtLevel_length in Hx; unfold shorter.
    all: eapply Nat.le_lt_trans; [done|].
    all: apply PyStrFacts.length_slice_from; [done|].
    all: destruct (PyStrFacts.find_from_bound formula "(" 0);
      unfold PyStr.find in *; lia. }
  assert (forall type,
            agree_turn (_parse_quantifier signature rec1 formula type)
                       (_parse_quantifier signature rec2 formula type))
    as Hquantifier.
  { intros type'. unfold _parse_quantifier.
    repeat case_match; auto with agree.
    all: constructor; apply agree_bind; [|intros; case_match; auto with agree].
    all: apply Hfrom.
    all: destruct (PyStrFacts.find_from_bound formula ":" 0);
      unfold PyStr.find in *; lia. }
  destruct type; cbn [_parse_type]; auto; try (apply Hjunctor; set_solver).
  - (* NEGATION *)
    unfold _parse_negation.
    destruct (symbol_length NEGATION) as (sym & -> & Hlen); [set_solver|].
    destruct (PyStr.startswith formula sym); [|constructor]. constructor.
    apply agree_bind; [by apply Hfrom|intros; case_match; auto with agree].
  - (* VARIABLE *)
    case_match; auto with agree.
  - (* CONSTANT *)
    case_match; auto with agree.
  - (* BRACKET *)
    unfold _parse_bracket.
    repeat case_match; auto with agree.
    all: constructor.
    all: apply agree_bind; [by apply Hfrom|intros; case_match; auto with agree].
Qed.

Lemma _parse_loop_agree rec1 rec2 formula types :
  formula <> EmptyString ->
  (forall sub, shorter formula sub -> agree (rec1 sub) (rec2 sub)) ->
  agree (_parse_loop signature junctorSymbols rec1 formula types)
        (_parse_loop signature junctorSymbols rec2 formula types).
Proof.
  intros Hne Hrec. induction types as [|type rest IH]; cbn [_parse_loop].
  - auto with agree.
  - destruct (_parse_type_agree rec1 rec2 formula type Hne Hrec); done.
Qed.

Lemma _parse_agree n m formula :
  String.length formula < n -> String.length formula < m ->
  agree (_parse signature precedence junctorSymbols n formula)
        (_parse signature precedence junctorSymbols m formula).
Proof.
  revert m formula; induction n as [|n IH]; intros m formula Hn Hm; [lia|].
  destruct m as [|m]; [lia|]. cbn [_parse].
  pose proof (PyStrFacts.length_strip formula) as Hstrip.
  destruct (String.eqb_spec (PyStr.strip formula) "") as [|Hne];
    [auto with agree|].
  apply _parse_loop_agree; [done|].
  intros sub Hsub. unfold shorter in Hsub. apply IH; lia.
Qed.

(** With fuel above the length of the text, [_parse] returns or raises
    a [ParseError], and more fuel changes nothing. *)
Lemma _parse_fuel_enough n formula :
  String.length formula < n ->
  ended (_parse signature precedence junctorSymbols n formula) /\
  _parse signature precedence junctorSymbols n formula =
  _parse signature precedence junctorSymbols (S (String.length formula)) formula.
Proof.
  intros Hn.
  destruct (_parse_agree n (S (String.length formula)) formula) as [-> ?]; [lia..|done].
Qed.
End ParseFuel.

Lemma standard_symbols_complete : complete_symbols _STANDARD_JUNCTOR_SYMBOLS.
Proof.
  intros type Hin. repeat (apply elem_of_cons in Hin as [->|Hin]); eauto.
  by apply elem_of_nil in Hin.
Qed.

(** [parse] with the default precedence and symbols returns or raises a
    [ParseError]. *)
Lemma parse_default_ended formula signature onlyFormulas :
  ended (parse_default formula signature onlyFormulas).
Proof.
  unfold parse_default, parse.
  destruct (_parse_fuel_enough signature _STANDARD_PRECEDENCE
              _STANDARD_JUNCTOR_SYMBOLS standard_symbols_complete
              (S (String.length formula)) formula) as [He _]; [lia|].
  destruct (_parse _ _ _ _ _) as [t| |]; try done. cbn.
  by destruct (onlyFormulas && negb (isFormula t)).
Qed.

(** ** Interpretations *)

Section InterpretationFacts.
Context `{PyRuntime}.

Lemma lookup_dict_update (d substitution : gmap string Obj) k :
  dict_update d substitution !! k =
  match substitution !! k with Some v => Some v | None => d !! k end.
Proof.
  unfold dict_update. rewrite lookup_union.
  destruct (substitution !! k), (d !! k); done.
Qed.

Lemma alloc_fresh (h : Store.store) c : h !! (Store.alloc h c).2 = None.
Proof. apply not_elem_of_dom, is_fresh. Qed.

Lemma alloc_subseteq (h : Store.store) c : h ⊆ (Store.alloc h c).1.
Proof. apply insert_subseteq, (alloc_fresh h c). Qed.

Lemma alloc_lookup (h : Store.store) c :
  (Store.alloc h c).1 !! (Store.alloc h c).2 = Some c.
Proof. apply lookup_insert_eq. Qed.

Lemma read_dict_weaken (h h' : Store.store) r d :
  Store.read_dict h r = Some d -> h ⊆ h' -> Store.read_dict h' r = Some d.
Proof.
  unfold Store.read_dict. intros Hr Hsub.
  destruct (h !! r) as [c|] eqn:Hc; [|done].
  by rewrite (lookup_weaken _ _ _ _ Hc Hsub).
Qed.

Lemma snapshot_weaken (h h' : Store.store) r i :
  Store.snapshot h r = Some i -> h ⊆ h' -> Store.snapshot h' r = Some i.
Proof.
  unfold Store.snapshot. intros Hs Hsub.
  destruct (h !! r) as [[| |st va da]|] eqn:Hr; try done.
  rewrite (lookup_weaken _ _ _ _ Hr Hsub).
  destruct (h !! st) as [[|sg m|]|] eqn:Hst; try done.
  rewrite (lookup_weaken _ _ _ _ Hst Hsub).
  destruct (Store.read_dict h m) as [d_m|] eqn:Hm; [|done].
  destruct (Store.read_dict h va) as [d_va|] eqn:Hva; [|done].
  destruct (Store.read_dict h da) as [d_da|] eqn:Hda; [|done].
  rewrite (read_dict_weaken _ _ _ _ Hm Hsub), (read_dict_weaken _ _ _ _ Hva Hsub),
    (read_dict_weaken _ _ _ _ Hda Hsub). done.
Qed.

(** What [__init__] keeps of a dict argument: the dict itself, or a
    new empty dict when the argument is empty. *)
Lemma keep_dict (h : Store.store) r d :
  Store.read_dict h r = Some d ->
  let kept := if Store.truthy h (Some r) then (h, r) else Store.alloc h (Store.Dict ∅) in
  h ⊆ kept.1 /\ Store.read_dict kept.1 kept.2 = Some d.
Proof.
  intros Hr. unfold Store.truthy. unfold Store.read_dict in Hr.
  destruct (h !! r) as [[d'| |]|] eqn:Hc; try done. injection Hr as ->.
  destruct (bool_decide_reflect (d = ∅)) as [->|Hne]; cbn [negb].
  - split; [apply alloc_subseteq|].
    unfold Store.read_dict. by rewrite alloc_lookup.
  - cbn [fst snd]. split; [done|]. unfold Store.read_dict. by rewrite Hc.
Qed.

Lemma Interpretation_init_spec (h : Store.store) st va da sg m d_m d_va d_da :
  h !! st = Some (Store.StructureObj sg m) ->
  Store.read_dict h m = Some d_m ->
  Store.read_dict h va = Some d_va ->
  Store.read_dict h da = Some d_da ->
  let made := Store.Interpretation_init h st (Some va) (Some da) in
  h ⊆ made.1 /\ h !! made.2 = None /\
  Store.snapshot made.1 made.2 =
    Some (mkInterpretation (mkStructure sg d_m) d_va d_da) /\
  Store.structure_ref made.1 made.2 = Some st.
Proof.
  intros Hst Hm Hva Hda. unfold Store.Interpretation_init.
  destruct (keep_dict h va d_va Hva) as [Hsub1 Hva1].
  destruct (if Store.truthy h (Some va) then (h, va)
            else Store.alloc h (Store.Dict ∅)) as [h1 va1]; cbn [fst snd] in *.
  assert (Store.read_dict h1 da = Some d_da) as Hda1
    by eauto using read_dict_weaken.
  destruct (keep_dict h1 da d_da Hda1) as [Hsub2 Hda2].
  destruct (if Store.truthy h1 (Some da) then (h1, da)
            else Store.alloc h1 (Store.Dict ∅)) as [h2 da2]; cbn [fst snd] in *.
  set (obj := Store.InterpretationObj st va1 da2).
  pose proof (alloc_subseteq h2 obj) as Hsub3.
  pose proof (alloc_fresh h2 obj) as Hfresh.
  pose proof (alloc_lookup h2 obj) as Hnew.
  assert (h ⊆ (Store.alloc h2 obj).1) as Hsub
    by (etrans; [exact Hsub1|]; etrans; [exact Hsub2|exact Hsub3]).
  split; [done|]. split.
  { destruct (h !! (Store.alloc h2 obj).2) as [c|] eqn:Hc; [|done].
    assert (h ⊆ h2) as Hh2 by (etrans; [exact Hsub1|exact Hsub2]).
    rewrite (lookup_weaken _ _ _ _ Hc Hh2) in Hfresh. done. }
  subst obj. unfold Store.snapshot, Store.structure_ref. rewrite Hnew.
  rewrite (lookup_weaken _ _ _ _ Hst Hsub).
  rewrite (read_dict_weaken h _ _ _ Hm Hsub).
  rewrite (read_dict_weaken h1 _ _ _ Hva1)
    by (etrans; [exact Hsub2|exact Hsub3]).
  rewrite (read_dict_weaken h2 _ _ _ Hda2) by done.
  done.
Qed.
End InterpretationFacts.

Section QuantifierFacts.
Context `{PyRuntime}.

Lemma for_each_Return {A B} (body : A -> outcome B) xs rs :
  for_each body xs = Return rs -> Forall2 (fun x r => body x = Return r) xs rs.
Proof.
  revert rs; induction xs as [|x xs IH]; intros rs; cbn [for_each].
  - intros [= <-]. constructor.
  - destruct (body x) as [r| |] eqn:Hx; try done. cbn.
    destruct (for_each body xs) as [rs'| |]; try done. cbn.
    intros [= <-]. constructor; [done|by apply IH].
Qed.

Lemma interpret_table (self : Interpretation) (symbol : string) :
  interpret self symbol =
  match mappings (structure self) !! symbol with
  | Some v => Return v
  | None =>
      match variableAssignment self !! symbol with
      | Some v => Return v
      | None =>
          match domainAssignment self !! symbol with
          | Some v => Return v
          | None => Raise (NotInterpretable symbol)
          end
      end
  end.
Proof.
  unfold interpret, Structure_contains, Structure_call, dict_contains, dict_get.
  repeat case_match; congruence.
Qed.
End QuantifierFacts.

(** C4. [interpret] looks the symbol up in the structure, then in the
    variable assignment, then in the domain assignment; the first of
    the three that has the symbol gives its value, and when none has it
    the call raises the error that the symbol is not interpretable. *)
Theorem interpret_first_match `{PyRuntime} (self : Interpretation) (symbol : string) :
  interpret self symbol =
  match mappings (structure self) !! symbol with
  | Some v => Return v
  | None =>
      match variableAssignment self !! symbol with
      | Some v => Return v
      | None =>
          match domainAssignment self !! symbol with
          | Some v => Return v
          | None => Raise (NotInterpretable symbol)
          end
      end
  end.
Proof. apply interpret_table. Qed.

(** C5. [extend] on an interpretation object and a substitution returns
    a new object; its structure is the same object as before, its
    domain assignment has the same entries, its variable assignment is
    the old one overlaid by the substitution; every object that was in
    the store, the receiver and its three attributes among them, is as
    it was. *)
Theorem extend_copy_on_write `{PyRuntime} (h : Store.store)
    (self substitution : Store.ref) (i : Interpretation)
    (d_sub : gmap string Obj) :
  Store.snapshot h self = Some i ->
  Store.read_dict h substitution = Some d_sub ->
  exists h' new i',
    Store.extend h self substitution = Return (h', new) /\
    h !! new = None /\
    Store.snapshot h' new = Some i' /\
    i' = extend i d_sub /\
    structure i' = structure i /\
    domainAssignment i' = domainAssignment i /\
    (forall k, variableAssignment i' !! k =
               match d_sub !! k with
               | Some v => Some v
               | None => variableAssignment i !! k
               end) /\
    Store.structure_ref h' new = Store.structure_ref h self /\
    (forall r c, h !! r = Some c -> h' !! r = Some c) /\
    Store.snapshot h' self = Some i.
Proof.
  intros Hsnap Hsub. pose proof Hsnap as Hself.
  unfold Store.snapshot in Hself.
  destruct (h !! self) as [[| |st va da]|] eqn:Hobj; try done.
  destruct (h !! st) as [[|sg m|]|] eqn:Hst; try done.
  destruct (Store.read_dict h m) as [d_m|] eqn:Hm; [|done].
  destruct (Store.read_dict h va) as [d_va|] eqn:Hva; [|done].
  destruct (Store.read_dict h da) as [d_da|] eqn:Hda; [|done].
  cbn in Hself. injection Hself as <-.
  unfold Store.extend. rewrite Hobj.
  unfold Store.read_dict in Hva, Hsub.
  destruct (h !! va) as [[d|?|?]|] eqn:Hva'; try done. injection Hva as ->.
  destruct (h !! substitution) as [[d|?|?]|] eqn:Hsub'; try done.
  injection Hsub as ->.
  unfold Store.alloc. set (l := fresh (dom h)).
  assert (h !! l = None) as Hl by apply not_elem_of_dom, is_fresh.
  rewrite insert_insert_eq.
  set (h1 := <[l := Store.Dict (dict_update d_va d_sub)]> h).
  assert (h ⊆ h1) as Hh1 by by apply insert_subseteq.
  destruct (Interpretation_init_spec h1 st l da sg m d_m (dict_update d_va d_sub) d_da)
    as (Hsub1 & Hnew & Hsnap' & Href).
  { by apply (lookup_weaken h). }
  { by apply (read_dict_weaken h). }
  { unfold Store.read_dict, h1. by rewrite lookup_insert_eq. }
  { by apply (read_dict_weaken h). }
  destruct (Store.Interpretation_init h1 st (Some l) (Some da)) as [h' new].
  cbn [fst snd] in *.
  assert (h ⊆ h') as Hh' by (etrans; [exact Hh1|exact Hsub1]).
  exists h', new, (extend (mkInterpretation (mkStructure sg d_m) d_va d_da) d_sub).
  split; [done|]. split.
  { destruct (h !! new) as [c|] eqn:Hc; [|done].
    by rewrite (lookup_weaken _ _ _ _ Hc Hh1) in Hnew. }
  split; [done|]. split; [done|]. split; [done|]. split; [done|]. split.
  { intros k. apply lookup_dict_update. }
  split.
  { rewrite Href. unfold Store.structure_ref. by rewrite Hobj. }
  split.
  { intros r c Hr. by apply (lookup_weaken h). }
  by apply (snapshot_weaken h).
Qed.

Lemma extend_copy_on_write_witness :
  let i := mkInterpretation (mkStructure Example.no_signature ∅)
             {[ "x"%string := Example.Tensor [1%Z] ]}
             {[ "D"%string := Example.Tensor [1%Z; 2%Z] ]} in
  let d_sub : gmap string (@Obj Example.runtime) :=
    {[ "x"%string := Example.Tensor [2%Z]; "y"%string := Example.Tensor [3%Z] ]} in
  @Store.snapshot Example.runtime Example.objects 4 = Some i /\
  @Store.read_dict Example.runtime Example.objects 5 = Some d_sub /\
  exists h' new i',
    @Store.extend Example.runtime Example.objects 4 5 = Return (h', new) /\
    Example.objects !! new = None /\
    Store.snapshot h' new = Some i' /\
    i' = extend i d_sub /\
    structure i' = structure i /\
    domainAssignment i' = domainAssignment i /\
    (forall k, variableAssignment i' !! k =
               match d_sub !! k with
               | Some v => Some v
               | None => variableAssignment i !! k
               end) /\
    Store.structure_ref h' new = Store.structure_ref Example.objects 4 /\
    (forall r c, Example.objects !! r = Some c -> h' !! r = Some c) /\
    Store.snapshot h' 4 = Some i.
Proof.
  intros i d_sub.
  assert (@Store.snapshot Example.runtime Example.objects 4 = Some i) as H1
    by (vm_compute; reflexivity).
  assert (@Store.read_dict Example.runtime Example.objects 5 = Some d_sub) as H2
    by (vm_compute; reflexivity).
  split; [exact H1|]. split; [exact H2|].
  exact (@extend_copy_on_write Example.runtime Example.objects 4 5 i d_sub H1 H2).
Defined.

(** C1 as stated fails: the domain assignment binds [D] to a batch of
    two values, but [D] is also a variable, so the quantifier ranges
    over the one value of the variable. *)
Lemma quantifier_domain_shadowed :
  domainAssignment Example.shadowed !! "D"%string
    = Some (Example.Tensor [1%Z; 2%Z]) /\
  @shape0 Example.runtime (Example.Tensor [1%Z; 2%Z]) = Return 2 /\
  @evaluate Example.runtime Example.forall_x_D Example.shadowed Example.plain
    = Return (Example.Tensor [7%Z]) /\
  @quantifier_value Example.runtime UNIVERSAL
     (Node (Sym "x") VARIABLE [] Example.no_signature) "x"
     Example.shadowed Example.plain (Example.Tensor [1%Z; 2%Z]) 2
    = Return (Example.Tensor [1%Z; 2%Z]) /\
  @evaluate Example.runtime Example.forall_x_D Example.shadowed Example.plain
    <> @quantifier_value Example.runtime UNIVERSAL
         (Node (Sym "x") VARIABLE [] Example.no_signature) "x"
         Example.shadowed Example.plain (Example.Tensor [1%Z; 2%Z]) 2.
Proof.
  assert (@evaluate Example.runtime Example.forall_x_D Example.shadowed Example.plain
          = Return (Example.Tensor [7%Z])) as E1 by (vm_compute; reflexivity).
  assert (@quantifier_value Example.runtime UNIVERSAL
            (Node (Sym "x") VARIABLE [] Example.no_signature) "x"
            Example.shadowed Example.plain (Example.Tensor [1%Z; 2%Z]) 2
          = Return (Example.Tensor [1%Z; 2%Z])) as E2 by (vm_compute; reflexivity).
  split; [vm_compute; reflexivity|]. split; [reflexivity|].
  split; [exact E1|]. split; [exact E2|].
  rewrite E1, E2. discriminate.
Qed.

(** C1 (amended). For a Universal or Existential node with one child,
    under an interpretation in which neither the structure nor the
    variable assignment has the domain symbol and the domain assignment
    binds it to a batch of [N] values: [evaluate] evaluates the child
    once per element of the batch, in the order of the batch, each time
    under the interpretation extended by the quantified variable bound
    to that one element; the [N] results, in that order, are
    concatenated and the batch is reduced by the universal or
    existential aggregator of the operator set. *)
Theorem evaluate_quantifier `{PyRuntime} (type : NodeType) (x D : string)
    (child : ParseTree) (sg : Signature) (interpretation : Interpretation)
    (junctors : OperatorSet) (domain : Obj) (N : nat) :
  is_quantifier type = true ->
  mappings (structure interpretation) !! D = None ->
  variableAssignment interpretation !! D = None ->
  domainAssignment interpretation !! D = Some domain ->
  shape0 domain = Return N ->
  evaluate (Node (Quant x D) type [child] sg) interpretation junctors
    = quantifier_value type child x interpretation junctors domain N /\
  forall results,
    grounding child x interpretation junctors domain N = Return results ->
    length results = N /\
    Forall2 (fun i r =>
               exists v, getslice domain i (i + 1) = Return v /\
                         evaluate child (extend interpretation {[ x := v ]}) junctors
                         = Return r)
            (seq 0 N) results.
Proof.
  intros Hq Hs Hv Hd HN. split.
  - unfold quantifier_value, grounding.
    destruct type; try done; cbn [evaluate value_index];
      cbn; rewrite interpret_table, Hs, Hv, Hd; cbn; rewrite HN; done.
  - intros results Hres. unfold grounding in Hres.
    apply for_each_Return in Hres.
    split.
    { apply Forall2_length in Hres. rewrite length_seq in Hres. done. }
    eapply Forall2_impl; [exact Hres|]. intros i r Hi. cbn beta in Hi.
    destruct (getslice domain i (i + 1)) as [v| |] eqn:Hslice; try done.
    exists v. done.
Qed.

Lemma evaluate_quantifier_witness :
  let interpretation : @Interpretation Example.runtime :=
    mkInterpretation (mkStructure Example.no_signature ∅) ∅
      {[ "D"%string := Example.Tensor [1%Z; 2%Z] ]} in
  let child := Node (Sym "x") VARIABLE [] Example.no_signature in
  (is_quantifier UNIVERSAL = true /\
   mappings (structure interpretation) !! "D"%string = None /\
   variableAssignment interpretation !! "D"%string = None /\
   domainAssignment interpretation !! "D"%string
     = Some (Example.Tensor [1%Z; 2%Z]) /\
   @shape0 Example.runtime (Example.Tensor [1%Z; 2%Z]) = Return 2) /\
  @evaluate Example.runtime Example.forall_x_D interpretation Example.plain
    = @quantifier_value Example.runtime UNIVERSAL child "x" interpretation
        Example.plain (Example.Tensor [1%Z; 2%Z]) 2 /\
  forall results,
    @grounding Example.runtime child "x" interpretation Example.plain
       (Example.Tensor [1%Z; 2%Z]) 2 = Return results ->
    length results = 2 /\
    Forall2 (fun i r =>
               exists v, @getslice Example.runtime (Example.Tensor [1%Z; 2%Z]) i (i + 1)
                         = Return v /\
                         @evaluate Example.runtime child
                           (extend interpretation {[ "x"%string := v ]}) Example.plain
                         = Return r)
            (seq 0 2) results.
Proof.
  intros interpretation child.
  assert (is_quantifier UNIVERSAL = true) as H1 by reflexivity.
  assert (mappings (structure interpretation) !! "D"%string = None) as H2
    by reflexivity.
  assert (variableAssignment interpretation !! "D"%string = None) as H3
    by reflexivity.
  assert (domainAssignment interpretation !! "D"%string
          = Some (Example.Tensor [1%Z; 2%Z])) as H4 by (vm_compute; reflexivity).
  assert (@shape0 Example.runtime (Example.Tensor [1%Z; 2%Z]) = Return 2) as H5
    by reflexivity.
  split; [by repeat split|].
  exact (@evaluate_quantifier Example.runtime UNIVERSAL "x" "D" child
           Example.no_signature interpretation Example.plain
           (Example.Tensor [1%Z; 2%Z]) 2 H1 H2 H3 H4 H5).
Defined.

(** C2 as stated fails: whatever the standard product set is, there is
    an operator set for which the call without aggregator differs from
    the call with that operator set's universal aggregator. *)
Lemma evaluateKB_default_ignores_junctors :
  ~ exists F : @Fuzzyops Example.runtime,
      forall junctors : @OperatorSet Example.runtime,
        @evaluateKB Example.runtime F Example.P_kb Example.P_interpretation
           junctors None
        = @evaluateKB Example.runtime F Example.P_kb Example.P_interpretation
             junctors (Some (universal junctors)).
Proof.
  intros [F HF].
  pose proof (HF (Example.constant_universal 0)) as H0.
  pose proof (HF (Example.constant_universal 1)) as H1.
  assert (forall z, @evaluateKB Example.runtime F Example.P_kb Example.P_interpretation
            (Example.constant_universal z) None
          = @universal Example.runtime (@standardProductSet _ F)
              (Example.Tensor [1%Z])) as Hdefault.
  { intros z. vm_compute. reflexivity. }
  rewrite Hdefault in H0, H1. rewrite H0 in H1.
  vm_compute in H1. discriminate.
Qed.

(** C2 (amended). [evaluateKB] evaluates the formulas of the knowledge
    base in their stored order into one value each, concatenates the
    values into one batch and applies the aggregator to it; when the
    aggregator is left out it is the universal aggregator of the
    standard product set, whatever operator set is passed. *)
Theorem evaluateKB_aggregates `{PyRuntime} `{!Fuzzyops}
    (knowledgeBase : KnowledgeBase) (interpretation : Interpretation)
    (junctors : OperatorSet) (aggregator : Obj -> outcome Obj) :
  evaluateKB knowledgeBase interpretation junctors (Some aggregator)
    = (results ← for_each (fun pt => evaluate pt interpretation junctors)
                          (parseTrees knowledgeBase);
       batch ← tf_concat results;
       aggregator batch) /\
  (forall results,
     for_each (fun pt => evaluate pt interpretation junctors)
              (parseTrees knowledgeBase) = Return results ->
     Forall2 (fun pt v => evaluate pt interpretation junctors = Return v)
             (parseTrees knowledgeBase) results) /\
  evaluateKB knowledgeBase interpretation junctors None
    = evaluateKB knowledgeBase interpretation junctors
        (Some (universal standardProductSet)).
Proof.
  split; [reflexivity|]. split; [|reflexivity].
  intros results Hres. by apply for_each_Return in Hres.
Qed.

(** ** Names and the scanning functions *)

Lemma app_cons c (a b : string) : String c a +:+ b = String c (a +:+ b).
Proof. reflexivity. Qed.

Lemma app_nil (b : string) : "" +:+ b = b.
Proof. reflexivity. Qed.

Lemma length_app (a b : string) :
  String.length (a +:+ b) = String.length a + String.length b.
Proof.
  induction a as [|c a IH]; [done|]. rewrite app_cons. simpl. by rewrite IH.
Qed.

Lemma str_drop_app (a b : string) :
  PyStr.str_drop (String.length a) (a +:+ b) = b.
Proof. induction a as [|c a IH]; [by destruct b|]. by rewrite app_cons. Qed.

Lemma str_take_app (a b : string) :
  PyStr.str_take (String.length a) (a +:+ b) = a.
Proof.
  induction a as [|c a IH]; [by destruct b|]. rewrite app_cons. simpl.
  by rewrite IH.
Qed.

Lemma str_take_all (a : string) : PyStr.str_take (String.length a) a = a.
Proof. induction a as [|c a IH]; simpl; [done|by rewrite IH]. Qed.

Lemma app_empty_r (a : string) : a +:+ "" = a.
Proof. induction a as [|c a IH]; [done|]. by rewrite app_cons, IH. Qed.

Lemma app_assoc' (a b c : string) : (a +:+ b) +:+ c = a +:+ (b +:+ c).
Proof. induction a as [|x a IH]; [done|]. by rewrite !app_cons, IH. Qed.

Lemma all_chars_app p (a b : string) :
  PyStr.all_chars p (a +:+ b) = PyStr.all_chars p a && PyStr.all_chars p b.
Proof.
  induction a as [|c a IH]; [done|]. rewrite app_cons. simpl.
  by rewrite IH, andb_assoc.
Qed.

Lemma app_nonempty_r (a b : string) : b <> EmptyString -> a +:+ b <> EmptyString.
Proof. destruct a; [done|]. by rewrite app_cons. Qed.

Lemma last_app (a b : string) :
  b <> EmptyString -> PyStr.last (a +:+ b) = PyStr.last b.
Proof.
  intros Hb. induction a as [|c a IH]; [done|].
  rewrite app_cons. cbn [PyStr.last]. rewrite IH.
  destruct (a +:+ b) eqn:E; [|done]. by destruct a, b.
Qed.

Lemma lstrip_id (s : string) c :
  PyStr.first s = Some c -> PyStr.isspace c = false -> PyStr.lstrip s = s.
Proof. destruct s; simpl; [done|]. by intros [= ->] ->. Qed.

Lemma rstrip_id (s : string) c :
  PyStr.last s = Some c -> PyStr.isspace c = false -> PyStr.rstrip s = s.
Proof.
  induction s as [|x s IH]; [done|]. cbn [PyStr.last PyStr.rstrip].
  destruct s as [|y s].
  - intros [= ->] ->. done.
  - intros Hl Hc. by rewrite (IH Hl Hc).
Qed.

Lemma strip_id (s : string) c c' :
  PyStr.first s = Some c -> PyStr.isspace c = false ->
  PyStr.last s = Some c' -> PyStr.isspace c' = false ->
  PyStr.strip s = s.
Proof.
  intros. unfold PyStr.strip. erewrite lstrip_id by done. by eapply rstrip_id.
Qed.

(** What a character that is not reserved is not. *)
Lemma not_reserved c :
  negb (reserved c) = true ->
  PyStr.isspace c = false /\ Ascii.eqb c "(" = false /\ Ascii.eqb c ")" = false /\
  forall k, reserved k = true -> Ascii.eqb c k = false.
Proof.
  intros Hc. apply negb_true_iff in Hc. pose proof Hc as Hr. unfold reserved in Hc.
  repeat (apply orb_false_elim in Hc as [Hc ?]).
  repeat split; try done.
  { unfold PyStr.isspace. by repeat (apply orb_false_intro; [|done]). }
  intros k Hk. destruct (Ascii.eqb_spec c k) as [->|]; congruence.
Qed.

Lemma alnum_not_reserved c : PyStr.isalnum c = true -> negb (reserved c) = true.
Proof.
  destruct c as [[] [] [] [] [] [] [] []]; vm_compute; done.
Qed.

Lemma all_chars_impl (p q : ascii -> bool) s :
  (forall c, p c = true -> q c = true) ->
  PyStr.all_chars p s = true -> PyStr.all_chars q s = true.
Proof.
  intros Hpq. induction s as [|c s IH]; simpl; [done|].
  intros [Hc Hs]%andb_true_iff. by rewrite (Hpq _ Hc), IH.
Qed.

Lemma token_bare s : token s -> bare s.
Proof.
  intros [(c & Hc & _) Hall]. split; [by destruct s|].
  eapply all_chars_impl; [|done]. apply alnum_not_reserved.
Qed.

Lemma bare_first s : bare s ->
  exists c, PyStr.first s = Some c /\ negb (reserved c) = true.
Proof.
  intros [Hne Hall]. destruct s as [|c s]; [done|]. exists c.
  simpl in Hall. apply andb_true_iff in Hall as [? _]. done.
Qed.

Lemma bare_last s : bare s ->
  exists c, PyStr.last s = Some c /\ negb (reserved c) = true.
Proof.
  intros [Hne Hall]. induction s as [|c s IH]; [done|].
  simpl in Hall. apply andb_true_iff in Hall as [Hc Hs].
  destruct s as [|y s]; [by exists c|].
  destruct IH as (c' & Hl & Hc'); [done|done|]. by exists c'.
Qed.

Lemma bare_strip s : bare s -> PyStr.strip s = s.
Proof.
  intros Hs. destruct (bare_first s Hs) as (c & Hf & Hc).
  destruct (bare_last s Hs) as (c' & Hl & Hc').
  apply not_reserved in Hc as [? _], Hc' as [? _]. by eapply strip_id.
Qed.

(** Scanning over a text free of reserved characters finds nothing and
    leaves the depth at 0. *)
Lemma _findTopLevel_loop_bare (P rest : string) k key' i :
  PyStr.all_chars (fun c => negb (reserved c)) P = true ->
  reserved k = true ->
  _findTopLevel_loop (P +:+ rest) (String k key') i 0
  = _findTopLevel_loop rest (String k key') (i + Z.of_nat (String.length P)) 0.
Proof.
  intros HP Hk. revert i; induction P as [|c P IH]; intros i.
  - rewrite app_nil. simpl. f_equal. lia.
  - simpl in HP. apply andb_true_iff in HP as [Hc HP].
    apply not_reserved in Hc as (_ & Hopen & Hclose & Hother).
    rewrite app_cons.
    cbn [_findTopLevel_loop PyStr.startswith String.length].
    rewrite Hopen, Hclose, (Hother k Hk). cbn [andb].
    rewrite IH by done. f_equal. lia.
Qed.

Lemma find_from_bare (P rest : string) k key' i :
  PyStr.all_chars (fun c => negb (reserved c)) P = true ->
  reserved k = true ->
  PyStr.find_from (P +:+ rest) (String k key') i
  = PyStr.find_from rest (String k key') (i + Z.of_nat (String.length P)).
Proof.
  intros HP Hk. revert i; induction P as [|c P IH]; intros i.
  - rewrite app_nil. f_equal. simpl. lia.
  - simpl in HP. apply andb_true_iff in HP as [Hc HP].
    apply not_reserved in Hc as (_ & _ & _ & Hother).
    rewrite app_cons.
    cbn [PyStr.find_from PyStr.startswith String.length].
    rewrite (Hother k Hk). cbn [andb].
    rewrite IH by done. f_equal. lia.
Qed.

(** Inside the brackets of an application nothing is at depth 0. *)
Lemma _findTopLevel_loop_unclosed (s : string) k key' d i :
  unclosed_from s d = true ->
  Ascii.eqb ")" k = false ->
  _findTopLevel_loop (s +:+ ")") (String k key') i (Z.of_nat (S d)) = (-1)%Z.
Proof.
  intros Hs Hk. revert d i Hs; induction s as [|c s IH]; intros d i Hs.
  - rewrite app_nil. cbn [_findTopLevel_loop PyStr.startswith].
    rewrite Hk. cbn. done.
  - rewrite app_cons. cbn [_findTopLevel_loop unclosed_from] in *.
    destruct (Ascii.eqb_spec c "(") as [->|Hopen].
    + cbn [Ascii.eqb Bool.eqb]. cbn [andb].
      destruct (Z.eqb_spec (Z.of_nat (S d)) 0) as [|_]; [lia|].
      rewrite andb_false_r.
      replace (Z.of_nat (S d) + 1)%Z with (Z.of_nat (S (S d))) by lia.
      by apply IH.
    + destruct (Ascii.eqb_spec c ")") as [->|Hclose].
      * destruct d as [|d]; [done|].
        replace (Z.max 0 (Z.of_nat (S (S d)) - 1)) with (Z.of_nat (S d)) by lia.
        destruct (Z.eqb_spec (Z.of_nat (S d)) 0) as [|_]; [lia|].
        rewrite andb_false_r. by apply IH.
      * destruct (Z.eqb_spec (Z.of_nat (S d)) 0) as [|_]; [lia|].
        rewrite andb_false_r. by apply IH.
Qed.

(** ** The variable syntax check *)

Lemma span_le p s : PyStr.span p s <= String.length s.
Proof. induction s as [|c s IH]; simpl; [lia|]. destruct (p c); lia. Qed.

Lemma span_all p s : PyStr.all_chars p s = true -> PyStr.span p s = String.length s.
Proof.
  induction s as [|c s IH]; simpl; [done|].
  intros [-> Hs]%andb_true_iff. by rewrite IH.
Qed.

Lemma span_length_all p s :
  PyStr.span p s = String.length s -> PyStr.all_chars p s = true.
Proof.
  induction s as [|c s IH]; simpl; [done|].
  destruct (p c); [|done]. intros [= Hs]. by rewrite IH.
Qed.

Lemma all_chars_drop p n s :
  PyStr.all_chars p s = true -> PyStr.all_chars p (PyStr.str_drop n s) = true.
Proof.
  revert s; induction n as [|n IH]; intros [|c s]; simpl; try done.
  intros [_ Hs]%andb_true_iff. by apply IH.
Qed.

Lemma alpha_alnum c : PyStr.isalpha c = true -> PyStr.isalnum c = true.
Proof. unfold PyStr.isalnum. by intros ->. Qed.

(** On a token the pattern matches at the start and to the end. *)
Lemma re_search_token s : token s -> re_search s = Some (0, String.length s).
Proof.
  intros [(c & Hc & Halpha) Hall]. unfold re_search.
  destruct s as [|x s]; [done|]. injection Hc as ->.
  cbn [re_search_from]. unfold re_match_here.
  set (letters := PyStr.span PyStr.isalpha (String c s)).
  assert (1 <= letters <= String.length (String c s)) as Hl.
  { split; [|apply span_le]. unfold letters. simpl. rewrite Halpha. lia. }
  destruct (Nat.eqb_spec letters 0) as [|_]; [lia|].
  rewrite (span_all PyStr.isalnum) by by apply all_chars_drop.
  rewrite PyStrFacts.length_str_drop. do 2 f_equal. lia.
Qed.

Lemma re_search_from_start s i b e :
  re_search_from s i = Some (b, e) ->
  i <= b /\ (b = i -> re_match_here s = Some (e - i)).
Proof.
  revert i; induction s as [|c s IH]; intros i; cbn [re_search_from].
  - destruct (re_match_here "") as [m|]; [|done].
    intros [= <- <-]. split; [lia|]. intros _. f_equal. lia.
  - destruct (re_match_here (String c s)) as [m|].
    + intros [= <- <-]. split; [lia|]. intros _. f_equal. lia.
    + intros Hs. apply IH in Hs as [Hle _]. split; lia.
Qed.

Lemma re_match_whole s :
  re_match_here s = Some (String.length s) ->
  PyStr.all_chars PyStr.isalnum s = true.
Proof.
  unfold re_match_here. destruct (_ =? 0); [done|]. intros [= Hlen].
  induction s as [|c s IH]; [done|]. cbn [PyStr.span] in Hlen.
  cbn [PyStr.all_chars]. destruct (PyStr.isalpha c) eqn:Hc.
  - rewrite (alpha_alnum _ Hc). cbn [andb]. apply IH.
    cbn [PyStr.str_drop String.length] in Hlen. lia.
  - cbn [PyStr.str_drop Nat.add] in Hlen.
    by apply span_length_all in Hlen.
Qed.

(** What passes the check is made of letters and digits and is not a
    symbol of the signature. *)
Lemma _varSyntaxCheck_true variable signature :
  _varSyntaxCheck variable signature = true ->
  PyStr.all_chars PyStr.isalnum variable = true /\
  Signature_contains signature variable = false.
Proof.
  unfold _varSyntaxCheck. destruct (re_search variable) as [[b e]|] eqn:Hs; [|done].
  intros [[Hb He]%andb_true_iff Hc]%andb_true_iff.
  apply Nat.eqb_eq in Hb as ->, He as ->. apply negb_true_iff in Hc.
  split; [|done]. apply re_search_from_start in Hs as [_ Hs].
  apply re_match_whole. rewrite Hs by done. f_equal. lia.
Qed.

Lemma _varSyntaxCheck_token variable signature :
  token variable ->
  _varSyntaxCheck variable signature = negb (Signature_contains signature variable).
Proof.
  intros Ht. unfold _varSyntaxCheck. rewrite (re_search_token _ Ht).
  by rewrite !Nat.eqb_refl.
Qed.

Lemma Signature_contains_False signature symbol :
  Signature_contains signature symbol = false ->
  predicates signature !! symbol = None /\
  functors signature !! symbol = None /\
  symbol ∉ constants signature.
Proof.
  unfold Signature_contains, dict_contains.
  intros [[Hp Hf]%orb_false_elim Hc]%orb_false_elim.
  apply bool_decide_eq_false in Hc.
  destruct (predicates signature !! symbol), (functors signature !! symbol); done.
Qed.

(** ** The parser with the standard precedence and symbols *)

Section StandardParse.
Context (signature : Signature).

Abbreviation std_loop := (_parse_loop signature _STANDARD_JUNCTOR_SYMBOLS).
Abbreviation std_parse :=
  (_parse signature _STANDARD_PRECEDENCE _STANDARD_JUNCTOR_SYMBOLS).

Lemma std_parse_S n formula :
  std_parse (S n) formula =
  let formula := PyStr.strip formula in
  if String.eqb formula "" then Raise (ParseError EmptyFormula)
  else std_loop (std_parse n) formula
         [IMPLICATION; DISJUNCTION; CONJUNCTION; NEGATION; UNIVERSAL;
          EXISTENTIAL; PREDICATE; FUNCTOR; CONSTANT; VARIABLE; BRACKET].
Proof. reflexivity. Qed.

(** The junctors are tried first, implication before disjunction before
    conjunction, and the first one found at depth 0 splits the text. *)
Lemma std_loop_junctors rec formula :
  std_loop rec formula
    [IMPLICATION; DISJUNCTION; CONJUNCTION; NEGATION; UNIVERSAL;
     EXISTENTIAL; PREDICATE; FUNCTOR; CONSTANT; VARIABLE; BRACKET]
  = if negb (_findTopLevel formula "-:" =? -1)%Z then
      _parse_operands signature rec formula IMPLICATION "-:"
                      (_findTopLevel formula "-:")
    else if negb (_findTopLevel formula ";" =? -1)%Z then
      _parse_operands signature rec formula DISJUNCTION ";"
                      (_findTopLevel formula ";")
    else if negb (_findTopLevel formula "," =? -1)%Z then
      _parse_operands signature rec formula CONJUNCTION ","
                      (_findTopLevel formula ",")
    else std_loop rec formula
           [NEGATION; UNIVERSAL; EXISTENTIAL; PREDICATE; FUNCTOR;
            CONSTANT; VARIABLE; BRACKET].
Proof.
  cbn [_parse_loop _parse_type _parse_junctor _STANDARD_JUNCTOR_SYMBOLS].
  destruct (_findTopLevel formula "-:" =? -1)%Z; [|done].
  destruct (_findTopLevel formula ";" =? -1)%Z; [|done].
  destruct (_findTopLevel formula "," =? -1)%Z; done.
Qed.

Lemma negation_skip rec formula type :
  PyStr.startswith formula "!" = false ->
  _parse_negation signature _STANDARD_JUNCTOR_SYMBOLS rec formula type = None.
Proof.
  intros Hneg. unfold _parse_negation. cbn [_STANDARD_JUNCTOR_SYMBOLS].
  by rewrite Hneg.
Qed.

Lemma quantifier_skip rec formula type :
  PyStr.find formula "~" = (-1)%Z ->
  _parse_quantifier signature rec formula type = None.
Proof.
  intros Hq. unfold _parse_quantifier. rewrite Hq, Z.eqb_refl.
  by destruct (_ || _).
Qed.

Lemma application_skip rec formula type :
  PyStr.find formula "(" = (-1)%Z ->
  _parse_application signature rec formula type = None.
Proof. intros Hq. unfold _parse_application. by rewrite Hq, Z.eqb_refl. Qed.

(** A text without junctor at depth 0, without leading [!] and without
    [~] is looked up as an application, a constant, a variable or a
    bracket. *)
Lemma std_loop_atom rec formula :
  _findTopLevel formula "-:" = (-1)%Z ->
  _findTopLevel formula ";" = (-1)%Z ->
  _findTopLevel formula "," = (-1)%Z ->
  PyStr.startswith formula "!" = false ->
  PyStr.find formula "~" = (-1)%Z ->
  std_loop rec formula
    [IMPLICATION; DISJUNCTION; CONJUNCTION; NEGATION; UNIVERSAL;
     EXISTENTIAL; PREDICATE; FUNCTOR; CONSTANT; VARIABLE; BRACKET]
  = std_loop rec formula [PREDICATE; FUNCTOR; CONSTANT; VARIABLE; BRACKET].
Proof.
  intros H1 H2 H3 Hneg Hq. rewrite std_loop_junctors, H1, H2, H3.
  rewrite Z.eqb_refl. cbn [negb _parse_loop _parse_type].
  by rewrite negation_skip, !quantifier_skip.
Qed.

(** A bare name is looked up as a constant, a variable or a bracket. *)
Lemma std_loop_bare rec name :
  bare name ->
  std_loop rec name
    [IMPLICATION; DISJUNCTION; CONJUNCTION; NEGATION; UNIVERSAL;
     EXISTENTIAL; PREDICATE; FUNCTOR; CONSTANT; VARIABLE; BRACKET]
  = std_loop rec name [CONSTANT; VARIABLE; BRACKET].
Proof.
  intros Hb. pose proof Hb as [Hne Hall].
  assert (forall k key', reserved k = true ->
            _findTopLevel name (String k key') = (-1)%Z) as Htop.
  { intros k key' Hk. unfold _findTopLevel.
    rewrite <- (app_empty_r name) at 1. by rewrite _findTopLevel_loop_bare. }
  assert (forall k, reserved k = true ->
            PyStr.find name (String k "") = (-1)%Z) as Hfind.
  { intros k Hk. unfold PyStr.find.
    rewrite <- (app_empty_r name) at 1. rewrite find_from_bare by done.
    done. }
  rewrite std_loop_atom; try (apply Htop; done); try (apply Hfind; done).
  - cbn [_parse_loop _parse_type].
    by rewrite !application_skip by by apply Hfind.
  - destruct (bare_first name Hb) as (c & Hc & Hr).
    destruct name as [|x name]; [done|]. injection Hc as ->.
    apply not_reserved in Hr as (_ & _ & _ & Hother).
    cbn [PyStr.startswith]. by rewrite Hother.
Qed.
End StandardParse.

(** ** The node a branch returns *)

Lemma bind_Return {A B} (m : outcome A) (k : A -> outcome B) b :
  m ≫= k = Return b -> exists a, m = Return a /\ k a = Return b.
Proof. destruct m as [a| |]; [|done..]. intros Hk. by exists a. Qed.

Lemma bind_Return_r {A} (m : outcome A) : m ≫= Return = m.
Proof. by destruct m. Qed.

Lemma parse_all_expressions signature precedence junctorSymbols n formula :
  parse signature precedence junctorSymbols n formula false
  = _parse signature precedence junctorSymbols n formula.
Proof. unfold parse. cbn [andb]. apply bind_Return_r. Qed.

Section Branches.
Context (signature : Signature) (junctorSymbols : NodeType -> option string)
        (rec : string -> outcome ParseTree).

(** The node that a branch returns has the kind of the branch, the
    signature of the parser, and the results of recursive calls as
    children. *)
Lemma _parse_type_Return formula kind tree :
  _parse_type signature junctorSymbols rec formula kind = Some (Return tree) ->
  type tree = kind /\
  ParseTree_signature tree = signature /\
  forall child, child ∈ children tree -> exists sub, rec sub = Return child.
Proof.
  destruct kind; cbn [_parse_type];
    unfold _parse_quantifier, _parse_junctor, _parse_operands, _parse_negation,
           _parse_application, _parse_bracket, _parse_arguments.
  all: repeat case_match; try done.
  all: intros [= Hr].
  all: repeat match type of Hr with
       | _ ≫= _ = Return _ =>
           let a := fresh "a" in let Ha := fresh "Ha" in
           apply bind_Return in Hr as (a & Ha & Hr)
       | (if ?c then _ else _) = Return _ => destruct c; [done|]
       end.
  all: try (injection Hr as <-); try subst tree.
  all: cbn [type ParseTree_signature children].
  all: repeat split; try done.
  all: try (intros child Hin; apply elem_of_nil in Hin; done).
  all: try (intros child Hin;
            repeat (apply elem_of_cons in Hin as [->|Hin]); eauto;
            by apply elem_of_nil in Hin).
  all: intros child Hin; apply for_each_Return in Ha.
  all: apply list_elem_of_lookup_1 in Hin as [i Hi].
  all: destruct (Forall2_lookup_r _ _ _ _ _ Ha Hi) as (x & _ & Hx).
  all: apply bind_Return in Hx as (parsed & Hparsed & Hx).
  all: destruct (negb (isTerm parsed)); [done|].
  all: injection Hx as <-; eauto.
Qed.

Lemma _parse_loop_Return formula types tree :
  _parse_loop signature junctorSymbols rec formula types = Return tree ->
  exists type, type ∈ types /\
    _parse_type signature junctorSymbols rec formula type = Some (Return tree).
Proof.
  induction types as [|type rest IH]; cbn [_parse_loop]; [done|].
  destruct (_parse_type _ _ _ _ type) as [r|] eqn:Ht.
  - intros ->. exists type. split; [left|done].
  - intros (type' & Hin & Ht')%IH. exists type'. split; [by right|done].
Qed.

(** A Variable node is made from a text that passes the syntax check. *)
Lemma _parse_loop_VARIABLE formula types tree :
  _parse_loop signature junctorSymbols rec formula types = Return tree ->
  type tree = VARIABLE ->
  tree = Node (Sym formula) VARIABLE [] signature /\
  _varSyntaxCheck formula signature = true.
Proof.
  intros Hp Hv. apply _parse_loop_Return in Hp as (ty & _ & Ht).
  pose proof (_parse_type_Return _ _ _ Ht) as [Hty _].
  rewrite Hv in Hty. subst ty. cbn [_parse_type] in Ht.
  destruct (_varSyntaxCheck formula signature); [|done].
  by injection Ht as <-.
Qed.
End Branches.

(** C8. With the standard precedence and junctor symbols: a bare name
    that the signature declares as a constant parses as a Constant
    node; a token ([[a-zA-Z][a-zA-Z0-9]*] over its entire length) that
    is not a symbol of the signature parses as a Variable node; and
    whenever a text parses as a Variable node, the name in the node is
    the stripped text and it is not a symbol of the signature, so no
    name parses as both. *)
Theorem constants_and_variables_disjoint (signature : Signature) :
  (forall name, bare name -> name ∈ constants signature ->
     parse_default name signature false
     = Return (Node (Sym name) CONSTANT [] signature)) /\
  (forall name, token name -> Signature_contains signature name = false ->
     parse_default name signature false
     = Return (Node (Sym name) VARIABLE [] signature)) /\
  (forall text tree,
     parse_default text signature false = Return tree ->
     type tree = VARIABLE ->
     tree = Node (Sym (PyStr.strip text)) VARIABLE [] signature /\
     Signature_contains signature (PyStr.strip text) = false /\
     PyStr.strip text ∉ constants signature).
Proof.
  split; [|split].
  - intros name Hb Hc. unfold parse_default.
    rewrite parse_all_expressions, std_parse_S. cbv zeta.
    rewrite (bare_strip _ Hb).
    destruct (String.eqb_spec name "") as [->|_]; [by destruct Hb|].
    rewrite std_loop_bare by done. cbn [_parse_loop _parse_type].
    by rewrite bool_decide_eq_true_2.
  - intros name Ht Hc. pose proof (token_bare _ Ht) as Hb. unfold parse_default.
    rewrite parse_all_expressions, std_parse_S. cbv zeta.
    rewrite (bare_strip _ Hb).
    destruct (String.eqb_spec name "") as [->|_]; [by destruct Hb|].
    rewrite std_loop_bare by done. cbn [_parse_loop _parse_type].
    apply Signature_contains_False in Hc as Hnot. destruct Hnot as (_ & _ & Hnot).
    rewrite bool_decide_eq_false_2 by done.
    by rewrite (_varSyntaxCheck_token _ _ Ht), Hc.
  - intros text tree. unfold parse_default.
    rewrite parse_all_expressions, std_parse_S. cbv zeta.
    destruct (String.eqb (PyStr.strip text) ""); [done|].
    intros Hp Hv. apply _parse_loop_VARIABLE in Hp as [-> Hcheck]; [|done].
    apply _varSyntaxCheck_true in Hcheck as [_ Hc].
    split; [done|]. split; [done|].
    by apply Signature_contains_False in Hc as (_ & _ & ?).
Qed.

(** ** The text of an application *)

Lemma str_drop_add n m s :
  PyStr.str_drop (n + m) s = PyStr.str_drop m (PyStr.str_drop n s).
Proof.
  revert s; induction n as [|n IH]; intros s; [done|].
  destruct s as [|c s]; [by destruct m|]. apply IH.
Qed.

Lemma str_take_app_ge n (a b : string) :
  String.length a <= n ->
  PyStr.str_take n (a +:+ b) = a +:+ PyStr.str_take (n - String.length a) b.
Proof.
  revert n; induction a as [|c a IH]; intros n Hn.
  - rewrite !app_nil. simpl. by rewrite Nat.sub_0_r.
  - rewrite !app_cons. simpl in Hn. destruct n as [|n]; [lia|].
    cbn [PyStr.str_take String.length Nat.sub]. rewrite IH by lia. done.
Qed.

Lemma slice_prefix (a b : string) :
  PyStr.slice (a +:+ b) 0 (Some (Z.of_nat (String.length a))) = a.
Proof.
  unfold PyStr.slice, PyStr.clamp. rewrite length_app.
  destruct (Z.ltb_spec (Z.of_nat (String.length a)) 0); [lia|].
  cbn [Z.ltb Z.compare].
  replace (Z.to_nat (_ - _)) with (String.length a) by lia.
  replace (Z.to_nat (Z.min 0 _)) with 0 by lia.
  apply str_take_app.
Qed.

Lemma slice_arguments (a b : string) :
  PyStr.slice (a +:+ "(" +:+ b +:+ ")") (Z.of_nat (String.length a) + 1)
              (Some (-1)%Z) = b.
Proof.
  unfold PyStr.slice, PyStr.clamp. rewrite !length_app.
  cbn [String.length].
  destruct (Z.ltb_spec (Z.of_nat (String.length a) + 1) 0); [lia|].
  cbn [Z.ltb Z.compare].
  replace (Z.to_nat (Z.min _ _)) with (String.length a + 1) by lia.
  replace (Z.to_nat (_ - _)) with (String.length b) by lia.
  rewrite str_drop_add, str_drop_app. rewrite app_cons, app_nil.
  cbn [PyStr.str_drop]. apply str_take_app.
Qed.

(** [~] is found in the text of an application only if it is in the
    arguments, and then after the opening bracket. *)
Lemma find_tilde_app (a : string) i j :
  (0 <= i)%Z -> (0 <= j)%Z ->
  PyStr.find_from a "~" j = (-1)%Z ->
  PyStr.find_from (a +:+ ")") "~" i = (-1)%Z.
Proof.
  revert i j; induction a as [|c a IH]; intros i j Hi Hj.
  - done.
  - rewrite app_cons. cbn [PyStr.find_from PyStr.startswith].
    destruct (Ascii.eqb c "~"); cbn [andb]; [lia|].
    apply IH; lia.
Qed.

Section Application.
Context (signature : Signature) (symbol arguments : string).
Hypothesis symbol_bare : bare symbol.
Hypothesis arguments_unclosed : unclosed arguments = true.

Let formula : string := symbol +:+ "(" +:+ arguments +:+ ")".

Abbreviation std_loop := (_parse_loop signature _STANDARD_JUNCTOR_SYMBOLS).

Lemma application_strip : PyStr.strip formula = formula.
Proof.
  destruct (bare_first _ symbol_bare) as (c & Hc & Hr).
  apply not_reserved in Hr as [Hspace _].
  assert (PyStr.first formula = Some c) as Hfirst.
  { unfold formula. destruct symbol; [done|]. by rewrite app_cons. }
  assert (PyStr.last formula = Some ")"%char) as Hlast.
  { unfold formula. rewrite !last_app by (repeat apply app_nonempty_r; done).
    done. }
  by apply (strip_id _ c ")").
Qed.

Lemma application_nonempty : String.eqb formula "" = false.
Proof.
  apply PyStrFacts.eqb_empty. unfold formula.
  destruct symbol_bare as [Hne _]. by destruct symbol.
Qed.

Lemma application_no_junctor key :
  key ∈ ["-:"; ";"; ","]%string -> _findTopLevel formula key = (-1)%Z.
Proof.
  intros Hkey. destruct symbol_bare as [_ Hall]. unfold _findTopLevel, formula.
  repeat (apply elem_of_cons in Hkey as [->|Hkey]);
    [..|by apply elem_of_nil in Hkey].
  all: rewrite _findTopLevel_loop_bare by done.
  all: rewrite app_cons, app_nil; cbn [_findTopLevel_loop PyStr.startswith].
  all: cbn [Ascii.eqb Bool.eqb andb].
  all: by apply (_findTopLevel_loop_unclosed _ _ _ 0).
Qed.

Lemma application_no_negation : PyStr.startswith formula "!" = false.
Proof.
  destruct (bare_first _ symbol_bare) as (c & Hc & Hr).
  apply not_reserved in Hr as (_ & _ & _ & Hother).
  unfold formula. destruct symbol; [done|]. injection Hc as ->.
  rewrite app_cons. cbn [PyStr.startswith]. by rewrite Hother.
Qed.

Lemma application_find_bracket :
  PyStr.find formula "(" = Z.of_nat (String.length symbol).
Proof.
  destruct symbol_bare as [_ Hall]. unfold PyStr.find, formula.
  rewrite find_from_bare by done. by rewrite app_cons, app_nil.
Qed.

Lemma application_find_tilde :
  PyStr.find formula "~" = (-1)%Z \/
  (Z.of_nat (String.length symbol) + 1 <= PyStr.find formula "~"
   <= Z.of_nat (String.length formula))%Z.
Proof.
  destruct symbol_bare as [_ Hall]. unfold PyStr.find, formula.
  rewrite find_from_bare by done. rewrite app_cons, app_nil.
  cbn [PyStr.find_from PyStr.startswith Ascii.eqb Bool.eqb andb].
  match goal with |- context [PyStr.find_from ?s ?k ?i] =>
    destruct (PyStrFacts.find_from_bound s k i) as [->|Hb] end; [by left|].
  right. rewrite !length_app. cbn [String.length] in *. lia.
Qed.

Lemma application_no_tilde :
  PyStr.find arguments "~" = (-1)%Z -> PyStr.find formula "~" = (-1)%Z.
Proof.
  intros Hq. destruct symbol_bare as [_ Hall]. unfold PyStr.find, formula.
  rewrite find_from_bare by done. rewrite app_cons, app_nil.
  cbn [PyStr.find_from PyStr.startswith Ascii.eqb Bool.eqb andb].
  eapply find_tilde_app; [lia| |exact Hq]. lia.
Qed.

(** A quantified variable cut out of the text of an application has the
    opening bracket in it. *)
Lemma application_variable v :
  (Z.of_nat (String.length symbol) + 1 <= v <= Z.of_nat (String.length formula))%Z ->
  _varSyntaxCheck (PyStr.slice formula 1 (Some v)) signature = false.
Proof.
  intros Hv. destruct (_varSyntaxCheck _ _) eqn:Hcheck; [|done].
  apply _varSyntaxCheck_true in Hcheck as [Hall _].
  destruct symbol_bare as [Hne _].
  unfold PyStr.slice, PyStr.clamp in Hall.
  destruct (Z.ltb_spec v 0); [lia|]. cbn [Z.ltb Z.compare] in Hall.
  replace (Z.to_nat (Z.min 1 _)) with 1 in Hall by lia.
  replace (Z.to_nat (Z.min v _ - Z.min 1 _)) with (Z.to_nat v - 1) in Hall by lia.
  unfold formula in Hall, Hv. destruct symbol as [|c name]; [done|].
  rewrite app_cons in Hall. cbn [PyStr.str_drop] in Hall.
  cbn [String.length] in Hv.
  rewrite str_take_app_ge in Hall by lia.
  rewrite all_chars_app, app_cons, app_nil in Hall.
  destruct (Z.to_nat v - 1 - String.length name) as [|n] eqn:Hn; [lia|].
  cbn in Hall. by rewrite andb_false_r in Hall.
Qed.

(** Up to the application branches, parsing the text of an application
    either fails on a quantifier with an invalid variable, or goes on. *)
Lemma application_reached rec :
  (exists variable,
     PyStr.find arguments "~" <> (-1)%Z /\
     std_loop rec formula
       [IMPLICATION; DISJUNCTION; CONJUNCTION; NEGATION; UNIVERSAL;
        EXISTENTIAL; PREDICATE; FUNCTOR; CONSTANT; VARIABLE; BRACKET]
     = Raise (ParseError (InvalidQuantVariable formula variable))) \/
  std_loop rec formula
    [IMPLICATION; DISJUNCTION; CONJUNCTION; NEGATION; UNIVERSAL;
     EXISTENTIAL; PREDICATE; FUNCTOR; CONSTANT; VARIABLE; BRACKET]
  = std_loop rec formula [PREDICATE; FUNCTOR; CONSTANT; VARIABLE; BRACKET].
Proof.
  rewrite std_loop_junctors, !application_no_junctor by set_solver.
  rewrite Z.eqb_refl. cbn [negb _parse_loop _parse_type].
  rewrite negation_skip by apply application_no_negation.
  destruct application_find_tilde as [Hq|Hq];
    [right; by rewrite !quantifier_skip|].
  assert (PyStr.find arguments "~" <> (-1)%Z) as Harg.
  { intros Hn. apply application_no_tilde in Hn. lia. }
  unfold _parse_quantifier.
  destruct (Z.eqb_spec (PyStr.find formula "~") (-1)) as [|_]; [lia|].
  rewrite application_variable by done. cbn [negb].
  repeat destruct (_ || _); eauto.
Qed.

(** The application branch on the text of an application. *)
Lemma application_branch rec kind :
  _parse_application signature rec formula kind =
  match (if bool_decide (kind = PREDICATE) then predicates signature
         else functors signature) !! symbol with
  | None => None
  | Some arity =>
      let pieces := _splitAtLevel arguments "," in
      if negb (Z.of_nat (length pieces) =? arity)%Z then
        Some (Raise (ParseError (ArityMismatch symbol arity (length pieces) formula)))
      else Some (
        children ← _parse_arguments rec formula pieces;
        Return (Node (Sym symbol) kind children signature))
  end.
Proof.
  unfold _parse_application. rewrite application_find_bracket.
  destruct (Z.eqb_spec (Z.of_nat (String.length symbol)) (-1)) as [|_]; [lia|].
  unfold formula. by rewrite slice_prefix, slice_arguments.
Qed.
End Application.

(** ** Parsing names and applications *)

Section StandardParseResults.
Context (signature : Signature).

Abbreviation std_parse :=
  (_parse signature _STANDARD_PRECEDENCE _STANDARD_JUNCTOR_SYMBOLS).

Lemma std_parse_bare n name :
  bare name ->
  std_parse (S n) name
  = _parse_loop signature _STANDARD_JUNCTOR_SYMBOLS (std_parse n) name
      [CONSTANT; VARIABLE; BRACKET].
Proof.
  intros Hb. rewrite std_parse_S. cbv zeta. rewrite (bare_strip _ Hb).
  destruct (String.eqb_spec name "") as [->|_]; [by destruct Hb|].
  by apply std_loop_bare.
Qed.

Lemma std_parse_constant n name :
  bare name -> name ∈ constants signature ->
  std_parse (S n) name = Return (Node (Sym name) CONSTANT [] signature).
Proof.
  intros Hb Hc. rewrite std_parse_bare by done. cbn [_parse_loop _parse_type].
  by rewrite bool_decide_eq_true_2.
Qed.

Lemma std_parse_variable n name :
  token name -> Signature_contains signature name = false ->
  std_parse (S n) name = Return (Node (Sym name) VARIABLE [] signature).
Proof.
  intros Ht Hc. rewrite std_parse_bare by by apply token_bare.
  cbn [_parse_loop _parse_type].
  apply Signature_contains_False in Hc as Hnot. destruct Hnot as (_ & _ & Hnot).
  rewrite bool_decide_eq_false_2 by done.
  by rewrite (_varSyntaxCheck_token _ _ Ht), Hc.
Qed.

(** The text of an application is parsed by the application branches,
    unless it fails before as a quantifier with an invalid variable. *)
Lemma std_parse_application n symbol arguments :
  bare symbol -> unclosed arguments = true ->
  let formula := symbol +:+ "(" +:+ arguments +:+ ")" in
  (exists variable,
     PyStr.find arguments "~" <> (-1)%Z /\
     std_parse (S n) formula
     = Raise (ParseError (InvalidQuantVariable formula variable))) \/
  std_parse (S n) formula
  = _parse_loop signature _STANDARD_JUNCTOR_SYMBOLS (std_parse n) formula
      [PREDICATE; FUNCTOR; CONSTANT; VARIABLE; BRACKET].
Proof.
  intros Hb Hu formula. rewrite std_parse_S. cbv zeta.
  unfold formula. rewrite application_strip, application_nonempty by done.
  apply application_reached; done.
Qed.

(** A declared symbol applied to a number of arguments that is not its
    arity. *)
Lemma std_parse_arity_mismatch n symbol arguments arity :
  bare symbol -> unclosed arguments = true ->
  predicates signature !! symbol = Some arity \/
  (predicates signature !! symbol = None /\
   functors signature !! symbol = Some arity) ->
  Z.of_nat (length (_splitAtLevel arguments ",")) <> arity ->
  let formula := symbol +:+ "(" +:+ arguments +:+ ")" in
  exists msg,
    std_parse (S n) formula = Raise (ParseError msg) /\
    (PyStr.find arguments "~" = (-1)%Z ->
     msg = ArityMismatch symbol arity (length (_splitAtLevel arguments ",")) formula).
Proof.
  intros Hb Hu Hdecl Hcount formula.
  destruct (std_parse_application n symbol arguments Hb Hu)
    as [(variable & Hq & Hp)|Hp]; fold formula in Hp; rewrite Hp.
  { eexists. split; [done|]. intros Hn. done. }
  cbn [_parse_loop _parse_type]. unfold formula.
  rewrite !application_branch by done.
  rewrite bool_decide_eq_true_2 by done.
  rewrite bool_decide_eq_false_2 by done.
  apply Z.eqb_neq in Hcount.
  destruct Hdecl as [->|[-> ->]]; cbv zeta; rewrite Hcount; cbn [negb]; eauto.
Qed.

(** A binary predicate applied to two constants. *)
Lemma std_parse_constants n symbol arguments x y :
  bare symbol -> unclosed arguments = true ->
  PyStr.find arguments "~" = (-1)%Z ->
  predicates signature !! symbol = Some 2%Z ->
  _splitAtLevel arguments "," = [x; y] ->
  bare x -> bare y -> x ∈ constants signature -> y ∈ constants signature ->
  std_parse (S (S n)) (symbol +:+ "(" +:+ arguments +:+ ")")
  = Return (Node (Sym symbol) PREDICATE
              [Node (Sym x) CONSTANT [] signature;
               Node (Sym y) CONSTANT [] signature] signature).
Proof.
  intros Hb Hu Hq Hdecl Hsplit Hx Hy Hcx Hcy.
  destruct (std_parse_application (S n) symbol arguments Hb Hu)
    as [(variable & Hq' & _)|Hp]; [done|]. rewrite Hp.
  cbn [_parse_loop _parse_type].
  rewrite application_branch by done.
  rewrite bool_decide_eq_true_2 by done. rewrite Hdecl. cbv zeta.
  rewrite Hsplit. cbn [length Z.of_nat Pos.of_succ_nat Pos.succ Z.eqb Pos.eqb negb].
  unfold _parse_arguments. cbn [for_each].
  rewrite !std_parse_constant by done. done.
Qed.
End StandardParseResults.

(** C6. With the standard precedence and junctor symbols, under a
    signature that declares predicate [Friend] with arity 2 and
    constants [a] and [b]: parsing [Friend(a)] raises the ParseError
    that names arity 2 and the 1 argument received, and parsing
    [Friend(a,b)] returns a Predicate node with the two Constant
    children [a] and [b].  In general, the application of a declared
    predicate (or of a functor that is not also a predicate), as a bare
    symbol followed by a bracketed argument text, to a number of
    top-level comma-separated arguments other than its arity raises a
    ParseError; the error names the arity and the number received
    whenever the argument text has no [~]. *)
Theorem arity_enforced (signature : Signature) :
  (predicates signature !! "Friend"%string = Some 2%Z ->
   "a"%string ∈ constants signature -> "b"%string ∈ constants signature ->
   parse_default "Friend(a)" signature false
   = Raise (ParseError (ArityMismatch "Friend" 2 1 "Friend(a)")) /\
   parse_default "Friend(a,b)" signature false
   = Return (Node (Sym "Friend") PREDICATE
               [Node (Sym "a") CONSTANT [] signature;
                Node (Sym "b") CONSTANT [] signature] signature)) /\
  (forall symbol arguments arity,
     bare symbol -> unclosed arguments = true ->
     predicates signature !! symbol = Some arity \/
     (predicates signature !! symbol = None /\
      functors signature !! symbol = Some arity) ->
     Z.of_nat (length (_splitAtLevel arguments ",")) <> arity ->
     exists msg,
       parse_default (symbol +:+ "(" +:+ arguments +:+ ")") signature false
       = Raise (ParseError msg) /\
       (PyStr.find arguments "~" = (-1)%Z ->
        msg = ArityMismatch symbol arity (length (_splitAtLevel arguments ","))
                (symbol +:+ "(" +:+ arguments +:+ ")"))).
Proof.
  split.
  - intros Hfriend Ha Hb.
    assert (bare "Friend") as HF by (split; done).
    assert (bare "a") as Hba by (split; done).
    assert (bare "b") as Hbb by (split; done).
    split.
    + unfold parse_default. rewrite parse_all_expressions.
      destruct (std_parse_arity_mismatch signature (String.length "Friend(a)")
                  "Friend" "a" 2 HF eq_refl (or_introl Hfriend))
        as (msg & Hp & Hmsg); [done|].
      change ("Friend" +:+ "(" +:+ "a" +:+ ")") with "Friend(a)"%string in *.
      rewrite Hp, Hmsg; done.
    + unfold parse_default. rewrite parse_all_expressions.
      change "Friend(a,b)"%string with ("Friend" +:+ "(" +:+ "a,b" +:+ ")").
      by apply std_parse_constants.
  - intros symbol arguments arity Hb Hu Hdecl Hcount.
    unfold parse_default. rewrite parse_all_expressions.
    by apply std_parse_arity_mismatch.
Qed.

(** ** The first occurrence at bracket depth 0 *)

Lemma depth_at_from_step c (r : string) d j :
  depth_at_from (String c r) d (S j)
  = depth_at_from r (if Ascii.eqb c "(" then (d + 1)%Z
                     else if Ascii.eqb c ")" then Z.max 0 (d - 1) else d) j.
Proof. reflexivity. Qed.

Lemma _findTopLevel_loop_first (s key : string) i d :
  (_findTopLevel_loop s key i d = (-1)%Z /\
   forall j, j < String.length s ->
     ~ (PyStr.startswith (PyStr.str_drop j s) key = true /\
        depth_at_from s d j = 0%Z)) \/
  (exists j, j < String.length s /\
     _findTopLevel_loop s key i d = (i + Z.of_nat j)%Z /\
     PyStr.startswith (PyStr.str_drop j s) key = true /\
     depth_at_from s d j = 0%Z /\
     forall j', j' < j ->
       ~ (PyStr.startswith (PyStr.str_drop j' s) key = true /\
          depth_at_from s d j' = 0%Z)).
Proof.
  revert i d; induction s as [|c r IH]; intros i d.
  { left. split; [done|]. simpl. lia. }
  cbn [_findTopLevel_loop].
  set (d1 := if Ascii.eqb c ")" then Z.max 0 (d - 1) else d).
  assert (depth_at_from (String c r) d 0 = d1) as Hd0 by reflexivity.
  destruct (PyStr.startswith (String c r) key && (d1 =? 0)%Z) eqn:Hhere.
  { right. exists 0. apply andb_true_iff in Hhere as [Hs Hd].
    apply Z.eqb_eq in Hd. cbn [String.length PyStr.str_drop].
    repeat split; [lia|lia|done|congruence|lia]. }
  set (d2 := if Ascii.eqb c "(" then (d1 + 1)%Z else d1).
  assert (d2 = if Ascii.eqb c "(" then (d + 1)%Z
               else if Ascii.eqb c ")" then Z.max 0 (d - 1) else d) as Hd2.
  { unfold d2, d1. destruct (Ascii.eqb_spec c "(") as [->|]; [|done].
    done. }
  assert (~ (PyStr.startswith (PyStr.str_drop 0 (String c r)) key = true /\
             depth_at_from (String c r) d 0 = 0%Z)) as Hnot0.
  { rewrite Hd0. cbn [PyStr.str_drop]. intros [Hs Hd].
    rewrite Hs, Hd in Hhere. done. }
  destruct (IH (i + 1)%Z d2) as [[-> Hnone]|(j & Hj & -> & Hs & Hd & Hfirst)].
  - left. split; [done|]. intros [|j] Hj; [done|].
    rewrite depth_at_from_step, <- Hd2. cbn [PyStr.str_drop].
    apply Hnone. simpl in Hj. lia.
  - right. exists (S j). cbn [String.length PyStr.str_drop].
    rewrite depth_at_from_step, <- Hd2.
    repeat split; [lia|lia|done|done|].
    intros [|j'] Hj'; [done|].
    rewrite depth_at_from_step, <- Hd2. cbn [PyStr.str_drop].
    apply Hfirst. lia.
Qed.

(** [_findTopLevel] is the first occurrence of the key at bracket depth
    0, and [-1] when there is none. *)
Lemma _findTopLevel_first (s key : string) :
  (_findTopLevel s key = (-1)%Z /\ forall i, ~ top_level_occurrence s key i) \/
  (exists i, _findTopLevel s key = Z.of_nat i /\
     top_level_occurrence s key i /\
     forall j, j < i -> ~ top_level_occurrence s key j).
Proof.
  unfold _findTopLevel, top_level_occurrence, depth_at.
  destruct (_findTopLevel_loop_first s key 0 0)
    as [[-> Hnone]|(j & Hj & -> & Hs & Hd & Hfirst)].
  - left. split; [done|]. intros i (Hi & Hs & Hd). by apply (Hnone i).
  - right. exists j. repeat split; [f_equal; lia|done..|].
    intros j' Hj' (_ & Hs' & Hd'). by apply (Hfirst j').
Qed.

Lemma _findTopLevel_of_first (s key : string) i :
  top_level_occurrence s key i ->
  (forall j, j < i -> ~ top_level_occurrence s key j) ->
  _findTopLevel s key = Z.of_nat i.
Proof.
  intros Hi Hfirst.
  destruct (_findTopLevel_first s key) as [[_ Hnone]|(i' & -> & Hi' & Hfirst')].
  - by destruct (Hnone i).
  - f_equal. destruct (Nat.lt_total i i') as [Hlt|[->|Hlt]]; [|done|].
    + by destruct (Hfirst' i).
    + by destruct (Hfirst i').
Qed.

Lemma _findTopLevel_none (s key : string) :
  (forall i, ~ top_level_occurrence s key i) -> _findTopLevel s key = (-1)%Z.
Proof.
  intros Hnone.
  destruct (_findTopLevel_first s key) as [[-> _]|(i & _ & Hi & _)]; [done|].
  by destruct (Hnone i).
Qed.

Lemma _findTopLevel_found (s key : string) i :
  _findTopLevel s key = Z.of_nat i ->
  top_level_occurrence s key i /\
  forall j, j < i -> ~ top_level_occurrence s key j.
Proof.
  intros Hi.
  destruct (_findTopLevel_first s key) as [[Hn _]|(i' & Hi' & Hocc & Hfirst)];
    [lia|].
  assert (i' = i) as -> by lia. done.
Qed.

Lemma _findTopLevel_absent (s key : string) :
  _findTopLevel s key = (-1)%Z -> forall i, ~ top_level_occurrence s key i.
Proof.
  intros Hn.
  destruct (_findTopLevel_first s key) as [[_ Hnone]|(i' & Hi' & _)]; [done|lia].
Qed.

(** ** Splitting at a junctor *)

Section Junctors.
Context (signature : Signature).

Abbreviation std_parse :=
  (_parse signature _STANDARD_PRECEDENCE _STANDARD_JUNCTOR_SYMBOLS).

(** The operands are shorter than the text: the fuel left for them is
    enough. *)
Lemma std_parse_shorter n sub :
  String.length sub < n ->
  std_parse n sub = parse_default sub signature false.
Proof.
  intros Hn. unfold parse_default. rewrite parse_all_expressions.
  by apply _parse_fuel_enough; [apply standard_symbols_complete|].
Qed.

Lemma _parse_operands_fuel n formula type sym pos :
  String.length formula <= n ->
  (0 <= pos < Z.of_nat (String.length formula))%Z ->
  sym <> EmptyString ->
  _parse_operands signature (std_parse n) formula type sym pos
  = _parse_operands signature (fun sub => parse_default sub signature false)
      formula type sym pos.
Proof.
  intros Hn Hpos Hsym. unfold _parse_operands.
  assert (formula <> EmptyString) as Hne by (destruct formula; simpl in *; [lia|done]).
  assert (0 < String.length sym) by (destruct sym; simpl; [done|lia]).
  rewrite (std_parse_shorter n (PyStr.slice formula 0 (Some pos))).
  2: { pose proof (PyStrFacts.length_slice_upto formula pos Hpos). lia. }
  destruct (parse_default (PyStr.slice formula 0 (Some pos)) signature false);
    [|done..].
  cbn. rewrite (std_parse_shorter n).
  2: { pose proof (PyStrFacts.length_slice_from formula
                     (pos + Z.of_nat (String.length sym)) None Hne). lia. }
  done.
Qed.

Lemma std_parse_junctor text type sym i :
  loosest_junctor (PyStr.strip text) type sym ->
  top_level_occurrence (PyStr.strip text) sym i ->
  (forall j, j < i -> ~ top_level_occurrence (PyStr.strip text) sym j) ->
  parse_default text signature false
  = _parse_operands signature (fun sub => parse_default sub signature false)
      (PyStr.strip text) type sym (Z.of_nat i).
Proof.
  intros Hloose Hocc Hfirst.
  pose proof (_findTopLevel_of_first _ _ _ Hocc Hfirst) as Hpos.
  pose proof Hocc as (Hi & _ & _).
  pose proof (PyStrFacts.length_strip text) as Hstrip.
  unfold parse_default. rewrite parse_all_expressions, std_parse_S. cbv zeta.
  destruct (String.eqb_spec (PyStr.strip text) "") as [E|_].
  { rewrite E in Hi. simpl in Hi. lia. }
  rewrite std_loop_junctors.
  destruct type; try done; cbn [loosest_junctor] in Hloose.
  - subst sym. rewrite Hpos.
    destruct (Z.eqb_spec (Z.of_nat i) (-1)) as [|_]; [lia|]. cbn [negb].
    apply _parse_operands_fuel; [lia|lia|done].
  - destruct Hloose as [-> Hno]. rewrite (_findTopLevel_none _ _ Hno), Hpos.
    destruct (Z.eqb_spec (Z.of_nat i) (-1)) as [|_]; [lia|]. cbn [negb Z.eqb].
    rewrite Pos.eqb_refl. cbn [negb].
    apply _parse_operands_fuel; [lia|lia|done].
  - destruct Hloose as (-> & Hno1 & Hno2).
    rewrite (_findTopLevel_none _ _ Hno1), (_findTopLevel_none _ _ Hno2), Hpos.
    destruct (Z.eqb_spec (Z.of_nat i) (-1)) as [|_]; [lia|]. cbn [negb Z.eqb].
    rewrite Pos.eqb_refl. cbn [negb].
    apply _parse_operands_fuel; [lia|lia|done].
Qed.
End Junctors.

(** C7. With the standard precedence and junctor symbols: when the
    stripped text has a binary junctor symbol at bracket depth 0, the
    parser splits it at the first occurrence of the symbol of the
    loosest-binding junctor that occurs there (implication before
    disjunction before conjunction): the result is the node of that
    junctor over the parses of the text before the occurrence and of
    the text after the symbol, both required to be formulas.  In
    particular, with predicate [Friend] of arity 2 and constants [a]
    and [b], [Friend(a,b)-:Friend(b,a)] parses as the Implication node
    over the Predicate trees of [Friend(a,b)] and [Friend(b,a)]. *)
Theorem junctor_splits_at_first (signature : Signature) :
  (forall text type sym i,
     loosest_junctor (PyStr.strip text) type sym ->
     top_level_occurrence (PyStr.strip text) sym i ->
     (forall j, j < i -> ~ top_level_occurrence (PyStr.strip text) sym j) ->
     parse_default text signature false
     = (left ← parse_default
                 (PyStr.slice (PyStr.strip text) 0 (Some (Z.of_nat i)))
                 signature false;
        right ← parse_default
                  (PyStr.slice (PyStr.strip text)
                     (Z.of_nat i + Z.of_nat (String.length sym)) None)
                  signature false;
        if negb (isFormula left) then
          Raise (ParseError (JunctorNonFormula type
                   (PyStr.slice (PyStr.strip text) 0 (Some (Z.of_nat i)))))
        else if negb (isFormula right) then
          Raise (ParseError (JunctorNonFormula type
                   (PyStr.slice (PyStr.strip text)
                      (Z.of_nat i + 1 + Z.of_nat (String.length sym)) None)))
        else Return (Node (Sym sym) type [left; right] signature))) /\
  (predicates signature !! "Friend"%string = Some 2%Z ->
   "a"%string ∈ constants signature -> "b"%string ∈ constants signature ->
   parse_default "Friend(a,b)-:Friend(b,a)" signature false
   = Return (Node (Sym "-:") IMPLICATION
               [Node (Sym "Friend") PREDICATE
                  [Node (Sym "a") CONSTANT [] signature;
                   Node (Sym "b") CONSTANT [] signature] signature;
                Node (Sym "Friend") PREDICATE
                  [Node (Sym "b") CONSTANT [] signature;
                   Node (Sym "a") CONSTANT [] signature] signature]
               signature)).
Proof.
  split.
  - intros text type sym i Hloose Hocc Hfirst.
    by rewrite (std_parse_junctor signature text type sym i).
  - intros Hfriend Ha Hb.
    assert (bare "Friend") as HF by (split; done).
    assert (bare "a") as Hba by (split; done).
    assert (bare "b") as Hbb by (split; done).
    destruct (_findTopLevel_found "Friend(a,b)-:Friend(b,a)" "-:" 11 eq_refl)
      as [Hocc Hfirst].
    rewrite (std_parse_junctor signature "Friend(a,b)-:Friend(b,a)"
               IMPLICATION "-:" 11 eq_refl Hocc Hfirst).
    unfold _parse_operands.
    change (PyStr.strip "Friend(a,b)-:Friend(b,a)") with "Friend(a,b)-:Friend(b,a)"%string.
    change (PyStr.slice "Friend(a,b)-:Friend(b,a)" 0 (Some (Z.of_nat 11)))
      with ("Friend" +:+ "(" +:+ "a,b" +:+ ")").
    change (PyStr.slice "Friend(a,b)-:Friend(b,a)"
              (Z.of_nat 11 + Z.of_nat (String.length "-:")) None)
      with ("Friend" +:+ "(" +:+ "b,a" +:+ ")").
    unfold parse_default. rewrite !parse_all_expressions.
    change (S (String.length ("Friend" +:+ "(" +:+ "a,b" +:+ ")"))) with (S (S 10)).
    change (S (String.length ("Friend" +:+ "(" +:+ "b,a" +:+ ")"))) with (S (S 10)).
    rewrite (std_parse_constants signature 10 "Friend" "a,b" "a" "b") by done.
    rewrite (std_parse_constants signature 10 "Friend" "b,a" "b" "a") by done.
    done.
Qed.

(** ** Application nodes of parsed trees *)

Lemma elem_of_nodes node tree :
  node ∈ nodes tree <->
  node = tree \/ exists child, child ∈ children tree /\ node ∈ nodes child.
Proof.
  destruct tree as [v ty cs sg]. cbn [nodes children].
  rewrite elem_of_cons, list_elem_of_In, in_flat_map.
  split; intros [?|(child & Hc & Hn)]; eauto; right; exists child.
  - by rewrite <- !list_elem_of_In in *.
  - by rewrite !list_elem_of_In in *.
Qed.

Lemma for_each_length {A B} (body : A -> outcome B) xs rs :
  for_each body xs = Return rs -> length rs = length xs.
Proof. intros Hr. apply for_each_Return, Forall2_length in Hr. done. Qed.

Section ApplicationNodes.
Context (signature : Signature) (precedence : list NodeType)
        (junctorSymbols : NodeType -> option string).

Lemma for_each_terms rec formula arguments cs :
  _parse_arguments rec formula arguments = Return cs ->
  Forall (fun child => isTerm child = true) cs.
Proof.
  unfold _parse_arguments. intros Hcs. apply for_each_Return in Hcs.
  induction Hcs as [|x c xs cs Hx _ IH]; constructor; [|done].
  apply bind_Return in Hx as (t & _ & Hx).
  destruct (isTerm t) eqn:Ht; [|done]. by injection Hx as <-.
Qed.

Lemma _parse_type_node_ok rec formula kind tree :
  _parse_type signature junctorSymbols rec formula kind = Some (Return tree) ->
  node_ok signature junctorSymbols tree.
Proof.
  intros Ht. pose proof (_parse_type_Return _ _ _ _ _ _ Ht) as (Hty & Hsg & _).
  split; [done|]. rewrite Hty. clear Hty Hsg.
  destruct kind; cbn [_parse_type] in Ht.
  - (* UNIVERSAL *)
    unfold _parse_quantifier in Ht.
    destruct (_ || _); [done|]. destruct (_ =? -1)%Z; [done|].
    destruct (_varSyntaxCheck _ _) eqn:Hv in Ht; [|done].
    destruct (_ =? -1)%Z; [done|].
    destruct (_varSyntaxCheck _ _) eqn:Hd in Ht; [|done].
    cbn [negb] in Ht. injection Ht as Ht.
    apply bind_Return in Ht as (child & _ & Ht).
    destruct (isFormula child) eqn:Hf; [|done]. injection Ht as <-.
    by eexists _, _, _.
  - (* EXISTENTIAL *)
    unfold _parse_quantifier in Ht.
    destruct (_ || _); [done|]. destruct (_ =? -1)%Z; [done|].
    destruct (_varSyntaxCheck _ _) eqn:Hv in Ht; [|done].
    destruct (_ =? -1)%Z; [done|].
    destruct (_varSyntaxCheck _ _) eqn:Hd in Ht; [|done].
    cbn [negb] in Ht. injection Ht as Ht.
    apply bind_Return in Ht as (child & _ & Ht).
    destruct (isFormula child) eqn:Hf; [|done]. injection Ht as <-.
    by eexists _, _, _.
  - (* IMPLICATION *)
    unfold _parse_junctor, _parse_operands in Ht.
    destruct (junctorSymbols IMPLICATION) as [sym|] eqn:Hsym; [|done].
    destruct (_ =? -1)%Z; [done|]. injection Ht as Ht.
    apply bind_Return in Ht as (l & _ & Ht).
    apply bind_Return in Ht as (r & _ & Ht).
    destruct (isFormula l) eqn:Hl; [|done].
    destruct (isFormula r) eqn:Hr; [|done]. injection Ht as <-.
    by eexists _, _, _.
  - (* DISJUNCTION *)
    unfold _parse_junctor, _parse_operands in Ht.
    destruct (junctorSymbols DISJUNCTION) as [sym|] eqn:Hsym; [|done].
    destruct (_ =? -1)%Z; [done|]. injection Ht as Ht.
    apply bind_Return in Ht as (l & _ & Ht).
    apply bind_Return in Ht as (r & _ & Ht).
    destruct (isFormula l) eqn:Hl; [|done].
    destruct (isFormula r) eqn:Hr; [|done]. injection Ht as <-.
    by eexists _, _, _.
  - (* CONJUNCTION *)
    unfold _parse_junctor, _parse_operands in Ht.
    destruct (junctorSymbols CONJUNCTION) as [sym|] eqn:Hsym; [|done].
    destruct (_ =? -1)%Z; [done|]. injection Ht as Ht.
    apply bind_Return in Ht as (l & _ & Ht).
    apply bind_Return in Ht as (r & _ & Ht).
    destruct (isFormula l) eqn:Hl; [|done].
    destruct (isFormula r) eqn:Hr; [|done]. injection Ht as <-.
    by eexists _, _, _.
  - (* NEGATION *)
    unfold _parse_negation in Ht.
    destruct (junctorSymbols NEGATION) as [sym|] eqn:Hsym; [|done].
    destruct (PyStr.startswith _ _); [|done]. injection Ht as Ht.
    apply bind_Return in Ht as (child & _ & Ht).
    destruct (isFormula child) eqn:Hf; [|done]. injection Ht as <-.
    by eexists _, _.
  - (* PREDICATE *)
    unfold _parse_application in Ht.
    destruct (_ =? -1)%Z; [done|].
    rewrite bool_decide_eq_true_2 in Ht by done.
    match type of Ht with context [?table !! ?symbol] =>
      destruct (table !! symbol) as [arity|] eqn:Hdecl; [|done];
      exists symbol end.
    destruct (Z.eqb_spec
                (Z.of_nat (length (_splitAtLevel
                   (PyStr.slice formula (PyStr.find formula "(" + 1) (Some (-1)%Z))
                   ","))) arity) as [Hcount|]; [|done].
    cbn [negb] in Ht. injection Ht as Ht.
    apply bind_Return in Ht as (cs & Hcs & Ht). injection Ht as <-.
    pose proof (for_each_terms _ _ _ _ Hcs) as Hterms.
    apply for_each_length in Hcs. cbn [value children].
    pose proof (_splitAtLevel_nonempty
                  (PyStr.slice formula (PyStr.find formula "(" + 1) (Some (-1)%Z))
                  ",").
    rewrite Hcs, Hcount. repeat split; [done|lia|done].
  - (* VARIABLE *)
    destruct (_varSyntaxCheck formula signature) eqn:Hv; [|done].
    injection Ht as <-. by eexists.
  - (* CONSTANT *)
    destruct (bool_decide_reflect (formula ∈ constants signature)); [|done].
    injection Ht as <-. by eexists.
  - (* BRACKET *)
    unfold _parse_bracket in Ht.
    destruct (negb _); [done|]. destruct (negb _); [done|]. injection Ht as Ht.
    apply bind_Return in Ht as (child & _ & Ht).
    destruct (isFormula child) eqn:Hf; [|done]. injection Ht as <-.
    by eexists.
  - (* FUNCTOR *)
    unfold _parse_application in Ht.
    destruct (_ =? -1)%Z; [done|].
    rewrite bool_decide_eq_false_2 in Ht by done.
    match type of Ht with context [?table !! ?symbol] =>
      destruct (table !! symbol) as [arity|] eqn:Hdecl; [|done];
      exists symbol end.
    destruct (Z.eqb_spec
                (Z.of_nat (length (_splitAtLevel
                   (PyStr.slice formula (PyStr.find formula "(" + 1) (Some (-1)%Z))
                   ","))) arity) as [Hcount|]; [|done].
    cbn [negb] in Ht. injection Ht as Ht.
    apply bind_Return in Ht as (cs & Hcs & Ht). injection Ht as <-.
    pose proof (for_each_terms _ _ _ _ Hcs) as Hterms.
    apply for_each_length in Hcs. cbn [value children].
    pose proof (_splitAtLevel_nonempty
                  (PyStr.slice formula (PyStr.find formula "(" + 1) (Some (-1)%Z))
                  ",").
    rewrite Hcs, Hcount. repeat split; [done|lia|done].
Qed.

(** Every node of a parsed tree is as the parser builds it. *)
Lemma _parse_nodes_ok n formula tree :
  _parse signature precedence junctorSymbols n formula = Return tree ->
  forall node, node ∈ nodes tree -> node_ok signature junctorSymbols node.
Proof.
  revert formula tree; induction n as [|n IH]; intros formula tree; [done|].
  cbn [_parse]. destruct (String.eqb _ ""); [done|].
  intros Hloop. apply _parse_loop_Return in Hloop as (kind & _ & Ht).
  intros node Hnode. apply elem_of_nodes in Hnode as [->|(child & Hc & Hnode)].
  - by eapply _parse_type_node_ok.
  - apply _parse_type_Return in Ht as (_ & _ & Hchildren).
    destruct (Hchildren child Hc) as (sub & Hsub). by eapply IH.
Qed.
End ApplicationNodes.

(** C10. With the standard precedence and junctor symbols: splitting
    the empty argument text yields one empty argument, and any split at
    least one piece; parsing [P()] for a bare symbol [P] declared as
    predicate or functor of arity 0 raises a ParseError; an application
    of a symbol whose table entry is arity 0 to any bracketed argument
    text raises a ParseError; parsing the bare symbol itself raises a
    ParseError when it is a declared predicate or functor and not a
    declared constant; and in every tree that the parser returns, each
    Predicate or Functor node has at least one child and as many
    children as the arity declared for its symbol, so no node is the
    application of a symbol at arity 0; and a bare symbol declared with
    arity 0 in one table, and neither in the other table nor as a
    constant, is not a name in any node of the tree. *)
Theorem zero_arity_never_applied (signature : Signature) :
  (_splitAtLevel "" "," = [""%string] /\
   forall text, 1 <= length (_splitAtLevel text ",")) /\
  (forall symbol, bare symbol ->
     predicates signature !! symbol = Some 0%Z \/
     functors signature !! symbol = Some 0%Z ->
     exists msg,
       parse_default (symbol +:+ "(" +:+ "" +:+ ")") signature false
       = Raise (ParseError msg)) /\
  (forall symbol arguments, bare symbol -> unclosed arguments = true ->
     predicates signature !! symbol = Some 0%Z \/
     (predicates signature !! symbol = None /\
      functors signature !! symbol = Some 0%Z) ->
     exists msg,
       parse_default (symbol +:+ "(" +:+ arguments +:+ ")") signature false
       = Raise (ParseError msg)) /\
  (forall symbol, bare symbol ->
     is_Some (predicates signature !! symbol) \/
     is_Some (functors signature !! symbol) ->
     symbol ∉ constants signature ->
     parse_default symbol signature false
     = Raise (ParseError (InvalidFormula symbol))) /\
  (forall text tree node,
     parse_default text signature false = Return tree ->
     node ∈ nodes tree ->
     node_ok signature _STANDARD_JUNCTOR_SYMBOLS node /\
     (forall symbol, type node = PREDICATE -> value node = Sym symbol ->
        predicates signature !! symbol <> Some 0%Z) /\
     (forall symbol, type node = FUNCTOR -> value node = Sym symbol ->
        functors signature !! symbol <> Some 0%Z) /\
     (forall symbol, bare symbol ->
        (predicates signature !! symbol = Some 0%Z /\
         functors signature !! symbol = None) \/
        (predicates signature !! symbol = None /\
         functors signature !! symbol = Some 0%Z) ->
        symbol ∉ constants signature ->
        symbol ∉ names node)).
Proof.
  split; [split; [done|intros text; apply _splitAtLevel_nonempty]|].
  split; [|split; [|split]].
  - intros symbol Hb Hdecl. unfold parse_default. rewrite parse_all_expressions.
    set (n := String.length (symbol +:+ "(" +:+ "" +:+ ")")).
    assert (exists m, n = S m) as [m Hm].
    { unfold n. rewrite length_app. simpl. exists (String.length symbol + 1). lia. }
    destruct (predicates signature !! symbol) as [arity|] eqn:Hp.
    + destruct (Z.eq_dec arity 1%Z) as [->|Hne].
      * destruct (std_parse_application signature n symbol "" Hb eq_refl)
          as [(variable & Hq & _)|Hreach]; [done|].
        rewrite Hreach. cbn [_parse_loop _parse_type].
        rewrite application_branch by done.
        rewrite bool_decide_eq_true_2 by done. rewrite Hp. cbv zeta.
        change (_splitAtLevel "" ",") with [""%string].
        cbn [length Z.of_nat Pos.of_succ_nat Z.eqb Pos.eqb negb].
        unfold _parse_arguments. cbn [for_each]. rewrite Hm.
        rewrite std_parse_S. cbn. eauto.
      * destruct (std_parse_arity_mismatch signature n symbol "" arity Hb eq_refl)
          as (msg & Hmsg & _); eauto.
    + destruct Hdecl as [|Hf]; [done|].
      destruct (std_parse_arity_mismatch signature n symbol "" 0 Hb eq_refl)
        as (msg & Hmsg & _); eauto.
  - intros symbol arguments Hb Hu Hdecl.
    unfold parse_default. rewrite parse_all_expressions.
    destruct (std_parse_arity_mismatch signature
                (String.length (symbol +:+ "(" +:+ arguments +:+ ")"))
                symbol arguments 0 Hb Hu Hdecl) as (msg & Hmsg & _); eauto.
    pose proof (_splitAtLevel_nonempty arguments ","). lia.
  - intros symbol Hb Hdecl Hconst.
    unfold parse_default. rewrite parse_all_expressions.
    rewrite std_parse_bare by done. cbn [_parse_loop _parse_type].
    rewrite bool_decide_eq_false_2 by done.
    assert (Signature_contains signature symbol = true) as Hin.
    { unfold Signature_contains, dict_contains.
      destruct Hdecl as [[? ->]|[? ->]]; [done|]. by rewrite orb_true_r. }
    assert (_varSyntaxCheck symbol signature = false) as ->.
    { destruct (_varSyntaxCheck symbol signature) eqn:Hc; [|done].
      apply _varSyntaxCheck_true in Hc as [_ Hc]. congruence. }
    unfold _parse_bracket.
    destruct (bare_first _ Hb) as (c & -> & Hr).
    apply not_reserved in Hr as (_ & Hopen & _). cbn [PyStr.is_char].
    by rewrite Hopen.
  - intros text tree node Hp Hnode. unfold parse_default in Hp.
    rewrite parse_all_expressions in Hp.
    pose proof (_parse_nodes_ok _ _ _ _ _ _ Hp node Hnode) as Hok.
    split; [done|]. destruct Hok as [_ Hok].
    split; [|split].
    + intros symbol Hty Hval. rewrite Hty in Hok.
      destruct Hok as (s & Hs & Hdecl & Hlen & _). rewrite Hval in Hs.
      injection Hs as <-. rewrite Hdecl. intros [= Hzero]. lia.
    + intros symbol Hty Hval. rewrite Hty in Hok.
      destruct Hok as (s & Hs & Hdecl & Hlen & _). rewrite Hval in Hs.
      injection Hs as <-. rewrite Hdecl. intros [= Hzero]. lia.
    + intros symbol Hb Hdecl Hconst Hin. unfold names in Hin.
      assert (forall name, _varSyntaxCheck name signature = true ->
                name <> symbol) as Hchecked.
      { intros name Hc ->. apply _varSyntaxCheck_true in Hc as [_ Hc].
        apply Signature_contains_False in Hc as (Hp' & Hf' & _).
        destruct Hdecl as [[? ?]|[? ?]]; congruence. }
      assert (forall s, ~ bare s -> s <> symbol) as Hgrammar
        by (intros s Hs ->; done).
      destruct (type node) eqn:Hty.
      * destruct Hok as (v & d & child & Hval & Hv & Hd & _).
        rewrite Hval in Hin.
        apply elem_of_cons in Hin as [->|Hin]; [by apply (Hchecked v)|].
        apply list_elem_of_singleton in Hin as ->. by apply (Hchecked d).
      * destruct Hok as (v & d & child & Hval & Hv & Hd & _).
        rewrite Hval in Hin.
        apply elem_of_cons in Hin as [->|Hin]; [by apply (Hchecked v)|].
        apply list_elem_of_singleton in Hin as ->. by apply (Hchecked d).
      * destruct Hok as (sym & l & r & [= <-] & Hval & _). rewrite Hval in Hin.
        apply list_elem_of_singleton in Hin as ->. by destruct Hb.
      * destruct Hok as (sym & l & r & [= <-] & Hval & _). rewrite Hval in Hin.
        apply list_elem_of_singleton in Hin as ->. by destruct Hb.
      * destruct Hok as (sym & l & r & [= <-] & Hval & _). rewrite Hval in Hin.
        apply list_elem_of_singleton in Hin as ->. by destruct Hb.
      * destruct Hok as (sym & child & [= <-] & Hval & _). rewrite Hval in Hin.
        apply list_elem_of_singleton in Hin as ->. by destruct Hb.
      * destruct Hok as (s & Hval & Hs & Hlen & _). rewrite Hval in Hin.
        apply list_elem_of_singleton in Hin as ->.
        destruct Hdecl as [[? ?]|[? ?]]; [|congruence].
        assert (Z.of_nat (length (children node)) = 0%Z) by congruence. lia.
      * destruct Hok as (s & Hval & Hs & _). rewrite Hval in Hin.
        apply list_elem_of_singleton in Hin as ->. by apply (Hchecked s).
      * destruct Hok as (s & Hval & Hs & _). rewrite Hval in Hin.
        apply list_elem_of_singleton in Hin as ->. done.
      * destruct Hok as (child & Hval & _). rewrite Hval in Hin.
        apply list_elem_of_singleton in Hin as ->. by destruct Hb.
      * destruct Hok as (s & Hval & Hs & Hlen & _). rewrite Hval in Hin.
        apply list_elem_of_singleton in Hin as ->.
        destruct Hdecl as [[? ?]|[? ?]]; [congruence|].
        assert (Z.of_nat (length (children node)) = 0%Z) by congruence. lia.
Qed.

(** ** The knowledge base *)

Lemma Signature_eq_true s1 s2 : Signature_eq s1 s2 = true <-> s1 = s2.
Proof.
  unfold Signature_eq. rewrite !andb_true_iff, !bool_decide_eq_true.
  destruct s1, s2; cbn. split; [intros [[-> ->] ->]; done|by intros [= -> -> ->]].
Qed.

Lemma parse_only_formulas text signature tree :
  parse_default text signature true = Return tree -> isFormula tree = true.
Proof.
  unfold parse_default, parse. intros Hp.
  apply bind_Return in Hp as (t & _ & Hp). cbn [andb] in Hp.
  destruct (isFormula t) eqn:Hf; [|done]. by injection Hp as <-.
Qed.

(** C9. [add] on a parsed tree whose signature is not the knowledge
    base's raises an error and leaves the list of formulas as it was; a
    parsed tree with the knowledge base's signature is appended; a text
    that parses as a formula under the knowledge base's signature is
    appended as its tree; a text that does not raises the error that
    wraps the ParseError and names the text, and leaves the list as it
    was. *)
Theorem add_guards (self : KnowledgeBase) :
  (forall tree, ParseTree_signature tree <> kb_signature self ->
     add self (Parsed tree) = (self, Raise SignatureMismatch)) /\
  (forall tree, ParseTree_signature tree = kb_signature self ->
     add self (Parsed tree)
     = (mkKnowledgeBase (kb_signature self) (parseTrees self ++ [tree]),
        Return ())) /\
  (forall text tree,
     parse_default text (kb_signature self) true = Return tree ->
     isFormula tree = true /\
     add self (Text text)
     = (mkKnowledgeBase (kb_signature self) (parseTrees self ++ [tree]),
        Return ())) /\
  (forall text,
     (forall tree, parse_default text (kb_signature self) true <> Return tree) ->
     exists err,
       parse_default text (kb_signature self) true = Raise (ParseError err) /\
       add self (Text text) = (self, Raise (CouldNotParse text err))).
Proof.
  split; [|split; [|split]].
  - intros tree Hne. cbn [add].
    destruct (Signature_eq _ _) eqn:E; [|done].
    by apply Signature_eq_true in E.
  - intros tree He. cbn [add].
    destruct (Signature_eq _ _) eqn:E; [done|].
    apply Signature_eq_true in He. congruence.
  - intros text tree Hp. split; [by eapply parse_only_formulas|].
    cbn [add]. by rewrite Hp.
  - intros text Hfail. cbn [add].
    pose proof (parse_default_ended text (kb_signature self) true) as He.
    destruct (parse_default text (kb_signature self) true) as [t|e|] eqn:Hp;
      [by destruct (Hfail t)| |done].
    destruct e; try done. eauto.
Qed.

Lemma add_guards_witness :
  let self := mkKnowledgeBase Example.P_signature [Example.P_a] in
  let other := Node (Sym "x") VARIABLE [] Example.no_signature in
  add self (Parsed other) = (self, Raise SignatureMismatch) /\
  add self (Parsed Example.P_a)
  = (mkKnowledgeBase Example.P_signature [Example.P_a; Example.P_a], Return ()) /\
  add self (Text "P(a)")
  = (mkKnowledgeBase Example.P_signature [Example.P_a; Example.P_a], Return ()) /\
  exists err,
    parse_default "P(" Example.P_signature true = Raise (ParseError err) /\
    add self (Text "P(") = (self, Raise (CouldNotParse "P(" err)).
Proof.
  intros self other.
  destruct (add_guards self) as (H1 & H2 & H3 & H4).
  split; [|split; [|split]].
  - apply H1. vm_compute. discriminate.
  - apply (H2 Example.P_a). reflexivity.
  - apply (H3 "P(a)"%string Example.P_a). vm_compute. reflexivity.
  - apply (H4 "P("%string). intros tree. vm_compute. discriminate.
Defined.

(** ** Free and bound variables *)

(** C3 on a quantifier over a variable of two characters: [getBound]
    returns the two characters, which are not variables of the formula,
    so the variables are not the union of the free and the bound
    ones. *)
Theorem getBound_splits_names :
  exists tree,
    parse_default "Axy~D:P(xy)" Example.P_signature true = Return tree /\
    getVariables tree = Return [Sym "xy"] /\
    getBound tree = Return [Sym "x"; Sym "y"] /\
    getFree tree = Return [Sym "xy"] /\
    Sym "x" ∈ [Sym "x"; Sym "y"] /\
    Sym "x" ∉ [Sym "xy"].
Proof.
  eexists. split; [vm_compute; reflexivity|].
  split; [vm_compute; reflexivity|].
  split; [vm_compute; reflexivity|].
  split; [vm_compute; reflexivity|].
  split; [left|].
  intros Hin. apply list_elem_of_singleton in Hin. discriminate.
Qed.

(** ** The claims on examples *)

Lemma arity_enforced_witness :
  parse_default "Friend(a)" Example.Friend_signature false
  = Raise (ParseError (ArityMismatch "Friend" 2 1 "Friend(a)")) /\
  parse_default "Friend(a,b)" Example.Friend_signature false
  = Return (Node (Sym "Friend") PREDICATE
              [Node (Sym "a") CONSTANT [] Example.Friend_signature;
               Node (Sym "b") CONSTANT [] Example.Friend_signature]
              Example.Friend_signature) /\
  exists msg,
    parse_default ("Friend" +:+ "(" +:+ "a,b,a" +:+ ")") Example.Friend_signature false
    = Raise (ParseError msg) /\
    (PyStr.find "a,b,a" "~" = (-1)%Z ->
     msg = ArityMismatch "Friend" 2 (length (_splitAtLevel "a,b,a" ","))
             ("Friend" +:+ "(" +:+ "a,b,a" +:+ ")")).
Proof.
  destruct (arity_enforced Example.Friend_signature) as [Hfriend Hgeneral].
  destruct Hfriend as [H1 H2];
    [reflexivity|by left|by right; left|].
  split; [exact H1|]. split; [exact H2|].
  apply (Hgeneral "Friend"%string "a,b,a"%string 2%Z).
  - split; [discriminate|reflexivity].
  - reflexivity.
  - left. reflexivity.
  - vm_compute. discriminate.
Defined.

Lemma junctor_splits_at_first_witness :
  (parse_default "P(a) ; P(a),P(a)" Example.P_signature false
   = (left ← parse_default "P(a) " Example.P_signature false;
      right ← parse_default " P(a),P(a)" Example.P_signature false;
      if negb (isFormula left) then
        Raise (ParseError (JunctorNonFormula DISJUNCTION "P(a) "))
      else if negb (isFormula right) then
        Raise (ParseError (JunctorNonFormula DISJUNCTION "P(a),P(a)"))
      else Return (Node (Sym ";") DISJUNCTION [left; right] Example.P_signature))) /\
  parse_default "Friend(a,b)-:Friend(b,a)" Example.Friend_signature false
  = Return (Node (Sym "-:") IMPLICATION
              [Node (Sym "Friend") PREDICATE
                 [Node (Sym "a") CONSTANT [] Example.Friend_signature;
                  Node (Sym "b") CONSTANT [] Example.Friend_signature]
                 Example.Friend_signature;
               Node (Sym "Friend") PREDICATE
                 [Node (Sym "b") CONSTANT [] Example.Friend_signature;
                  Node (Sym "a") CONSTANT [] Example.Friend_signature]
                 Example.Friend_signature]
              Example.Friend_signature).
Proof.
  split.
  - destruct (junctor_splits_at_first Example.P_signature) as [Hsplit _].
    destruct (_findTopLevel_found "P(a) ; P(a),P(a)" ";" 5 eq_refl)
      as [Hocc Hfirst].
    apply (Hsplit "P(a) ; P(a),P(a)"%string DISJUNCTION ";"%string 5).
    + split; [reflexivity|]. by apply _findTopLevel_absent.
    + exact Hocc.
    + exact Hfirst.
  - destruct (junctor_splits_at_first Example.Friend_signature) as [_ Hfriend].
    apply Hfriend; [reflexivity|by left|by right; left].
Defined.

Lemma constants_and_variables_disjoint_witness :
  parse_default "a" Example.Friend_signature false
  = Return (Node (Sym "a") CONSTANT [] Example.Friend_signature) /\
  parse_default "x1" Example.Friend_signature false
  = Return (Node (Sym "x1") VARIABLE [] Example.Friend_signature) /\
  Signature_contains Example.Friend_signature (PyStr.strip " x1 ") = false /\
  PyStr.strip " x1 " ∉ constants Example.Friend_signature.
Proof.
  destruct (constants_and_variables_disjoint Example.Friend_signature)
    as (Hconstant & Hvariable & Hnever).
  split; [|split].
  - apply Hconstant; [split; [discriminate|reflexivity]|by left].
  - apply Hvariable; [split; [by exists "x"%char|reflexivity]|reflexivity].
  - apply (Hnever " x1 "%string (Node (Sym "x1") VARIABLE [] Example.Friend_signature));
      vm_compute; reflexivity.
Defined.

Lemma zero_arity_never_applied_witness :
  (exists msg,
     parse_default ("Zero" +:+ "(" +:+ "" +:+ ")") Example.Z_signature false
     = Raise (ParseError msg)) /\
  (exists msg,
     parse_default ("Zero" +:+ "(" +:+ "x" +:+ ")") Example.Z_signature false
     = Raise (ParseError msg)) /\
  parse_default "Zero" Example.Z_signature false
  = Raise (ParseError (InvalidFormula "Zero")) /\
  node_ok Example.P_signature _STANDARD_JUNCTOR_SYMBOLS Example.P_a /\
  "Zero"%string ∉ names (Node (Sym "x") VARIABLE [] Example.Z_signature).
Proof.
  destruct (zero_arity_never_applied Example.Z_signature)
    as (_ & Hempty & Hany & Hbare & _).
  destruct (zero_arity_never_applied Example.P_signature)
    as (_ & _ & _ & _ & Hnodes).
  destruct (zero_arity_never_applied Example.Z_signature)
    as (_ & _ & _ & _ & Hnames).
  assert (bare "Zero") as Hb by (split; [discriminate|reflexivity]).
  split; [|split; [|split; [|split]]].
  - apply Hempty; [exact Hb|left; reflexivity].
  - apply Hany; [exact Hb|reflexivity|left; reflexivity].
  - apply Hbare; [exact Hb|left; by exists 0%Z|apply not_elem_of_nil].
  - apply (Hnodes "P(a)"%string Example.P_a Example.P_a).
    + vm_compute. reflexivity.
    + left.
  - apply (Hnames "x"%string (Node (Sym "x") VARIABLE [] Example.Z_signature)
             (Node (Sym "x") VARIABLE [] Example.Z_signature)).
    + vm_compute. reflexivity.
    + left.
    + exact Hb.
    + left. split; reflexivity.
    + apply not_elem_of_nil.
Defined.

(** ** Free and bound variables when bound names have one character

    The defect of [getBound] is only in names of several characters:
    on a parsed tree whose quantified variables all have one character,
    the variables are the free ones together with the bound ones. *)

Lemma ParseTree_children_ind (P : ParseTree -> Prop) :
  (forall v ty cs sg, Forall P cs -> P (Node v ty cs sg)) ->
  forall t, P t.
Proof.
  intros Hnode. fix IH 1. intros [v ty cs sg]. apply Hnode.
  induction cs as [|c cs IHcs]; constructor; [apply IH|apply IHcs].
Qed.

Lemma elem_of_append_new vars childVars x :
  x ∈ append_new vars childVars <-> x ∈ vars \/ x ∈ childVars.
Proof.
  unfold append_new. revert vars; induction childVars as [|v vs IH]; intros vars.
  - cbn. rewrite elem_of_nil. tauto.
  - cbn [fold_left]. rewrite IH, elem_of_cons.
    destruct (bool_decide_reflect (v ∈ vars)).
    + split; [tauto|]. intros [?|[->|?]]; tauto.
    + rewrite elem_of_app, list_elem_of_singleton. tauto.
Qed.

Lemma chars_one (v : string) : String.length v = 1 -> PyStr.chars v = [v].
Proof. destruct v as [|c [|c' v]]; done. Qed.

Lemma getVariables_inner v ty cs sg :
  ty <> VARIABLE -> ty <> CONSTANT ->
  getVariables (Node v ty cs sg)
  = (vars ← fold_each (fun vars child =>
                         childVars ← getVariables child;
                         Return (append_new vars childVars)) cs [];
     if is_quantifier ty then
       v0 ← value_index v 0;
       Return (if bool_decide (Sym v0 ∈ vars) then vars else vars ++ [Sym v0])
     else Return vars).
Proof. by destruct ty. Qed.

Lemma getBound_inner v ty cs sg :
  isTerm (Node v ty cs sg) = false -> is_quantifier ty = false ->
  getBound (Node v ty cs sg)
  = fold_each (fun vars child => bound ← getBound child; Return (vars ++ bound))
              cs [].
Proof. by destruct ty. Qed.

Lemma fold_each_getVariables cs acc :
  Forall (fun c => exists vs, getVariables c = Return vs) cs ->
  exists vars,
    fold_each (fun vars child =>
                 childVars ← getVariables child;
                 Return (append_new vars childVars)) cs acc = Return vars /\
    forall x, x ∈ vars <->
      x ∈ acc \/ exists c vs, c ∈ cs /\ getVariables c = Return vs /\ x ∈ vs.
Proof.
  intros Hcs. revert acc; induction Hcs as [|c cs [vs Hc] _ IH]; intros acc.
  - exists acc. split; [done|]. intros x. split; [by left|].
    intros [?|(c & vs & Hin & _)]; [done|]. by apply elem_of_nil in Hin.
  - cbn [fold_each]. rewrite Hc. cbn.
    destruct (IH (append_new acc vs)) as (vars & -> & Hvars).
    exists vars. split; [done|]. intros x. rewrite Hvars, elem_of_append_new.
    split.
    + intros [[?|?]|(c' & vs' & Hin & Hc' & Hx)]; [by left| |].
      * right. exists c, vs. split; [left|done].
      * right. exists c', vs'. split; [by right|done].
    + intros [?|(c' & vs' & Hin & Hc' & Hx)]; [by left; left|].
      apply elem_of_cons in Hin as [->|Hin].
      * left. right. congruence.
      * right. by exists c', vs'.
Qed.

Lemma fold_each_getBound cs acc :
  Forall (fun c => exists bs, getBound c = Return bs) cs ->
  exists bound,
    fold_each (fun vars child => bound ← getBound child; Return (vars ++ bound))
              cs acc = Return bound /\
    forall x, x ∈ bound <->
      x ∈ acc \/ exists c bs, c ∈ cs /\ getBound c = Return bs /\ x ∈ bs.
Proof.
  intros Hcs. revert acc; induction Hcs as [|c cs [bs Hc] _ IH]; intros acc.
  - exists acc. split; [done|]. intros x. split; [by left|].
    intros [?|(c & bs & Hin & _)]; [done|]. by apply elem_of_nil in Hin.
  - cbn [fold_each]. rewrite Hc. cbn.
    destruct (IH (acc ++ bs)) as (bound & -> & Hbound).
    exists bound. split; [done|]. intros x. rewrite Hbound, elem_of_app.
    split.
    + intros [[?|?]|(c' & bs' & Hin & Hc' & Hx)]; [by left| |].
      * right. exists c, bs. split; [left|done].
      * right. exists c', bs'. split; [by right|done].
    + intros [?|(c' & bs' & Hin & Hc' & Hx)]; [by left; left|].
      apply elem_of_cons in Hin as [->|Hin].
      * left. right. congruence.
      * right. by exists c', bs'.
Qed.

Section ShortNames.
Context (signature : Signature) (junctorSymbols : NodeType -> option string).

(** Every node is as the parser builds it, and the quantified variables
    have one character. *)
Let short (tree : ParseTree) : Prop :=
  forall node, node ∈ nodes tree ->
    node_ok signature junctorSymbols node /\
    forall v d, value node = Quant v d -> String.length v = 1.

Lemma short_children v ty cs sg child :
  short (Node v ty cs sg) -> child ∈ cs -> short child.
Proof.
  intros Hs Hc node Hnode. apply Hs, elem_of_nodes. right. by exists child.
Qed.

Lemma bound_are_variables tree :
  short tree ->
  exists vars bound,
    getVariables tree = Return vars /\ getBound tree = Return bound /\
    forall x, x ∈ bound -> x ∈ vars.
Proof.
  induction tree as [v ty cs sg IH] using ParseTree_children_ind. intros Hs.
  assert (Forall (fun c => exists vars bound,
                    getVariables c = Return vars /\ getBound c = Return bound /\
                    forall x, x ∈ bound -> x ∈ vars) cs) as Hcs.
  { rewrite Forall_forall in IH |- *. intros c Hc. apply IH; [done|].
    by eapply short_children. }
  clear IH.
  assert (Forall (fun c => exists vs, getVariables c = Return vs) cs) as Hvs.
  { eapply Forall_impl; [exact Hcs|]. intros c (vs & bs & ? & _). by exists vs. }
  assert (Forall (fun c => exists bs, getBound c = Return bs) cs) as Hbs.
  { eapply Forall_impl; [exact Hcs|]. intros c (vs & bs & _ & ? & _). by exists bs. }
  destruct (fold_each_getVariables cs [] Hvs) as (vars & Hvars & Hin_vars).
  destruct (fold_each_getBound cs [] Hbs) as (bound & Hbound & Hin_bound).
  assert (forall x, x ∈ bound -> x ∈ vars) as Hsub.
  { intros x [Hx|(c & bs & Hc & Hb & Hx)]%Hin_bound; [by apply elem_of_nil in Hx|].
    apply Hin_vars. right. rewrite Forall_forall in Hcs.
    destruct (Hcs c Hc) as (vs' & bs' & Hv' & Hb' & Hsub').
    exists c, vs'. split; [done|]. split; [done|]. apply Hsub'. congruence. }
  destruct (Hs (Node v ty cs sg)) as [[_ Hok] Hone]; [apply elem_of_nodes; by left|].
  cbn [type value children] in Hok, Hone.
  destruct (decide (ty = VARIABLE)) as [->|Hv].
  { destruct Hok as (name & -> & _ & ->). exists [Sym name], [].
    split; [done|]. split; [done|]. intros x Hx. by apply elem_of_nil in Hx. }
  destruct (decide (ty = CONSTANT)) as [->|Hc].
  { exists [], []. split; [done|]. split; [done|]. done. }
  rewrite getVariables_inner, Hvars by done.
  destruct (is_quantifier ty) eqn:Hq.
  - assert (exists x d child, v = Quant x d /\ cs = [child]) as (x & d & child & -> & ->).
    { destruct ty; try done; destruct Hok as (x & d & child & -> & _ & _ & -> & _);
        by exists x, d, child. }
    assert (getBound (Node (Quant x d) ty [child] sg)
            = (vars ← getBound child; Return (vars ++ iterate x))) as ->.
    { by destruct ty. }
    apply Forall_cons in Hbs as [[bs Hb] _]. rewrite Hb. cbn.
    unfold iterate. rewrite (chars_one x) by by eapply Hone.
    eexists _, _. split; [done|]. split; [done|].
    intros y [Hy|Hy]%elem_of_app.
    + assert (y ∈ vars) as Hyv.
      { apply Hsub, Hin_bound. right. exists child, bs. split; [left|done]. }
      destruct (bool_decide (Sym x ∈ vars)); [done|]. apply elem_of_app. by left.
    + cbn in Hy. apply list_elem_of_singleton in Hy as ->.
      destruct (bool_decide_reflect (Sym x ∈ vars)); [done|].
      apply elem_of_app. right. by apply list_elem_of_singleton.
  - cbn [mbind outcome_bind]. destruct (isTerm (Node v ty cs sg)) eqn:Hterm.
    + exists vars, []. split; [done|]. split; [by destruct ty|].
      intros x Hx. by apply elem_of_nil in Hx.
    + rewrite getBound_inner, Hbound by done. by exists vars, bound.
Qed.

Lemma elem_of_concat {A} (x : A) (ls : list (list A)) :
  x ∈ concat ls <-> exists l, x ∈ l /\ l ∈ ls.
Proof.
  induction ls as [|l ls IH]; cbn [concat].
  - split; [by intros ?%elem_of_nil|]. intros (l & _ & Hl). by apply elem_of_nil in Hl.
  - rewrite elem_of_app, IH. split.
    + intros [?|(l' & ? & ?)]; [exists l; split; [done|left]|].
      exists l'. split; [done|by right].
    + intros (l' & Hx & [->|?]%elem_of_cons); [by left|]. right. by exists l'.
Qed.

Lemma for_each_pure {A B} (body : A -> outcome B) (f : A -> B) xs :
  (forall x, body x = Return (f x)) -> for_each body xs = Return (f <$> xs).
Proof.
  intros Hb. induction xs as [|x xs IH]; [done|].
  cbn [for_each]. by rewrite Hb, IH.
Qed.

(** On such a tree the variables are the free and the bound ones. *)
Lemma free_and_bound_partition tree :
  short tree ->
  exists vars bound free,
    getVariables tree = Return vars /\ getBound tree = Return bound /\
    getFree tree = Return free /\
    forall x, x ∈ vars <-> x ∈ free \/ x ∈ bound.
Proof.
  intros Hs. destruct (bound_are_variables tree Hs) as (vars & bound & Hv & Hb & Hsub).
  exists vars, bound. unfold getFree. rewrite Hv. cbn.
  rewrite (for_each_pure _ (fun x => if bool_decide (x ∈ bound) then [] else [x]))
    by (intros x; by rewrite Hb).
  cbn. eexists. split; [done|]. split; [done|]. split; [done|].
  intros x. rewrite elem_of_concat. split.
  - intros Hx. destruct (decide (x ∈ bound)) as [|Hnot]; [by right|left].
    exists [x]. split; [by apply list_elem_of_singleton|].
    apply list_elem_of_fmap. exists x. by rewrite bool_decide_eq_false_2.
  - intros [(l & Hxl & Hl)|Hx]; [|by apply Hsub].
    apply list_elem_of_fmap in Hl as (y & -> & Hy).
    destruct (bool_decide (y ∈ bound)); [by apply elem_of_nil in Hxl|].
    by apply list_elem_of_singleton in Hxl as ->.
Qed.
End ShortNames.

(** The same for the trees returned by [parse]. *)
Lemma parsed_partition_short_names signature text onlyFormulas tree :
  parse_default text signature onlyFormulas = Return tree ->
  (forall node v d, node ∈ nodes tree -> value node = Quant v d ->
     String.length v = 1) ->
  exists vars bound free,
    getVariables tree = Return vars /\ getBound tree = Return bound /\
    getFree tree = Return free /\
    forall x, x ∈ vars <-> x ∈ free \/ x ∈ bound.
Proof.
  intros Hp Hone. unfold parse_default, parse in Hp.
  apply bind_Return in Hp as (t & Hp & Ht).
  destruct (onlyFormulas && negb (isFormula t)); [done|]. injection Ht as ->.
  apply (free_and_bound_partition signature _STANDARD_JUNCTOR_SYMBOLS).
  intros node Hnode. split; [by eapply _parse_nodes_ok|]. eauto.
Qed.

(** * Further properties of the code *)

(** ** The parser ends, on every text *)



(** ** What the parser returns *)

(** X2. Every tree that [parse] returns, for any precedence list and
    junctor table, is well formed at every node: the node carries the
    signature given to the parser; a predicate or functor node applies
    a symbol of its table to as many terms as the declared arity; a
    constant node names a declared constant and a variable node a name
    that passes the variable syntax check; a quantifier node holds a
    checked variable and domain over one formula; a junctor node holds
    its symbol over two formulas, a negation and a bracket node hold
    one formula.  With [onlyFormulas] the tree itself is a formula. *)
Theorem parse_returns_well_formed (signature : Signature)
    (precedence : list NodeType) (junctorSymbols : NodeType -> option string)
    (n : nat) (formula : string) (onlyFormulas : bool) (tree : ParseTree) :
  parse signature precedence junctorSymbols n formula onlyFormulas = Return tree ->
  (forall node, node ∈ nodes tree -> node_ok signature junctorSymbols node) /\
  (onlyFormulas = true -> isFormula tree = true).
Proof.
  unfold parse. intros Hp. apply bind_Return in Hp as (t & Hp & Ht).
  destruct (onlyFormulas && negb (isFormula t)) eqn:Hf; [done|].
  injection Ht as <-. split.
  - by eapply _parse_nodes_ok.
  - intros ->. cbn [andb] in Hf. by apply negb_false_iff in Hf.
Qed.

Lemma parse_returns_well_formed_witness :
  (forall node, node ∈ nodes Example.P_a ->
     node_ok Example.P_signature _STANDARD_JUNCTOR_SYMBOLS node) /\
  (true = true -> isFormula Example.P_a = true).
Proof.
  apply (parse_returns_well_formed Example.P_signature _STANDARD_PRECEDENCE
           _STANDARD_JUNCTOR_SYMBOLS 5 "P(a)" true Example.P_a).
  vm_compute. reflexivity.
Defined.

(** ** The variable syntax check, in full *)

Lemma re_match_first s e :
  re_match_here s = Some e ->
  exists c, PyStr.first s = Some c /\ PyStr.isalpha c = true.
Proof.
  unfold re_match_here. destruct s as [|c s]; [done|]. cbn [PyStr.span].
  destruct (PyStr.isalpha c) eqn:Hc; [|done]. intros _. by exists c.
Qed.

(** X3. [_varSyntaxCheck] accepts exactly the names that are a letter
    followed by letters and digits over their entire length and that are
    not a symbol of the signature: the empty name, a name that starts
    with a digit, a name with any other character and a declared
    symbol are all refused. *)
Theorem varSyntaxCheck_accepts_tokens (variable : string) (signature : Signature) :
  _varSyntaxCheck variable signature = true <->
  token variable /\ Signature_contains signature variable = false.
Proof.
  split.
  - intros Hc. destruct (_varSyntaxCheck_true _ _ Hc) as [Hall Hsig].
    split; [|done]. split; [|done].
    unfold _varSyntaxCheck in Hc.
    destruct (re_search variable) as [[b e]|] eqn:Hs; [|done].
    apply andb_true_iff in Hc as [[Hb _]%andb_true_iff _].
    apply Nat.eqb_eq in Hb as ->.
    apply re_search_from_start in Hs as [_ Hs].
    by eapply re_match_first, Hs.
  - intros [Ht Hsig]. by rewrite _varSyntaxCheck_token, Hsig.
Qed.

Lemma varSyntaxCheck_accepts_tokens_witness :
  (_varSyntaxCheck "x1" Example.P_signature = true <->
   token "x1" /\ Signature_contains Example.P_signature "x1" = false) /\
  _varSyntaxCheck "x1" Example.P_signature = true /\
  _varSyntaxCheck "1x" Example.P_signature = false /\
  _varSyntaxCheck "" Example.P_signature = false /\
  _varSyntaxCheck "a" Example.P_signature = false.
Proof.
  split; [apply (varSyntaxCheck_accepts_tokens "x1" Example.P_signature)|].
  repeat split; vm_compute; reflexivity.
Defined.

(** ** Equality of parse trees and membership in a knowledge base *)

Lemma eq_children_spec (cs cs' : list ParseTree) :
  Forall (fun c => forall c', ParseTree_eq c c' = true <-> c = c') cs ->
  length cs = length cs' ->
  eq_children ParseTree_eq cs cs' = true <-> cs = cs'.
Proof.
  intros Hcs. revert cs'. induction Hcs as [|c cs Hc _ IH]; intros [|c' cs'] Hlen;
    try done.
  cbn [eq_children]. injection Hlen as Hlen.
  destruct (ParseTree_eq c c') eqn:E; cbn [negb].
  - apply Hc in E as ->. rewrite (IH cs' Hlen). split; [by intros ->|by intros [= ->]].
  - split; [done|]. intros [= -> _]. apply not_true_iff_false in E. destruct E.
    by apply Hc.
Qed.

Lemma ParseTree_eq_spec (self other : ParseTree) :
  ParseTree_eq self other = true <-> self = other.
Proof.
  revert other. induction self as [v ty cs sg IH] using ParseTree_children_ind.
  intros [v' ty' cs' sg']. cbn [ParseTree_eq].
  destruct (bool_decide_reflect (v = v')) as [->|Hv]; cbn [andb negb];
    [|split; [done|by intros [= -> _ _ _]]].
  destruct (bool_decide_reflect (ty = ty')) as [->|Hty]; cbn [andb negb];
    [|split; [done|by intros [= -> _ _]]].
  destruct (Signature_eq sg sg') eqn:Hsg; cbn [negb].
  - apply Signature_eq_true in Hsg as ->.
    destruct (Nat.eqb_spec (length cs) (length cs')) as [Hlen|Hlen]; cbn [negb].
    + rewrite (eq_children_spec cs cs' IH Hlen).
      split; [by intros ->|by intros [= ->]].
    + split; [done|]. by intros [= ->].
  - split; [done|]. intros [= ->]. apply not_true_iff_false in Hsg. destruct Hsg.
    by apply Signature_eq_true.
Qed.

(** X4. [ParseTree.__eq__] holds exactly between equal trees: the same
    value, kind and signature at the root and, child by child, equal
    subtrees; trees that differ in one node anywhere compare
    unequal. *)
Theorem ParseTree_eq_is_equality (self other : ParseTree) :
  ParseTree_eq self other = true <-> self = other.
Proof. apply ParseTree_eq_spec. Qed.

Lemma ParseTree_eq_is_equality_witness :
  (ParseTree_eq Example.P_a Example.P_a = true <-> Example.P_a = Example.P_a) /\
  ParseTree_eq Example.P_a
    (Node (Sym "P") PREDICATE
          [Node (Sym "a") CONSTANT [] Example.no_signature] Example.P_signature)
  = false.
Proof.
  split; [apply (ParseTree_eq_is_equality Example.P_a Example.P_a)|].
  vm_compute. reflexivity.
Defined.

Lemma list_contains_spec trees x :
  list_contains trees x = true <-> x ∈ trees.
Proof.
  unfold list_contains. rewrite existsb_exists. split.
  - intros (e & Hin & He%ParseTree_eq_spec). subst. by apply list_elem_of_In.
  - intros Hin. exists x. split; [by apply list_elem_of_In|].
    by apply ParseTree_eq_spec.
Qed.

Lemma KnowledgeBase_contains_spec (self : KnowledgeBase) (formula : Formula) :
  exists answer,
    KnowledgeBase_contains self formula = Return answer /\
    (answer = true <->
     match formula with
     | Parsed tree => tree ∈ parseTrees self
     | Text text =>
         exists tree,
           parse_default text (kb_signature self) true = Return tree /\
           tree ∈ parseTrees self
     end).
Proof.
  destruct formula as [tree|text]; cbn [KnowledgeBase_contains].
  - eexists. split; [done|]. apply list_contains_spec.
  - pose proof (parse_default_ended text (kb_signature self) true) as He.
    destruct (parse_default text (kb_signature self) true) as [t|e|]; [| |done].
    + eexists. split; [done|]. rewrite list_contains_spec. split; [by exists t|].
      by intros (t' & [= <-] & Hin).
    + exists false. split; [done|]. split; [done|]. by intros (t' & ? & _).
Qed.

(** X5. [KnowledgeBase.__contains__] never raises, and it answers
    [True] exactly for a parse tree that is in the list of formulas, or
    for a text whose parse as a formula under the knowledge base's
    signature is in the list; for a text that does not parse as a
    formula the answer is [False]. *)
Theorem contains_answers (self : KnowledgeBase) (formula : Formula) :
  exists answer,
    KnowledgeBase_contains self formula = Return answer /\
    (answer = true <->
     match formula with
     | Parsed tree => tree ∈ parseTrees self
     | Text text =>
         exists tree,
           parse_default text (kb_signature self) true = Return tree /\
           tree ∈ parseTrees self
     end).
Proof. apply KnowledgeBase_contains_spec. Qed.

Lemma contains_answers_witness :
  exists answer,
    KnowledgeBase_contains Example.P_kb (Text "P(a)") = Return answer /\
    (answer = true <->
     exists tree,
       parse_default "P(a)" (kb_signature Example.P_kb) true = Return tree /\
       tree ∈ parseTrees Example.P_kb).
Proof. apply (contains_answers Example.P_kb (Text "P(a)")). Defined.

(** X6. What [add] has accepted is contained afterwards, and whatever
    was contained stays contained: after a call of [add] that returns,
    [__contains__] answers [True] for the formula added and for every
    formula for which it answered [True] before, and the length of the
    knowledge base has grown by one; after a call that raises, the
    answers and the length are as before. *)
Theorem add_then_contains (self self' : KnowledgeBase) (formula : Formula)
    (result : outcome unit) :
  add self formula = (self', result) ->
  match result with
  | Return _ =>
      KnowledgeBase_contains self' formula = Return true /\
      KnowledgeBase_len self' = S (KnowledgeBase_len self) /\
      forall other,
        KnowledgeBase_contains self other = Return true ->
        KnowledgeBase_contains self' other = Return true
  | _ => self' = self
  end.
Proof.
  assert (forall tree other,
            KnowledgeBase_contains self other = Return true ->
            KnowledgeBase_contains (append_tree self tree) other = Return true)
    as Hkeep.
  { intros tree other Hc.
    destruct (KnowledgeBase_contains_spec self other) as (b & Hb & Hiff).
    destruct (KnowledgeBase_contains_spec (append_tree self tree) other)
      as (b' & Hb' & Hiff').
    rewrite Hb in Hc. injection Hc as ->. rewrite Hb'. f_equal. apply Hiff'.
    destruct Hiff as [Hin _]. specialize (Hin eq_refl).
    destruct other as [t|text]; cbn [append_tree parseTrees kb_signature].
    - apply elem_of_app. by left.
    - destruct Hin as (t & Hp & Hin). exists t. split; [done|].
      apply elem_of_app. by left. }
  destruct formula as [tree|text]; cbn [add].
  - destruct (Signature_eq _ _); cbn [negb]; intros [= <- <-]; [|done].
    split; [|split; [|by apply Hkeep]].
    + cbn [KnowledgeBase_contains append_tree parseTrees]. f_equal.
      apply list_contains_spec, elem_of_app. right. by left.
    + unfold KnowledgeBase_len. cbn. rewrite List.length_app. cbn. lia.
  - destruct (parse_default text (kb_signature self) true) as [t|e|] eqn:Hp.
    + intros [= <- <-]. split; [|split; [|by apply Hkeep]].
      * cbn [KnowledgeBase_contains append_tree parseTrees kb_signature].
        rewrite Hp. f_equal. apply list_contains_spec, elem_of_app. right. by left.
      * unfold KnowledgeBase_len. cbn. rewrite List.length_app. cbn. lia.
    + destruct e; by intros [= <- <-].
    + by intros [= <- <-].
Qed.

Lemma add_then_contains_witness :
  KnowledgeBase_contains
    (mkKnowledgeBase Example.P_signature [Example.P_a; Example.P_a]) (Text "P(a)")
  = Return true /\
  KnowledgeBase_len (mkKnowledgeBase Example.P_signature [Example.P_a; Example.P_a])
  = S (KnowledgeBase_len Example.P_kb) /\
  forall other,
    KnowledgeBase_contains Example.P_kb other = Return true ->
    KnowledgeBase_contains
      (mkKnowledgeBase Example.P_signature [Example.P_a; Example.P_a]) other
    = Return true.
Proof.
  apply (add_then_contains Example.P_kb
           (mkKnowledgeBase Example.P_signature [Example.P_a; Example.P_a])
           (Text "P(a)") (Return ())).
  vm_compute. reflexivity.
Defined.

(** ** Building a knowledge base *)

Lemma parse_default_signature text signature onlyFormulas tree :
  parse_default text signature onlyFormulas = Return tree ->
  ParseTree_signature tree = signature.
Proof.
  unfold parse_default, parse. intros Hp.
  apply bind_Return in Hp as (t & Hp & Ht).
  destruct (onlyFormulas && negb (isFormula t)); [done|]. injection Ht as ->.
  eapply _parse_nodes_ok in Hp as [Hsig _]; [done|].
  apply elem_of_nodes. by left.
Qed.

Lemma add_Return self formula self' u :
  add self formula = (self', Return u) ->
  exists tree,
    self' = append_tree self tree /\
    ParseTree_signature tree = kb_signature self /\
    match formula with
    | Parsed given => given = tree
    | Text text => parse_default text (kb_signature self) true = Return tree
    end.
Proof.
  destruct formula as [tree|text]; cbn [add].
  - destruct (Signature_eq _ _) eqn:E; cbn [negb]; intros [= <-].
    exists tree. by apply Signature_eq_true in E.
  - destruct (parse_default text (kb_signature self) true) as [t|e|] eqn:Hp.
    + intros [= <-]. exists t. split; [done|]. split; [|done].
      by eapply parse_default_signature.
    + by destruct e.
    + done.
Qed.

Lemma add_failed self formula self' result :
  add self formula = (self', result) ->
  (forall u, result <> Return u) -> self' = self.
Proof.
  destruct formula as [tree|text]; cbn [add].
  - destruct (Signature_eq _ _); cbn [negb]; intros [= <- <-]; [|done].
    intros Hr. by destruct (Hr ()).
  - destruct (parse_default text (kb_signature self) true) as [t|e|].
    + intros [= <- <-] Hr. by destruct (Hr ()).
    + destruct e; by intros [= <- <-].
    + by intros [= <- <-].
Qed.

Lemma add_all_spec self formulas kb result :
  add_all self formulas = (kb, result) ->
  kb_signature kb = kb_signature self /\
  exists accepted rest new,
    formulas = accepted ++ rest /\
    parseTrees kb = parseTrees self ++ new /\
    Forall2 (fun formula tree =>
               ParseTree_signature tree = kb_signature self /\
               match formula with
               | Parsed given => given = tree
               | Text text =>
                   parse_default text (kb_signature self) true = Return tree
               end) accepted new /\
    match result with
    | Return _ => rest = []
    | _ => exists formula rest', rest = formula :: rest' /\
                                 add kb formula = (kb, result)
    end.
Proof.
  revert self; induction formulas as [|f fs IH]; intros self; cbn [add_all].
  - intros [= <- <-]. split; [done|]. exists [], [], [].
    split; [done|]. split; [by rewrite app_nil_r|]. split; [constructor|done].
  - destruct (add self f) as [self' r] eqn:Hadd. destruct r as [u|e|].
    + intros Hall. apply add_Return in Hadd as (t & -> & Hsig & Ht).
      apply IH in Hall as (Hkb & accepted & rest & new & -> & Hnew & Hacc & Hres).
      split; [done|]. exists (f :: accepted), rest, (t :: new).
      cbn [append_tree parseTrees kb_signature] in *.
      split; [done|]. split; [by rewrite Hnew, <- app_assoc|].
      split; [by constructor|done].
    + intros [= <- <-].
      pose proof (add_failed _ _ _ _ Hadd ltac:(done)) as ->.
      split; [done|]. exists [], (f :: fs), [].
      split; [done|]. split; [by rewrite app_nil_r|].
      split; [constructor|by exists f, fs].
    + intros [= <- <-].
      pose proof (add_failed _ _ _ _ Hadd ltac:(done)) as ->.
      split; [done|]. exists [], (f :: fs), [].
      split; [done|]. split; [by rewrite app_nil_r|].
      split; [constructor|by exists f, fs].
Qed.

(** X7. Constructing a knowledge base.  Without a list of formulas the
    constructor raises a TypeError, by iterating over [None].  With a
    list, it returns exactly when [add] accepts every formula in turn:
    the knowledge base then holds one tree per formula, in the order
    given (the tree itself for a parse tree, the parse as a formula for
    a text), and every tree carries the signature of the knowledge
    base.  Otherwise it raises what [add] raises on the first formula
    that is not accepted, the formulas before it having been
    accepted. *)
Theorem KnowledgeBase_init_spec (signature : Signature) :
  (forall kb result,
     KnowledgeBase_init signature None = (kb, result) ->
     exists what, result = Raise (TypeError what)) /\
  (forall formulas kb result,
     KnowledgeBase_init signature (Some formulas) = (kb, result) ->
     kb_signature kb = signature /\
     Forall (fun tree => ParseTree_signature tree = signature) (parseTrees kb) /\
     exists accepted rest,
       formulas = accepted ++ rest /\
       Forall2 (fun formula tree =>
                  match formula with
                  | Parsed given => given = tree
                  | Text text => parse_default text signature true = Return tree
                  end) accepted (parseTrees kb) /\
       match result with
       | Return _ => rest = []
       | _ => exists formula rest', rest = formula :: rest' /\
                                    add kb formula = (kb, result)
       end).
Proof.
  split.
  - intros kb result [= <- <-]. eauto.
  - intros formulas kb result Hinit. unfold KnowledgeBase_init in Hinit.
    apply add_all_spec in Hinit
      as (Hsig & accepted & rest & new & -> & Hnew & Hacc & Hres).
    cbn [kb_signature parseTrees app] in *. rewrite Hnew.
    split; [done|]. split.
    + eapply Forall2_Forall_r; [exact Hacc|].
      apply Forall_forall. by intros f _ t [? _].
    + exists accepted, rest. split; [done|]. split; [|done].
      eapply Forall2_impl; [exact Hacc|]. cbn. by intros f t [_ ?].
Qed.

Lemma KnowledgeBase_init_spec_witness :
  let kb := mkKnowledgeBase Example.P_signature [Example.P_a; Example.P_a] in
  (exists what,
     @Raise unit (TypeError "'NoneType' object is not iterable")
     = Raise (TypeError what)) /\
  kb_signature kb = Example.P_signature /\
  Forall (fun tree => ParseTree_signature tree = Example.P_signature)
         (parseTrees kb) /\
  exists accepted rest,
    [Text "P(a)"; Parsed Example.P_a] = accepted ++ rest /\
    Forall2 (fun formula tree =>
               match formula with
               | Parsed given => given = tree
               | Text text =>
                   parse_default text Example.P_signature true = Return tree
               end) accepted (parseTrees kb) /\
    rest = [].
Proof.
  intros kb. destruct (KnowledgeBase_init_spec Example.P_signature) as [Hnone Hsome].
  split.
  - apply (Hnone (mkKnowledgeBase Example.P_signature [])). reflexivity.
  - apply (Hsome [Text "P(a)"; Parsed Example.P_a] kb (Return ())).
    vm_compute. reflexivity.
Defined.

(** ** Interpreting symbols *)

(** X8. Interpreting a symbol after [extend]: the structure still comes
    first, so a substitution for a symbol that the structure maps is
    never seen; otherwise the substitution gives the value of the
    symbols it binds, shadowing an earlier variable or domain of the
    same name, and every other symbol is interpreted as before. *)
Theorem interpret_extend `{PyRuntime} (self : Interpretation)
    (substitution : gmap string Obj) (symbol : string) :
  interpret (extend self substitution) symbol =
  match mappings (structure self) !! symbol with
  | Some v => Return v
  | None =>
      match substitution !! symbol with
      | Some v => Return v
      | None => interpret self symbol
      end
  end.
Proof.
  rewrite !interpret_table. cbn [extend structure variableAssignment domainAssignment].
  rewrite lookup_dict_update.
  destruct (mappings (structure self) !! symbol); [done|].
  by destruct (substitution !! symbol).
Qed.

Lemma elem_of_keys {V} (d : gmap string V) (key : string) :
  key ∈ (fst <$> map_to_list d) <-> dict_contains d key = true.
Proof.
  unfold dict_contains. rewrite list_elem_of_fmap. split.
  - intros ([k v] & -> & Hin). apply elem_of_map_to_list in Hin. cbn.
    by rewrite Hin.
  - destruct (d !! key) as [v|] eqn:Hk; [|done]. intros _.
    exists (key, v). split; [done|]. by apply elem_of_map_to_list.
Qed.

(** X9. The property [complete] of a structure is [True] exactly when
    the structure maps every symbol of its signature: every predicate,
    every functor and every constant.  Every interpretation over a
    complete structure then interprets each symbol of the signature as
    the structure maps it, whatever its variables and domains are. *)
Theorem complete_structure `{PyRuntime} (self : Structure) :
  (Structure_complete self = true <->
   forall symbol,
     Signature_contains (structure_signature self) symbol = true ->
     Structure_contains self symbol = true) /\
  (Structure_complete self = true ->
   forall symbol variables domains,
     Signature_contains (structure_signature self) symbol = true ->
     exists v, mappings self !! symbol = Some v /\
       interpret (mkInterpretation self variables domains) symbol = Return v).
Proof.
  assert (Structure_complete self = true <->
          forall symbol,
            Signature_contains (structure_signature self) symbol = true ->
            Structure_contains self symbol = true) as Hiff.
  { unfold Structure_complete, Signature_contains, Structure_contains.
    rewrite !andb_true_iff, !forallb_forall. split.
    - intros [[Hp Hf] Hc] symbol [[Hs|Hs]%orb_true_iff|Hs]%orb_true_iff.
      + by apply Hp, list_elem_of_In, elem_of_keys.
      + by apply Hf, list_elem_of_In, elem_of_keys.
      + apply Hc, list_elem_of_In. by apply bool_decide_eq_true in Hs.
    - intros Hall. repeat split; intros symbol Hin%list_elem_of_In; apply Hall.
      + apply elem_of_keys in Hin. by rewrite Hin.
      + apply elem_of_keys in Hin. rewrite Hin. by rewrite orb_true_r.
      + rewrite (bool_decide_eq_true_2 _ Hin). by rewrite orb_true_r. }
  split; [done|]. intros Hc symbol variables domains Hs.
  pose proof (proj1 Hiff Hc symbol Hs) as Hm.
  unfold Structure_contains, dict_contains in Hm.
  rewrite interpret_table. cbn [structure].
  destruct (mappings self !! symbol) as [v|]; [|done]. by exists v.
Qed.

Lemma complete_structure_witness :
  (@Structure_complete Example.runtime Example.P_structure = true <->
   forall symbol,
     Signature_contains Example.P_signature symbol = true ->
     Structure_contains Example.P_structure symbol = true) /\
  exists v,
    mappings Example.P_structure !! "a"%string = Some v /\
    interpret (mkInterpretation Example.P_structure
                 {[ "a"%string := Example.Tensor [5%Z] ]} ∅) "a"
    = Return v.
Proof.
  destruct (@complete_structure Example.runtime Example.P_structure) as [Hiff Hall].
  split; [exact Hiff|]. apply Hall; reflexivity.
Defined.

(** ** Evaluating a parsed tree *)

Lemma no_structural_bind {A B} (m : outcome A) (k : A -> outcome B) :
  no_structural_error m -> (forall a, no_structural_error (k a)) ->
  no_structural_error (m ≫= k).
Proof. destruct m; cbn; auto. Qed.

Lemma no_structural_for_each {A B} (body : A -> outcome B) xs :
  Forall (fun x => no_structural_error (body x)) xs ->
  no_structural_error (for_each body xs).
Proof.
  induction 1 as [|x xs Hx _ IH]; [done|]. cbn [for_each].
  apply no_structural_bind; [done|]. intros r.
  apply no_structural_bind; [done|]. by intros rs.
Qed.

Lemma no_structural_interpret `{PyRuntime} (self : Interpretation) symbol :
  no_structural_error (interpret self symbol).
Proof.
  rewrite interpret_table. repeat case_match; try done.
  cbn. unfold structural. by intros [|].
Qed.

Section EvaluateParsed.
Context `{PyRuntime} (signature : Signature)
        (junctorSymbols : NodeType -> option string) (junctors : OperatorSet).
Hypothesis Hquiet : quiet junctors.

Lemma evaluate_no_structural_error tree :
  (forall node, node ∈ nodes tree -> node_ok signature junctorSymbols node) ->
  forall interpretation,
    no_structural_error (evaluate tree interpretation junctors).
Proof.
  destruct Hquiet as (Hcall & Hshape & Hslice & Hconcat & Hneg & Htnorm
                      & Htconorm & Himpl & Huniv & Hexist).
  induction tree as [v ty cs sg IH] using ParseTree_children_ind. intros Hok.
  assert (Forall (fun c => forall interpretation,
                    no_structural_error (evaluate c interpretation junctors)) cs)
    as Hcs.
  { rewrite Forall_forall in IH |- *. intros c Hc. apply IH; [done|].
    intros node Hnode. apply Hok, elem_of_nodes. right. by exists c. }
  clear IH. destruct (Hok (Node v ty cs sg)) as [_ Hroot];
    [apply elem_of_nodes; by left|].
  cbn [type value children] in Hroot. intros interpretation.
  destruct ty; cbn [evaluate].
  - (* UNIVERSAL *)
    destruct Hroot as (x & d & child & -> & _ & _ & -> & _).
    apply Forall_cons in Hcs as [Hchild _]. cbn [value_index]. cbn.
    apply no_structural_bind; [apply no_structural_interpret|]. intros domain.
    apply no_structural_bind; [done|]. intros n.
    apply no_structural_bind.
    + apply no_structural_for_each, Forall_forall. intros i _.
      apply no_structural_bind; [done|]. by intros variableValue.
    + intros results. by apply no_structural_bind.
  - (* EXISTENTIAL *)
    destruct Hroot as (x & d & child & -> & _ & _ & -> & _).
    apply Forall_cons in Hcs as [Hchild _]. cbn [value_index]. cbn.
    apply no_structural_bind; [apply no_structural_interpret|]. intros domain.
    apply no_structural_bind; [done|]. intros n.
    apply no_structural_bind.
    + apply no_structural_for_each, Forall_forall. intros i _.
      apply no_structural_bind; [done|]. by intros variableValue.
    + intros results. by apply no_structural_bind.
  - (* IMPLICATION *)
    destruct Hroot as (sym & l & r & _ & _ & -> & _).
    apply Forall_cons in Hcs as [Hl [Hr _]%Forall_cons].
    apply no_structural_bind; [done|]. intros a.
    by apply no_structural_bind.
  - (* DISJUNCTION *)
    destruct Hroot as (sym & l & r & _ & _ & -> & _).
    apply Forall_cons in Hcs as [Hl [Hr _]%Forall_cons].
    apply no_structural_bind; [done|]. intros a.
    by apply no_structural_bind.
  - (* CONJUNCTION *)
    destruct Hroot as (sym & l & r & _ & _ & -> & _).
    apply Forall_cons in Hcs as [Hl [Hr _]%Forall_cons].
    apply no_structural_bind; [done|]. intros a.
    by apply no_structural_bind.
  - (* NEGATION *)
    destruct Hroot as (sym & child & _ & _ & -> & _).
    apply Forall_cons in Hcs as [Hchild _].
    by apply no_structural_bind.
  - (* PREDICATE *)
    destruct Hroot as (symbol & -> & _).
    apply no_structural_bind.
    { apply no_structural_for_each. eapply Forall_impl; [exact Hcs|].
      cbn. auto. }
    intros vs.
    apply no_structural_bind; [apply no_structural_interpret|done].
  - (* VARIABLE *)
    destruct Hroot as (name & -> & _). apply no_structural_interpret.
  - (* CONSTANT *)
    destruct Hroot as (name & -> & _). apply no_structural_interpret.
  - (* BRACKET *)
    destruct Hroot as (child & _ & -> & _).
    by apply Forall_cons in Hcs as [Hchild _].
  - (* FUNCTOR *)
    destruct Hroot as (symbol & -> & _).
    apply no_structural_bind.
    { apply no_structural_for_each. eapply Forall_impl; [exact Hcs|].
      cbn. auto. }
    intros vs.
    apply no_structural_bind; [apply no_structural_interpret|done].
Qed.
End EvaluateParsed.

Lemma for_each_rows_of_no_structural_error args :
  no_structural_error (for_each Example.rows_of args).
Proof.
  apply no_structural_for_each, Forall_forall. intros [rows|f] _; [done|].
  cbn. unfold structural. by intros [|].
Qed.

Lemma plain_quiet : @quiet Example.runtime Example.plain.
Proof.
  assert (forall t, no_structural_error (Example.rows_of t)) as Hrows.
  { intros [rows|f]; [done|]. cbn. unfold structural. by intros [|]. }
  repeat split; try done.
  - intros [rows|g] args; cbn.
    + unfold structural. by intros [|].
    + apply no_structural_bind; [apply for_each_rows_of_no_structural_error|done].
  - intros t. cbn. by apply no_structural_bind.
  - intros t i j. cbn. by apply no_structural_bind.
  - intros [|t ts]; cbn.
    + unfold structural. by intros [|].
    + apply (no_structural_bind (for_each Example.rows_of (t :: ts)));
        [apply for_each_rows_of_no_structural_error|done].
Qed.

(** X10. Evaluating a tree that the parser returned never fails for a
    reason of the tree's shape.  If the tensor operations and the
    operators of the operator set themselves return or raise something
    other than an IndexError or the TypeError of an unhashable list,
    then, under every interpretation, [evaluate] on a tree returned by
    [parse] returns or raises something other than these two: no child
    and no element of a quantifier's pair is ever missing, and no
    quantifier's pair is ever looked up as a symbol.  What is left to
    go wrong is a symbol that is not interpretable and the tensor
    operations. *)
Theorem evaluate_parsed_no_structural_error `{PyRuntime} (signature : Signature)
    (precedence : list NodeType) (junctorSymbols : NodeType -> option string)
    (n : nat) (formula : string) (onlyFormulas : bool) (tree : ParseTree)
    (junctors : OperatorSet) (interpretation : Interpretation) :
  quiet junctors ->
  parse signature precedence junctorSymbols n formula onlyFormulas = Return tree ->
  no_structural_error (evaluate tree interpretation junctors).
Proof.
  intros Hquiet Hp. unfold parse in Hp.
  apply bind_Return in Hp as (t & Hp & Ht).
  destruct (onlyFormulas && negb (isFormula t)); [done|]. injection Ht as ->.
  apply (evaluate_no_structural_error signature junctorSymbols junctors Hquiet).
  by eapply _parse_nodes_ok.
Qed.

Lemma evaluate_parsed_no_structural_error_witness :
  no_structural_error
    (@evaluate Example.runtime Example.P_a Example.P_interpretation Example.plain).
Proof.
  apply (@evaluate_parsed_no_structural_error Example.runtime Example.P_signature
           _STANDARD_PRECEDENCE _STANDARD_JUNCTOR_SYMBOLS 5 "P(a)" true
           Example.P_a Example.plain Example.P_interpretation).
  - exact plain_quiet.
  - vm_compute. reflexivity.
Defined.

(** ** Queries *)

(** X11. [Model.query] on a text parses it with the signature of the
    knowledge base and evaluates the tree under the model's
    interpretation and operators; when the parser raises, the query
    raises the ValueError that names the text.  A query for a text
    that [add] accepted into the knowledge base evaluates the very tree
    that [add] stored. *)
Theorem query_parses_then_evaluates `{PyRuntime} (self : Model) (text : string) :
  ((exists tree,
      parse_default text (kb_signature (knowledgeBase self)) false = Return tree /\
      query self (Text text) = query self (Parsed tree)) \/
   (exists msg,
      parse_default text (kb_signature (knowledgeBase self)) false
      = Raise (ParseError msg) /\
      query self (Text text) = QueryValueError text (ParseError msg))) /\
  (forall before u,
     add before (Text text) = (knowledgeBase self, Return u) ->
     exists tree,
       parseTrees (knowledgeBase self) = parseTrees before ++ [tree] /\
       query self (Text text)
       = evaluated (evaluate tree (model_interpretation self) (operatorSet self))).
Proof.
  split.
  - pose proof (parse_default_ended text (kb_signature (knowledgeBase self)) false)
      as He.
    cbn [query].
    destruct (parse_default text (kb_signature (knowledgeBase self)) false)
      as [t|e|]; [left; by exists t| |done].
    destruct e; try done. right. eauto.
  - intros before u Hadd. apply add_Return in Hadd as (tree & Hkb & _ & Hp).
    exists tree. cbn [query]. rewrite Hkb. split; [done|].
    cbn [append_tree kb_signature].
    unfold parse_default, parse in Hp |- *.
    apply bind_Return in Hp as (t & Ht & Hf). rewrite Ht. cbn.
    destruct (isFormula t); cbn in Hf; [|done]. by injection Hf as ->.
Qed.

Lemma query_parses_then_evaluates_witness :
  let self := @mkModel Example.runtime
                (mkKnowledgeBase Example.P_signature [Example.P_a; Example.P_a])
                Example.P_interpretation Example.plain in
  exists tree,
    parseTrees (knowledgeBase self) = parseTrees Example.P_kb ++ [tree] /\
    query self (Text "P(a)")
    = evaluated (evaluate tree (model_interpretation self) (operatorSet self)).
Proof.
  intros self.
  destruct (@query_parses_then_evaluates Example.runtime self "P(a)") as [_ Hadd].
  apply (Hadd Example.P_kb ()). vm_compute. reflexivity.
Defined.

(** ** White space around a text *)






(** ** Brackets and negation *)

Lemma slice_nothing (s : string) : PyStr.slice s 0 (Some 0%Z) = EmptyString.
Proof.
  unfold PyStr.slice, PyStr.clamp. cbn [Z.ltb Z.compare].
  by replace (Z.to_nat (Z.min 0 _ - Z.min 0 _)) with 0 by lia.
Qed.

Lemma slice_rest (s : string) (b : nat) :
  b <= String.length s -> PyStr.slice s (Z.of_nat b) None = PyStr.str_drop b s.
Proof.
  intros Hb. unfold PyStr.slice, PyStr.clamp.
  destruct (Z.ltb_spec (Z.of_nat b) 0) as [|_]; [lia|].
  replace (Z.to_nat (Z.min (Z.of_nat b) _)) with b by lia.
  replace (Z.to_nat _) with (String.length (PyStr.str_drop b s)).
  - apply str_take_all.
  - rewrite PyStrFacts.length_str_drop. lia.
Qed.

Section Brackets.
Context (signature : Signature) (inner : string).
Hypothesis inner_unclosed : unclosed inner = true.
Hypothesis no_empty_predicate : predicates signature !! EmptyString = None.
Hypothesis no_empty_functor : functors signature !! EmptyString = None.

Let formula : string := "(" +:+ inner +:+ ")".

Hypothesis not_constant : formula ∉ constants signature.

Abbreviation std_loop := (_parse_loop signature _STANDARD_JUNCTOR_SYMBOLS).
Abbreviation std_parse :=
  (_parse signature _STANDARD_PRECEDENCE _STANDARD_JUNCTOR_SYMBOLS).

Lemma bracket_head : formula = String "(" (inner +:+ ")").
Proof. reflexivity. Qed.

Lemma bracket_strip : PyStr.strip formula = formula.
Proof.
  apply (strip_id _ "(" ")"); try done.
  unfold formula. rewrite !last_app by (repeat apply app_nonempty_r; done). done.
Qed.

Lemma bracket_no_junctor k key' :
  Ascii.eqb "(" k = false -> Ascii.eqb ")" k = false ->
  _findTopLevel formula (String k key') = (-1)%Z.
Proof.
  intros Hopen Hclose. unfold _findTopLevel. rewrite bracket_head.
  cbn [_findTopLevel_loop PyStr.startswith]. rewrite Hopen.
  cbn [Ascii.eqb Bool.eqb andb].
  by apply (_findTopLevel_loop_unclosed _ _ _ 0).
Qed.

Lemma bracket_not_variable : _varSyntaxCheck formula signature = false.
Proof.
  destruct (_varSyntaxCheck _ _) eqn:Hcheck; [|done].
  by apply _varSyntaxCheck_true in Hcheck as [Hall _].
Qed.

Lemma bracket_loop rec :
  std_loop rec formula
    [IMPLICATION; DISJUNCTION; CONJUNCTION; NEGATION; UNIVERSAL;
     EXISTENTIAL; PREDICATE; FUNCTOR; CONSTANT; VARIABLE; BRACKET]
  = (child ← rec inner;
     if negb (isFormula child) then
       Raise (ParseError (ParenthesiseNonFormula formula))
     else Return (Node (Sym "()") BRACKET [child] signature)).
Proof.
  rewrite std_loop_junctors, !bracket_no_junctor by done.
  rewrite Z.eqb_refl. cbn [negb _parse_loop _parse_type].
  rewrite negation_skip by done.
  assert (forall kind, is_quantifier kind = true ->
            _parse_quantifier signature rec formula kind = None) as Hq.
  { intros kind Hkind. unfold _parse_quantifier. rewrite bracket_head.
    cbn [PyStr.first PyStr.is_char Ascii.eqb Bool.eqb negb].
    rewrite !andb_true_r. by destruct kind. }
  rewrite !Hq by done.
  assert (forall kind, _parse_application signature rec formula kind = None)
    as Happ.
  { intros kind. unfold _parse_application.
    assert (PyStr.find formula "(" = 0%Z) as -> by done.
    cbn [Z.eqb]. rewrite slice_nothing.
    destruct (bool_decide (kind = PREDICATE));
      by rewrite ?no_empty_predicate, ?no_empty_functor. }
  rewrite !Happ.
  rewrite bool_decide_eq_false_2 by done.
  rewrite bracket_not_variable. unfold _parse_bracket.
  assert (PyStr.first formula = Some "("%char) as -> by done.
  assert (PyStr.last formula = Some ")"%char) as ->.
  { unfold formula. rewrite !last_app by (repeat apply app_nonempty_r; done).
    done. }
  cbn [PyStr.is_char Ascii.eqb Bool.eqb negb].
  by rewrite (slice_arguments "" inner : PyStr.slice formula 1 (Some (-1)%Z) = inner).
Qed.

Lemma bracket_parse onlyFormulas :
  parse_default formula signature onlyFormulas
  = (child ← parse_default inner signature false;
     if negb (isFormula child) then
       Raise (ParseError (ParenthesiseNonFormula formula))
     else Return (Node (Sym "()") BRACKET [child] signature)).
Proof.
  unfold parse_default at 1. unfold parse. rewrite std_parse_S.
  cbn zeta. rewrite bracket_strip.
  assert (String.eqb formula "" = false) as -> by done.
  rewrite bracket_loop, std_parse_shorter.
  - destruct (parse_default inner signature false) as [child| |]; [|done..].
    cbn. destruct (isFormula child); [|done]. cbn. by rewrite andb_false_r.
  - unfold formula. rewrite !length_app. cbn. lia.
Qed.
End Brackets.

(** X13. A text in brackets.  When the text between the brackets
    closes no bracket it did not open, the empty symbol is neither a
    predicate nor a functor and the bracketed text is not itself a
    declared constant, parsing the bracketed text is parsing the inner
    text: a ParseError of the inner text is raised as it is, an inner
    term raises the ParseError of a bracketed non-formula, and an inner
    formula is wrapped in a bracket node.  The evaluator gives a
    bracket node the value of its child. *)
Theorem brackets_are_transparent `{PyRuntime} (signature : Signature)
    (inner : string) (onlyFormulas : bool) :
  unclosed inner = true ->
  predicates signature !! EmptyString = None ->
  functors signature !! EmptyString = None ->
  "(" +:+ inner +:+ ")" ∉ constants signature ->
  parse_default ("(" +:+ inner +:+ ")") signature onlyFormulas
  = (child ← parse_default inner signature false;
     if negb (isFormula child) then
       Raise (ParseError (ParenthesiseNonFormula ("(" +:+ inner +:+ ")")))
     else Return (Node (Sym "()") BRACKET [child] signature)) /\
  forall child interpretation junctors,
    evaluate (Node (Sym "()") BRACKET [child] signature) interpretation junctors
    = evaluate child interpretation junctors.
Proof.
  intros Hu Hp Hf Hc. split; [by apply bracket_parse|done].
Qed.

Lemma brackets_are_transparent_witness :
  parse_default ("(" +:+ "P(a)" +:+ ")") Example.P_signature true
  = (child ← parse_default "P(a)" Example.P_signature false;
     if negb (isFormula child) then
       Raise (ParseError (ParenthesiseNonFormula ("(" +:+ "P(a)" +:+ ")")))
     else Return (Node (Sym "()") BRACKET [child] Example.P_signature)) /\
  forall child interpretation junctors,
    @evaluate Example.runtime (Node (Sym "()") BRACKET [child] Example.P_signature)
              interpretation junctors
    = evaluate child interpretation junctors.
Proof.
  apply (@brackets_are_transparent Example.runtime Example.P_signature "P(a)" true).
  - reflexivity.
  - reflexivity.
  - reflexivity.
  - vm_compute. intros Hin. apply elem_of_cons in Hin as [Heq|Hin].
    + discriminate Heq.
    + by apply elem_of_nil in Hin.
Defined.

Section Negations.
Context (signature : Signature) (text : string).

Let formula : string := PyStr.strip text.

Hypothesis leading_mark : PyStr.startswith formula "!" = true.
Hypothesis no_junctor :
  forall key i, key ∈ ["-:"; ";"; ","]%string -> ~ top_level_occurrence formula key i.

Abbreviation std_loop := (_parse_loop signature _STANDARD_JUNCTOR_SYMBOLS).
Abbreviation std_parse :=
  (_parse signature _STANDARD_PRECEDENCE _STANDARD_JUNCTOR_SYMBOLS).

Lemma negation_parse onlyFormulas :
  parse_default text signature onlyFormulas
  = (child ← parse_default (PyStr.str_drop 1 formula) signature false;
     if negb (isFormula child) then
       Raise (ParseError (NegateNonFormula (PyStr.str_drop 1 formula)))
     else Return (Node (Sym "!") NEGATION [child] signature)).
Proof.
  pose proof (PyStrFacts.length_strip text) as Hlen. fold formula in Hlen.
  assert (1 <= String.length formula) as Hone.
  { destruct formula; [done|]. cbn. lia. }
  unfold parse_default at 1. unfold parse. rewrite std_parse_S.
  cbn zeta. fold formula.
  assert (String.eqb formula "" = false) as ->.
  { apply PyStrFacts.eqb_empty. by destruct formula. }
  rewrite std_loop_junctors.
  rewrite !_findTopLevel_none
    by (intros i; apply no_junctor;
        first [by left|by right; left|by right; right; left]).
  rewrite Z.eqb_refl. cbn [negb _parse_loop _parse_type].
  unfold _parse_negation. cbn [_STANDARD_JUNCTOR_SYMBOLS]. rewrite leading_mark.
  rewrite (slice_rest formula 1 Hone : PyStr.slice formula
             (Z.of_nat (String.length "!")) None = PyStr.str_drop 1 formula).
  rewrite std_parse_shorter by (rewrite PyStrFacts.length_str_drop; lia).
  destruct (parse_default _ signature false) as [child| |]; [|done..].
  cbn. destruct (isFormula child); [|done]. cbn. by rewrite andb_false_r.
Qed.
End Negations.

(** X14. A leading [!] negates everything after it only when no
    junctor stands at bracket depth 0.  For a text that, stripped of
    outer white space, starts with [!] and has no [-:], [;] or [,] at
    bracket depth 0, parsing is parsing the rest after the [!]: a
    ParseError of the rest is raised as it is, a term raises the
    ParseError of a negated non-formula, and a formula is wrapped in a
    negation node, which the evaluator gives the negation operator
    applied to the value of the child. *)
Theorem negation_takes_the_rest `{PyRuntime} (signature : Signature)
    (text : string) (onlyFormulas : bool) :
  PyStr.startswith (PyStr.strip text) "!" = true ->
  (forall key i, key ∈ ["-:"; ";"; ","]%string ->
     ~ top_level_occurrence (PyStr.strip text) key i) ->
  parse_default text signature onlyFormulas
  = (child ← parse_default (PyStr.str_drop 1 (PyStr.strip text)) signature false;
     if negb (isFormula child) then
       Raise (ParseError (NegateNonFormula (PyStr.str_drop 1 (PyStr.strip text))))
     else Return (Node (Sym "!") NEGATION [child] signature)) /\
  forall child interpretation junctors,
    evaluate (Node (Sym "!") NEGATION [child] signature) interpretation junctors
    = (a ← evaluate child interpretation junctors; negation junctors a).
Proof.
  intros Hmark Hnone. split; [by apply negation_parse|done].
Qed.

Lemma negation_takes_the_rest_witness :
  parse_default " !P(a)" Example.P_signature true
  = (child ← parse_default (PyStr.str_drop 1 (PyStr.strip " !P(a)"))
               Example.P_signature false;
     if negb (isFormula child) then
       Raise (ParseError (NegateNonFormula (PyStr.str_drop 1 (PyStr.strip " !P(a)"))))
     else Return (Node (Sym "!") NEGATION [child] Example.P_signature)) /\
  forall child interpretation junctors,
    @evaluate Example.runtime (Node (Sym "!") NEGATION [child] Example.P_signature)
              interpretation junctors
    = (a ← evaluate child interpretation junctors; negation junctors a).
Proof.
  apply (@negation_takes_the_rest Example.runtime Example.P_signature " !P(a)" true).
  - reflexivity.
  - intros key i Hkey.
    repeat (apply elem_of_cons in Hkey as [->|Hkey]);
      [by apply _findTopLevel_absent..|by apply elem_of_nil in Hkey].
Defined.

(** ** Splitting and joining *)

Lemma concat_snoc (sep : string) (pieces : list string) (a b : string) :
  String.concat sep ((pieces ++ [a]) ++ [b])
  = String.concat sep (pieces ++ [a +:+ sep +:+ b]).
Proof.
  induction pieces as [|p pieces IH]; [done|].
  cbn [app] in *. cbn [String.concat].
  destruct pieces as [|q pieces]; [done|]. cbn [app] in *. by rewrite IH.
Qed.

Lemma str_drop_app_le (b : nat) (pre w : string) :
  b <= String.length pre ->
  PyStr.str_drop b (pre +:+ w) = PyStr.str_drop b pre +:+ w.
Proof.
  revert pre; induction b as [|b IH]; intros pre Hb; [done|].
  destruct pre as [|c pre]; cbn [String.length] in Hb; [lia|].
  rewrite app_cons. cbn [PyStr.str_drop]. apply IH. lia.
Qed.

Lemma str_drop_all (s : string) : PyStr.str_drop (String.length s) s = EmptyString.
Proof. by induction s. Qed.

Lemma slice_piece (pre suffix : string) (b : nat) :
  b <= String.length pre ->
  PyStr.slice (pre +:+ suffix) (Z.of_nat b) (Some (Z.of_nat (String.length pre)))
  = PyStr.str_drop b pre.
Proof.
  intros Hb. unfold PyStr.slice, PyStr.clamp. rewrite length_app.
  destruct (Z.ltb_spec (Z.of_nat b) 0) as [|_]; [lia|].
  destruct (Z.ltb_spec (Z.of_nat (String.length pre)) 0) as [|_]; [lia|].
  replace (Z.to_nat (Z.min (Z.of_nat b) _)) with b by lia.
  replace (Z.to_nat (_ - _)) with (String.length (PyStr.str_drop b pre))
    by (rewrite PyStrFacts.length_str_drop; lia).
  rewrite str_drop_app_le by done. apply str_take_app.
Qed.

Lemma _splitAtLevel_loop_join (c : ascii) (pre suffix : string) (depth : Z)
    (b : nat) (result : list string) :
  b <= String.length pre ->
  (forall w, String.concat (String c "")
               (result ++ [PyStr.str_drop b pre +:+ w]) = pre +:+ w) ->
  String.concat (String c "")
    (_splitAtLevel_loop (pre +:+ suffix) (String c "") suffix
       (Z.of_nat (String.length pre)) depth (Z.of_nat b) result)
  = pre +:+ suffix.
Proof.
  revert pre depth b result; induction suffix as [|x rest IH];
    intros pre depth b result Hb Hjoin.
  - cbn [_splitAtLevel_loop]. rewrite app_empty_r.
    rewrite slice_rest by done.
    specialize (Hjoin EmptyString). by rewrite !app_empty_r in Hjoin.
  - assert (pre +:+ String x rest = (pre +:+ String x "") +:+ rest) as Hstr.
    { by rewrite app_assoc', app_cons, app_nil. }
    assert (String.length (pre +:+ String x "") = S (String.length pre)) as Hlen.
    { rewrite length_app. cbn. lia. }
    assert (forall w, String.concat (String c "")
                        (result ++ [PyStr.str_drop b (pre +:+ String x "") +:+ w])
                      = (pre +:+ String x "") +:+ w) as Hkeep.
    { intros w. rewrite str_drop_app_le by done.
      rewrite !app_assoc', app_cons, app_nil. apply Hjoin. }
    assert (forall depth',
              String.concat (String c "")
                (_splitAtLevel_loop (pre +:+ String x rest) (String c "") rest
                   (Z.of_nat (String.length pre) + 1) depth' (Z.of_nat b) result)
              = pre +:+ String x rest) as Hnext.
    { intros depth'. rewrite Hstr.
      replace (Z.of_nat (String.length pre) + 1)%Z
        with (Z.of_nat (String.length (pre +:+ String x ""))) by lia.
      apply IH; [lia|done]. }
    cbn [_splitAtLevel_loop].
    destruct (Ascii.eqb x "("); [apply Hnext|].
    destruct (Ascii.eqb x ")"); [apply Hnext|].
    destruct ((depth =? 0)%Z && PyStr.startswith (String x rest) (String c ""))
      eqn:Hsplit; [|apply Hnext].
    apply andb_true_iff in Hsplit as [_ Hx]. cbn [PyStr.startswith] in Hx.
    rewrite andb_true_r in Hx. apply Ascii.eqb_eq in Hx as ->.
    rewrite slice_piece by done. rewrite Hstr.
    replace (Z.of_nat (String.length pre) + 1)%Z
      with (Z.of_nat (String.length (pre +:+ String c ""))) by lia.
    replace (Z.of_nat (String.length pre) + Z.of_nat (String.length (String c "")))%Z
      with (Z.of_nat (String.length (pre +:+ String c ""))) by (cbn; lia).
    apply IH; [done|]. intros w. rewrite str_drop_all, app_nil, concat_snoc.
    rewrite app_cons, app_nil, app_assoc', app_cons, app_nil. apply Hjoin.
Qed.

Lemma _splitAtLevel_join (str : string) (c : ascii) :
  String.concat (String c "") (_splitAtLevel str (String c "")) = str.
Proof.
  unfold _splitAtLevel.
  apply (_splitAtLevel_loop_join c EmptyString str 0 0 []); [done|].
  intros w. by rewrite app_nil.
Qed.

(** X15. Splitting at a separator of one character and joining the
    pieces with that character gives the text back, whatever the
    brackets in the text are: [_splitAtLevel] loses no character and
    invents none. *)
Theorem split_then_join (str : string) (c : ascii) :
  String.concat (String c "") (_splitAtLevel str (String c "")) = str.
Proof. apply _splitAtLevel_join. Qed.

(** ** The variables of a parsed tree *)

Lemma NoDup_append_new vars childVars :
  NoDup vars -> NoDup (append_new vars childVars).
Proof.
  unfold append_new. revert vars; induction childVars as [|v vs IH];
    intros vars Hvars; [done|].
  cbn [fold_left]. apply IH. destruct (bool_decide_reflect (v ∈ vars)); [done|].
  apply NoDup_app. split; [done|]. split; [|apply NoDup_singleton].
  intros x Hx ->%list_elem_of_singleton. done.
Qed.

Lemma fold_each_getVariables_NoDup cs acc vars :
  fold_each (fun vars child =>
               childVars ← getVariables child;
               Return (append_new vars childVars)) cs acc = Return vars ->
  NoDup acc -> NoDup vars.
Proof.
  revert acc; induction cs as [|c cs IH]; intros acc; cbn [fold_each].
  - by intros [= ->].
  - destruct (getVariables c) as [vs| |]; [|done..]. cbn.
    intros Hfold Hacc. eapply IH; [exact Hfold|]. by apply NoDup_append_new.
Qed.

Section Variables.
Context (signature : Signature) (junctorSymbols : NodeType -> option string).

Let well_formed (tree : ParseTree) : Prop :=
  forall node, node ∈ nodes tree -> node_ok signature junctorSymbols node.

Lemma well_formed_children v ty cs sg child :
  well_formed (Node v ty cs sg) -> child ∈ cs -> well_formed child.
Proof.
  intros Hs Hc node Hnode. apply Hs, elem_of_nodes. right. by exists child.
Qed.

Lemma getVariables_well_formed tree :
  well_formed tree ->
  exists vars,
    getVariables tree = Return vars /\ NoDup vars /\
    forall x, x ∈ vars <->
      exists node, node ∈ nodes tree /\ variable_of node = Some x.
Proof.
  induction tree as [v ty cs sg IH] using ParseTree_children_ind. intros Hwf.
  assert (Forall (fun c => exists vars,
                    getVariables c = Return vars /\ NoDup vars /\
                    forall x, x ∈ vars <->
                      exists node, node ∈ nodes c /\ variable_of node = Some x) cs)
    as Hcs.
  { rewrite Forall_forall in IH |- *. intros c Hc. apply IH; [done|].
    by eapply well_formed_children. }
  clear IH.
  destruct (Hwf (Node v ty cs sg)) as [_ Hroot]; [apply elem_of_nodes; by left|].
  cbn [type value children] in Hroot.
  assert (forall x,
            (exists c vs, c ∈ cs /\ getVariables c = Return vs /\ x ∈ vs) <->
            exists node child, child ∈ cs /\ node ∈ nodes child /\
                               variable_of node = Some x) as Hbelow.
  { intros x. rewrite Forall_forall in Hcs. split.
    - intros (c & vs & Hc & Hv & Hx).
      destruct (Hcs c Hc) as (vs' & Hv' & _ & Hiff).
      rewrite Hv in Hv'. injection Hv' as <-.
      apply Hiff in Hx as (node & Hnode & Hvar). by exists node, c.
    - intros (node & c & Hc & Hnode & Hvar).
      destruct (Hcs c Hc) as (vs & Hv & _ & Hiff).
      exists c, vs. split; [done|]. split; [done|]. apply Hiff. by exists node. }
  assert (forall x,
            (exists node, node ∈ nodes (Node v ty cs sg) /\ variable_of node = Some x)
            <-> variable_of (Node v ty cs sg) = Some x \/
                exists node child, child ∈ cs /\ node ∈ nodes child /\
                                   variable_of node = Some x) as Hnodes.
  { intros x. split.
    - intros (node & [->|(child & Hc & Hnode)]%elem_of_nodes & Hvar); [by left|].
      right. by exists node, child.
    - intros [Hvar|(node & child & Hc & Hnode & Hvar)].
      + eexists. split; [apply elem_of_nodes; by left|done].
      + exists node. split; [|done]. apply elem_of_nodes. right. by exists child. }
  assert (ty = VARIABLE \/ ty = CONSTANT \/ (ty <> VARIABLE /\ ty <> CONSTANT))
    as [->|[->|[Hv Hc]]] by (destruct ty; auto).
  - destruct Hroot as (name & -> & _ & ->). exists [Sym name].
    split; [done|]. split; [apply NoDup_singleton|]. intros x.
    rewrite Hnodes, list_elem_of_singleton. cbn. split; [intros ->; by left|].
    intros [[= <-]|(node & child & Hin & _)]; [done|]. by apply elem_of_nil in Hin.
  - destruct Hroot as (name & -> & _ & ->). exists [].
    split; [done|]. split; [apply NoDup_nil_2|]. intros x.
    rewrite Hnodes. cbn. split; [by intros ?%elem_of_nil|].
    intros [?|(node & child & Hin & _)]; [done|]. by apply elem_of_nil in Hin.
  - rewrite getVariables_inner by done.
    destruct (fold_each_getVariables cs []) as (vars & Hfold & Hvars).
    { eapply Forall_impl; [exact Hcs|]. cbn. intros c (vs & ? & _). by exists vs. }
    pose proof (fold_each_getVariables_NoDup _ _ _ Hfold (NoDup_nil_2)) as Hnodup.
    rewrite Hfold. cbn.
    assert (forall x, x ∈ vars <->
              exists node child, child ∈ cs /\ node ∈ nodes child /\
                                 variable_of node = Some x) as Hvars'.
    { intros x. rewrite Hvars, Hbelow. split; [|by right].
      intros [?%elem_of_nil|?]; done. }
    destruct (is_quantifier ty) eqn:Hq.
    + assert (exists x d, v = Quant x d) as (x & d & ->).
      { destruct ty; try done; destruct Hroot as (x & d & _ & -> & _); eauto. }
      cbn. eexists. split; [done|].
      assert (variable_of (Node (Quant x d) ty cs sg) = Some (Sym x)) as Hroot_var.
      { by destruct ty. }
      destruct (bool_decide_reflect (Sym x ∈ vars)) as [Hin|Hnot].
      * split; [done|]. intros y. rewrite Hnodes, Hroot_var, Hvars'.
        split; [by right|]. intros [[= <-]|?]; [by apply Hvars'|done].
      * split.
        { apply NoDup_app. split; [done|]. split; [|apply NoDup_singleton].
          intros y Hy ->%list_elem_of_singleton. done. }
        intros y. rewrite Hnodes, Hroot_var, elem_of_app, list_elem_of_singleton, Hvars'.
        split; [intros [?| ->]; [by right|by left]|].
        intros [[= <-]|?]; [by right|by left].
    + exists vars. split; [done|]. split; [done|]. intros y.
      rewrite Hnodes, Hvars'.
      assert (variable_of (Node v ty cs sg) = None) as -> by by destruct ty.
      split; [by right|]. by intros [?|?].
Qed.
End Variables.

(** X16. The variables of a parsed tree.  On every tree that [parse]
    returns, [getVariables] returns a list without duplicates that
    holds exactly the names of the variable nodes and the bound
    variables of the quantifier nodes of the tree. *)
Theorem getVariables_of_parsed (signature : Signature)
    (precedence : list NodeType) (junctorSymbols : NodeType -> option string)
    (n : nat) (formula : string) (onlyFormulas : bool) (tree : ParseTree) :
  parse signature precedence junctorSymbols n formula onlyFormulas = Return tree ->
  exists vars,
    getVariables tree = Return vars /\ NoDup vars /\
    forall x, x ∈ vars <->
      exists node, node ∈ nodes tree /\ variable_of node = Some x.
Proof.
  intros Hp. apply (getVariables_well_formed signature junctorSymbols).
  unfold parse in Hp. apply bind_Return in Hp as (t & Hp & Ht).
  destruct (onlyFormulas && negb (isFormula t)); [done|]. injection Ht as ->.
  intros node Hnode. by eapply _parse_nodes_ok.
Qed.

Lemma getVariables_of_parsed_witness :
  exists tree vars,
    parse_default "Ax~D:P(x),P(y)" Example.P_signature true = Return tree /\
    getVariables tree = Return vars /\ NoDup vars /\
    forall x, x ∈ vars <->
      exists node, node ∈ nodes tree /\ variable_of node = Some x.
Proof.
  eexists.
  assert (parse_default "Ax~D:P(x),P(y)" Example.P_signature true = Return _) as Hp
    by (vm_compute; reflexivity).
  destruct (getVariables_of_parsed Example.P_signature _STANDARD_PRECEDENCE
              _STANDARD_JUNCTOR_SYMBOLS _ _ _ _ Hp) as (vars & Hv & Hnd & Hiff).
  exists vars. split; [exact Hp|]. split; [exact Hv|]. split; [exact Hnd|exact Hiff].
Defined.

(** X17. Free and bound variables when bound names have one character.
    On a tree that [parse] returns and whose quantified variables all
    have one character, the three methods return, every variable is
    free or bound, and no free variable is bound. *)
Theorem free_and_bound_of_parsed (signature : Signature)
    (precedence : list NodeType) (junctorSymbols : NodeType -> option string)
    (n : nat) (formula : string) (onlyFormulas : bool) (tree : ParseTree) :
  parse signature precedence junctorSymbols n formula onlyFormulas = Return tree ->
  (forall node v d, node ∈ nodes tree -> value node = Quant v d ->
     String.length v = 1) ->
  exists vars bound free,
    getVariables tree = Return vars /\ getBound tree = Return bound /\
    getFree tree = Return free /\
    (forall x, x ∈ vars <-> x ∈ free \/ x ∈ bound) /\
    (forall x, x ∈ free -> x ∉ bound).
Proof.
  intros Hp Hone. unfold parse in Hp.
  apply bind_Return in Hp as (t & Hp & Ht).
  destruct (onlyFormulas && negb (isFormula t)); [done|]. injection Ht as ->.
  destruct (free_and_bound_partition signature junctorSymbols tree)
    as (vars & bound & free & Hv & Hb & Hf & Hiff).
  { intros node Hnode. split; [by eapply _parse_nodes_ok|]. eauto. }
  exists vars, bound, free. repeat (split; [done|]).
  unfold getFree in Hf. rewrite Hv in Hf. cbn in Hf.
  rewrite (for_each_pure _ (fun x => if bool_decide (x ∈ bound) then [] else [x]))
    in Hf by (intros x; by rewrite Hb).
  cbn in Hf. injection Hf as <-. intros x (l & Hxl & Hl)%elem_of_concat.
  apply list_elem_of_fmap in Hl as (y & -> & _).
  destruct (bool_decide_reflect (y ∈ bound)); [by apply elem_of_nil in Hxl|].
  by apply list_elem_of_singleton in Hxl as ->.
Qed.

Lemma free_and_bound_of_parsed_witness :
  let tree :=
    Node (Quant "x" "D") UNIVERSAL
      [Node (Sym "P") PREDICATE
         [Node (Sym "x") VARIABLE [] Example.P_signature] Example.P_signature]
      Example.P_signature in
  exists vars bound free,
    getVariables tree = Return vars /\ getBound tree = Return bound /\
    getFree tree = Return free /\
    (forall x, x ∈ vars <-> x ∈ free \/ x ∈ bound) /\
    (forall x, x ∈ free -> x ∉ bound).
Proof.
  intros tree.
  apply (free_and_bound_of_parsed Example.P_signature _STANDARD_PRECEDENCE
           _STANDARD_JUNCTOR_SYMBOLS 11 "Ax~D:P(x)" true tree).
  - vm_compute. reflexivity.
  - intros node v d Hnode Hvalue. subst tree. cbn [nodes flat_map app] in Hnode.
    apply elem_of_cons in Hnode as [->|Hnode]; [by injection Hvalue as <- <-|].
    apply elem_of_cons in Hnode as [->|Hnode]; [discriminate Hvalue|].
    apply elem_of_cons in Hnode as [->|Hnode]; [discriminate Hvalue|].
    by apply elem_of_nil in Hnode.
Defined.

(** ** The domains of a parsed tree *)

Lemma elem_of_iterate x D :
  x ∈ iterate D -> exists c, x = Sym (String c "").
Proof.
  unfold iterate. intros (s & -> & Hs)%list_elem_of_fmap.
  induction D as [|c D IH]; cbn [PyStr.chars] in Hs; [by apply elem_of_nil in Hs|].
  apply elem_of_cons in Hs as [->|Hs]; eauto.
Qed.

Lemma getDomains_term v ty cs sg :
  isTerm (Node v ty cs sg) = true -> getDomains (Node v ty cs sg) = Return [].
Proof. cbn [getDomains]. by intros ->. Qed.

Lemma getDomains_quantifier x D ty child cs sg :
  is_quantifier ty = true ->
  getDomains (Node (Quant x D) ty (child :: cs) sg)
  = (doms ← getDomains child;
     Return (if bool_decide (Sym D ∈ doms) then doms else doms ++ iterate D)).
Proof. by destruct ty. Qed.

Lemma getDomains_inner v ty cs sg :
  isTerm (Node v ty cs sg) = false -> is_quantifier ty = false ->
  getDomains (Node v ty cs sg)
  = fold_each (fun doms child =>
                 childDoms ← getDomains child; Return (doms ++ childDoms))
              cs [].
Proof. by destruct ty. Qed.

Lemma fold_each_getDomains cs acc :
  Forall (fun c => exists ds, getDomains c = Return ds) cs ->
  exists doms,
    fold_each (fun doms child =>
                 childDoms ← getDomains child; Return (doms ++ childDoms))
              cs acc = Return doms /\
    forall x, x ∈ doms <->
      x ∈ acc \/ exists c ds, c ∈ cs /\ getDomains c = Return ds /\ x ∈ ds.
Proof.
  intros Hcs. revert acc; induction Hcs as [|c cs [ds Hc] _ IH]; intros acc.
  - exists acc. split; [done|]. intros x. split; [by left|].
    intros [?|(c & ds & Hin & _)]; [done|]. by apply elem_of_nil in Hin.
  - cbn [fold_each]. rewrite Hc. cbn.
    destruct (IH (acc ++ ds)) as (doms & -> & Hdoms).
    exists doms. split; [done|]. intros x. rewrite Hdoms, elem_of_app.
    split.
    + intros [[?|?]|(c' & ds' & Hin & Hc' & Hx)]; [by left| |].
      * right. exists c, ds. split; [left|done].
      * right. exists c', ds'. split; [by right|done].
    + intros [?|(c' & ds' & Hin & Hc' & Hx)]; [by left; left|].
      apply elem_of_cons in Hin as [->|Hin].
      * left. right. congruence.
      * right. by exists c', ds'.
Qed.

Section Domains.
Context (signature : Signature) (junctorSymbols : NodeType -> option string).

Let well_formed (tree : ParseTree) : Prop :=
  forall node, node ∈ nodes tree -> node_ok signature junctorSymbols node.

(** The nodes of a term are terms. *)
Lemma term_nodes tree :
  well_formed tree -> isTerm tree = true ->
  forall node, node ∈ nodes tree -> isTerm node = true.
Proof.
  induction tree as [v ty cs sg IH] using ParseTree_children_ind.
  intros Hwf Hterm node [->|(child & Hc & Hnode)]%elem_of_nodes; [done|].
  cbn [children] in Hc. rewrite Forall_forall in IH.
  apply (IH child Hc); [|  |done].
  - intros node' Hnode'. apply Hwf, elem_of_nodes. right. by exists child.
  - destruct (Hwf (Node v ty cs sg)) as [_ Hroot]; [apply elem_of_nodes; by left|].
    cbn [type value children] in Hroot.
    destruct ty; try done.
    + destruct Hroot as (name & _ & _ & ->). by apply elem_of_nil in Hc.
    + destruct Hroot as (name & _ & _ & ->). by apply elem_of_nil in Hc.
    + destruct Hroot as (symbol & _ & _ & _ & Hterms).
      rewrite Forall_forall in Hterms. by apply Hterms.
Qed.

Lemma getDomains_well_formed tree :
  well_formed tree ->
  exists doms,
    getDomains tree = Return doms /\
    (forall d, d ∈ doms <->
       exists node D, node ∈ nodes tree /\ domain_of node = Some D /\
                      d ∈ iterate D) /\
    (forall d, d ∈ doms -> exists c, d = Sym (String c "")).
Proof.
  induction tree as [v ty cs sg IH] using ParseTree_children_ind. intros Hwf.
  assert (Forall (fun c => exists doms,
                    getDomains c = Return doms /\
                    (forall d, d ∈ doms <->
                       exists node D, node ∈ nodes c /\ domain_of node = Some D /\
                                      d ∈ iterate D) /\
                    (forall d, d ∈ doms -> exists c, d = Sym (String c ""))) cs)
    as Hcs.
  { rewrite Forall_forall in IH |- *. intros c Hc. apply IH; [done|].
    intros node Hnode. apply Hwf, elem_of_nodes. right. by exists c. }
  clear IH.
  destruct (Hwf (Node v ty cs sg)) as [_ Hroot]; [apply elem_of_nodes; by left|].
  cbn [type value children] in Hroot.
  assert (forall d,
            (exists node D, node ∈ nodes (Node v ty cs sg) /\
                            domain_of node = Some D /\ d ∈ iterate D)
            <-> (exists D, domain_of (Node v ty cs sg) = Some D /\ d ∈ iterate D) \/
                exists child node D, child ∈ cs /\ node ∈ nodes child /\
                                     domain_of node = Some D /\ d ∈ iterate D)
    as Hnodes.
  { intros d. split.
    - intros (node & D & [->|(child & Hc & Hnode)]%elem_of_nodes & HD & Hd).
      + left. by exists D.
      + right. by exists child, node, D.
    - intros [(D & HD & Hd)|(child & node & D & Hc & Hnode & HD & Hd)].
      + eexists _, D. split; [apply elem_of_nodes; by left|done].
      + exists node, D. split; [|done]. apply elem_of_nodes. right. by exists child. }
  destruct (isTerm (Node v ty cs sg)) eqn:Hterm.
  - rewrite getDomains_term by done. exists []. split; [done|].
    split; [|by intros d ?%elem_of_nil]. intros d. split; [by intros ?%elem_of_nil|].
    intros (node & D & Hnode & HD & _).
    apply term_nodes in Hnode; [|done..].
    destruct node as [v' ty' cs' sg']. by destruct ty'.
  - destruct (is_quantifier ty) eqn:Hq.
    + assert (exists x D child, v = Quant x D /\ cs = [child])
        as (x & D & child & -> & ->).
      { destruct ty; try done;
          destruct Hroot as (x & D & child & -> & _ & _ & -> & _); eauto. }
      apply Forall_cons in Hcs as [(doms & Hd & Hiff & Hchars) _].
      rewrite getDomains_quantifier, Hd by done. cbn. eexists. split; [done|].
      assert (domain_of (Node (Quant x D) ty [child] sg) = Some D) as Hroot_dom
        by by destruct ty.
      assert (forall d, d ∈ doms <->
                exists child' node D', child' ∈ [child] /\ node ∈ nodes child' /\
                                       domain_of node = Some D' /\ d ∈ iterate D')
        as Hbelow.
      { intros d. rewrite Hiff. split.
        - intros (node & D' & ? & ? & ?). exists child, node, D'.
          split; [by left|done].
        - intros (child' & node & D' & ->%list_elem_of_singleton & ? & ? & ?).
          by exists node, D'. }
      destruct (bool_decide_reflect (Sym D ∈ doms)) as [Hin|Hnot].
      * split; [|done]. intros d. rewrite Hnodes, Hroot_dom, <- Hbelow.
        split; [by right|]. intros [(D' & [= <-] & HdD)|?]; [|done].
        destruct (Hchars _ Hin) as (c & [= ->]).
        cbn in HdD. by apply list_elem_of_singleton in HdD as ->.
      * split.
        { intros d. rewrite Hnodes, Hroot_dom, <- Hbelow, elem_of_app.
          split; [intros [?|?]; [by right|left; by exists D]|].
          intros [(D' & [= <-] & ?)|?]; [by right|by left]. }
        intros d [?|?]%elem_of_app; [by apply Hchars|by eapply elem_of_iterate].
    + rewrite getDomains_inner by done.
      destruct (fold_each_getDomains cs []) as (doms & Hfold & Hdoms).
      { eapply Forall_impl; [exact Hcs|]. cbn. intros c (ds & ? & _). by exists ds. }
      rewrite Forall_forall in Hcs.
      exists doms. split; [done|]. split.
      * intros d. rewrite Hnodes, Hdoms.
        assert (domain_of (Node v ty cs sg) = None) as -> by by destruct ty.
        split.
        { intros [?%elem_of_nil|(c & ds & Hc & Hds & Hd)]; [done|]. right.
          destruct (Hcs c Hc) as (ds' & Hds' & Hiff & _).
          rewrite Hds in Hds'. injection Hds' as <-.
          apply Hiff in Hd as (node & D & ? & ? & ?). by exists c, node, D. }
        intros [(D & ? & _)|(c & node & D & Hc & Hnode & HD & Hd)]; [done|].
        right. destruct (Hcs c Hc) as (ds & Hds & Hiff & _).
        exists c, ds. split; [done|]. split; [done|]. apply Hiff. by exists node, D.
      * intros d [?%elem_of_nil|(c & ds & Hc & Hds & Hd)]%Hdoms; [done|].
        destruct (Hcs c Hc) as (ds' & Hds' & _ & Hchars).
        rewrite Hds in Hds'. injection Hds' as <-. by apply Hchars.
Qed.
End Domains.

(** X18. The domains of a parsed tree.  On every tree that [parse]
    returns, [getDomains] returns a list of one-character names: it
    holds exactly the characters of the domain names of the quantifier
    nodes of the tree.  So a domain whose name has one character is in
    the list, and a domain whose name has more characters is not: the
    list holds its characters instead. *)
Theorem getDomains_of_parsed (signature : Signature)
    (precedence : list NodeType) (junctorSymbols : NodeType -> option string)
    (n : nat) (formula : string) (onlyFormulas : bool) (tree : ParseTree) :
  parse signature precedence junctorSymbols n formula onlyFormulas = Return tree ->
  exists doms,
    getDomains tree = Return doms /\
    (forall d, d ∈ doms <->
       exists node D, node ∈ nodes tree /\ domain_of node = Some D /\
                      d ∈ iterate D) /\
    (forall node D, node ∈ nodes tree -> domain_of node = Some D ->
       1 < String.length D -> Sym D ∉ doms).
Proof.
  intros Hp. unfold parse in Hp. apply bind_Return in Hp as (t & Hp & Ht).
  destruct (onlyFormulas && negb (isFormula t)); [done|]. injection Ht as ->.
  destruct (getDomains_well_formed signature junctorSymbols tree)
    as (doms & Hd & Hiff & Hchars).
  { intros node Hnode. by eapply _parse_nodes_ok. }
  exists doms. split; [done|]. split; [done|].
  intros node D _ _ Hlen Hin. destruct (Hchars _ Hin) as (c & [= ->]).
  cbn in Hlen. lia.
Qed.

Lemma getDomains_of_parsed_witness :
  let tree :=
    Node (Quant "x" "Dom") UNIVERSAL
      [Node (Sym "P") PREDICATE
         [Node (Sym "x") VARIABLE [] Example.P_signature] Example.P_signature]
      Example.P_signature in
  exists doms,
    getDomains tree = Return doms /\
    (forall d, d ∈ doms <->
       exists node D, node ∈ nodes tree /\ domain_of node = Some D /\
                      d ∈ iterate D) /\
    (forall node D, node ∈ nodes tree -> domain_of node = Some D ->
       1 < String.length D -> Sym D ∉ doms).
Proof.
  intros tree.
  apply (getDomains_of_parsed Example.P_signature _STANDARD_PRECEDENCE
           _STANDARD_JUNCTOR_SYMBOLS 13 "Ax~Dom:P(x)" true tree).
  vm_compute. reflexivity.
Defined.

(** ** The first occurrence at depth 0, as a whole *)

(** X19. [_findTopLevel] returns [-1] exactly when the key occurs
    nowhere in the text at bracket depth 0, and otherwise the position,
    inside the text, of the first such occurrence. *)
Theorem findTopLevel_is_first_at_depth_0 (s key : string) :
  (_findTopLevel s key = (-1)%Z /\ forall i, ~ top_level_occurrence s key i) \/
  (exists i, _findTopLevel s key = Z.of_nat i /\
     i < String.length s /\
     PyStr.startswith (PyStr.str_drop i s) key = true /\
     depth_at s i = 0%Z /\
     forall j, j < i -> ~ top_level_occurrence s key j).
Proof.
  destruct (_findTopLevel_first s key) as [?|(i & Hi & (Hlen & Hs & Hd) & Hfirst)];
    [by left|].
  right. by exists i.
Qed.

(** ** Quantifiers *)

Section Quantifiers.
Context (signature : Signature) (text : string) (q : ascii) (x D body : string).
Hypothesis mark : q = "A"%char \/ q = "E"%char.
Hypothesis variable_ok : _varSyntaxCheck x signature = true.
Hypothesis domain_ok : _varSyntaxCheck D signature = true.

Let formula : string := String q (x +:+ "~" +:+ D +:+ ":" +:+ body).

Hypothesis stripped : PyStr.strip text = formula.
Hypothesis no_junctor :
  forall key i, key ∈ ["-:"; ";"; ","]%string -> ~ top_level_occurrence formula key i.

Abbreviation std_loop := (_parse_loop signature _STANDARD_JUNCTOR_SYMBOLS).
Abbreviation std_parse :=
  (_parse signature _STANDARD_PRECEDENCE _STANDARD_JUNCTOR_SYMBOLS).

Lemma checked_bare name :
  _varSyntaxCheck name signature = true ->
  PyStr.all_chars (fun c => negb (reserved c)) name = true.
Proof.
  intros Hcheck. apply _varSyntaxCheck_true in Hcheck as [Hall _].
  eapply all_chars_impl; [|exact Hall]. apply alnum_not_reserved.
Qed.

Lemma quantifier_find_tilde :
  PyStr.find formula "~" = Z.of_nat (String.length (String q x)).
Proof.
  unfold PyStr.find, formula. cbn [PyStr.find_from PyStr.startswith].
  assert (Ascii.eqb q "~" = false) as Hq
    by (destruct mark as [Hq|Hq]; by rewrite Hq).
  rewrite Hq.
  cbn [andb]. rewrite find_from_bare; [|by apply checked_bare|done].
  rewrite app_cons, app_nil. cbn [PyStr.find_from PyStr.startswith].
  rewrite Ascii.eqb_refl. cbn [andb String.length]. lia.
Qed.

Lemma quantifier_find_colon :
  PyStr.find formula ":"
  = Z.of_nat (String.length (String q (x +:+ "~" +:+ D))).
Proof.
  unfold PyStr.find, formula. cbn [PyStr.find_from PyStr.startswith].
  assert (Ascii.eqb q ":" = false) as Hq
    by (destruct mark as [Hq|Hq]; by rewrite Hq).
  rewrite Hq.
  cbn [andb]. rewrite find_from_bare; [|by apply checked_bare|done].
  rewrite app_cons, app_nil. cbn [PyStr.find_from PyStr.startswith].
  cbn [Ascii.eqb Bool.eqb andb].
  rewrite find_from_bare; [|by apply checked_bare|done].
  rewrite app_cons, app_nil. cbn [PyStr.find_from PyStr.startswith].
  rewrite Ascii.eqb_refl. cbn [andb String.length].
  rewrite !length_app. cbn [String.length]. lia.
Qed.

Lemma quantifier_variable :
  PyStr.slice formula 1 (Some (Z.of_nat (String.length (String q x)))) = x.
Proof.
  exact (slice_piece (String q x) ("~" +:+ D +:+ ":" +:+ body) 1
           ltac:(cbn; lia)).
Qed.

Lemma quantifier_domain :
  PyStr.slice formula (Z.of_nat (String.length (String q x)) + 1)
              (Some (Z.of_nat (String.length (String q (x +:+ "~" +:+ D)))))
  = D.
Proof.
  replace (Z.of_nat (String.length (String q x)) + 1)%Z
    with (Z.of_nat (S (S (String.length x)))) by (cbn [String.length]; lia).
  assert (formula = String q (x +:+ "~" +:+ D) +:+ (":" +:+ body)) as ->.
  { unfold formula. by rewrite !app_cons, !app_assoc'. }
  rewrite slice_piece by (cbn [String.length]; rewrite !length_app;
                          cbn [String.length]; lia).
  change (PyStr.str_drop (S (S (String.length x))) (String q (x +:+ "~" +:+ D)))
    with (PyStr.str_drop (S (String.length x)) (x +:+ "~" +:+ D)).
  replace (S (String.length x)) with (String.length x + 1) by lia.
  by rewrite str_drop_add, str_drop_app.
Qed.

Lemma quantifier_body :
  PyStr.slice formula
    (Z.of_nat (String.length (String q (x +:+ "~" +:+ D))) + 1) None
  = body.
Proof.
  replace (Z.of_nat (String.length (String q (x +:+ "~" +:+ D))) + 1)%Z
    with (Z.of_nat (String.length (String q (x +:+ "~" +:+ D)) + 1)) by lia.
  assert (formula = String q (x +:+ "~" +:+ D) +:+ (":" +:+ body)) as Hf.
  { unfold formula. by rewrite !app_cons, !app_assoc'. }
  rewrite slice_rest by (rewrite Hf, !length_app; cbn [String.length]; lia).
  by rewrite str_drop_add, Hf, str_drop_app.
Qed.

Lemma quantifier_branch rec kind :
  kind = (if Ascii.eqb q "A" then UNIVERSAL else EXISTENTIAL) ->
  _parse_quantifier signature rec formula kind
  = Some (child ← rec body;
          if negb (isFormula child) then
            Raise (ParseError (QuantNonFormula formula))
          else Return (Node (Quant x D) kind [child] signature)).
Proof.
  intros ->. unfold _parse_quantifier.
  assert (PyStr.first formula = Some q) as -> by done.
  rewrite quantifier_find_tilde, quantifier_find_colon.
  rewrite quantifier_variable, quantifier_domain, quantifier_body.
  rewrite variable_ok, domain_ok. cbn [negb].
  destruct (Z.eqb_spec (Z.of_nat (String.length (String q x))) (-1)) as [|_]; [lia|].
  destruct (Z.eqb_spec (Z.of_nat (String.length (String q (x +:+ "~" +:+ D)))) (-1))
    as [|_]; [lia|].
  destruct mark as [Hq|Hq]; by rewrite Hq.
Qed.

Lemma quantifier_parse onlyFormulas :
  parse_default text signature onlyFormulas
  = (child ← parse_default body signature false;
     if negb (isFormula child) then
       Raise (ParseError (QuantNonFormula formula))
     else Return (Node (Quant x D)
                       (if Ascii.eqb q "A" then UNIVERSAL else EXISTENTIAL)
                       [child] signature)).
Proof.
  pose proof (PyStrFacts.length_strip text) as Hlen. rewrite stripped in Hlen.
  assert (String.length body < String.length formula) as Hbody.
  { unfold formula. cbn [String.length]. rewrite !length_app.
    cbn [String.length]. lia. }
  unfold parse_default at 1. unfold parse. rewrite std_parse_S.
  cbn zeta. rewrite stripped.
  assert (String.eqb formula "" = false) as -> by done.
  rewrite std_loop_junctors.
  rewrite !_findTopLevel_none
    by (intros i; apply no_junctor;
        first [by left|by right; left|by right; right; left]).
  rewrite Z.eqb_refl. cbn [negb _parse_loop _parse_type].
  rewrite negation_skip
    by (unfold formula; cbn [PyStr.startswith];
        destruct mark as [Hq|Hq]; by rewrite Hq).
  assert (forall kind,
            (child ← std_parse (String.length text) body;
             if negb (isFormula child) then
               Raise (ParseError (QuantNonFormula formula))
             else Return (Node (Quant x D) kind [child] signature))
            ≫= (fun parseTree =>
                  if onlyFormulas && negb (isFormula parseTree) then
                    Raise (ParseError (NotAFormula text))
                  else Return parseTree)
            = (child ← parse_default body signature false;
               if negb (isFormula child) then
                 Raise (ParseError (QuantNonFormula formula))
               else Return (Node (Quant x D) kind [child] signature)) \/
            is_quantifier kind = false) as Hend.
  { intros kind. destruct (is_quantifier kind) eqn:Hkind; [left|by right].
    rewrite std_parse_shorter by lia.
    destruct (parse_default body signature false) as [child| |]; [|done..].
    cbn. destruct (isFormula child); [|done]. cbn.
    destruct kind; try done; cbn; by rewrite andb_false_r. }
  destruct mark as [Hq|Hq].
  - rewrite (quantifier_branch _ UNIVERSAL) by by rewrite Hq.
    rewrite Hq. cbn [Ascii.eqb Bool.eqb]. by destruct (Hend UNIVERSAL).
  - assert (_parse_quantifier signature (std_parse (String.length text))
              formula UNIVERSAL = None) as ->.
    { unfold _parse_quantifier. unfold formula. by rewrite Hq. }
    rewrite (quantifier_branch _ EXISTENTIAL) by by rewrite Hq.
    rewrite Hq. cbn [Ascii.eqb Bool.eqb]. by destruct (Hend EXISTENTIAL).
Qed.
End Quantifiers.

(** X20. The syntax of a quantifier.  A text that, stripped of outer
    white space, reads [A] or [E], a variable, [~], a domain, [:] and a
    body, where the variable and the domain pass the variable syntax
    check and no junctor stands at bracket depth 0, parses as the body
    under a universal ([A]) or existential ([E]) quantifier node whose
    value is the pair of the variable and the domain: a ParseError of
    the body is raised as it is, and a body that is a term raises the
    ParseError of a quantified non-formula. *)
Theorem quantifier_syntax (signature : Signature) (text : string) (q : ascii)
    (x D body : string) (onlyFormulas : bool) :
  q = "A"%char \/ q = "E"%char ->
  _varSyntaxCheck x signature = true ->
  _varSyntaxCheck D signature = true ->
  PyStr.strip text = String q (x +:+ "~" +:+ D +:+ ":" +:+ body) ->
  (forall key i, key ∈ ["-:"; ";"; ","]%string ->
     ~ top_level_occurrence (String q (x +:+ "~" +:+ D +:+ ":" +:+ body)) key i) ->
  parse_default text signature onlyFormulas
  = (child ← parse_default body signature false;
     if negb (isFormula child) then
       Raise (ParseError
                (QuantNonFormula (String q (x +:+ "~" +:+ D +:+ ":" +:+ body))))
     else Return (Node (Quant x D)
                       (if Ascii.eqb q "A" then UNIVERSAL else EXISTENTIAL)
                       [child] signature)).
Proof. intros. by apply quantifier_parse. Qed.

Lemma quantifier_syntax_witness :
  parse_default " Ex1~Dom: P(x1)" Example.P_signature true
  = (child ← parse_default " P(x1)" Example.P_signature false;
     if negb (isFormula child) then
       Raise (ParseError
                (QuantNonFormula (String "E" ("x1" +:+ "~" +:+ "Dom" +:+ ":" +:+ " P(x1)"))))
     else Return (Node (Quant "x1" "Dom")
                       (if Ascii.eqb "E" "A" then UNIVERSAL else EXISTENTIAL)
                       [child] Example.P_signature)).
Proof.
  apply (quantifier_syntax Example.P_signature " Ex1~Dom: P(x1)" "E"
           "x1" "Dom" " P(x1)" true).
  - by right.
  - reflexivity.
  - reflexivity.
  - reflexivity.
  - intros key i Hkey.
    repeat (apply elem_of_cons in Hkey as [->|Hkey]);
      [by apply _findTopLevel_absent..|by apply elem_of_nil in Hkey].
Defined.

(** ** The dicts an interpretation keeps *)

Section InitAliasing.
Context `{PyRuntime}.

Lemma keep_dict_ref (h : Store.store) r d :
  Store.read_dict h r = Some d ->
  let kept := if Store.truthy h (Some r) then (h, r) else Store.alloc h (Store.Dict ∅) in
  (kept.2 = r /\ d <> ∅) \/ (h !! kept.2 = None /\ d = ∅).
Proof.
  intros Hr. unfold Store.truthy. unfold Store.read_dict in Hr.
  destruct (h !! r) as [[d'| |]|] eqn:Hc; try done. injection Hr as ->.
  destruct (bool_decide_reflect (d = ∅)) as [->|Hne]; cbn [negb].
  - right. split; [apply alloc_fresh|done].
  - left. done.
Qed.

Lemma read_dict_update_other (h : Store.store) r k c :
  r <> k -> Store.read_dict (<[r := c]> h) k = Store.read_dict h k.
Proof. intros Hne. unfold Store.read_dict. by rewrite lookup_insert_ne. Qed.

Lemma init_then_update (h : Store.store) st va da sg m d_m d_va d_da d' :
  h !! st = Some (Store.StructureObj sg m) ->
  Store.read_dict h m = Some d_m ->
  Store.read_dict h va = Some d_va ->
  Store.read_dict h da = Some d_da ->
  va <> m -> va <> da ->
  let made := Store.Interpretation_init h st (Some va) (Some da) in
  Store.snapshot (<[va := Store.Dict d']> made.1) made.2
  = Some (mkInterpretation (mkStructure sg d_m)
            (if bool_decide (d_va = ∅) then ∅ else d') d_da).
Proof.
  intros Hst Hm Hva Hda Hvm Hvd. unfold Store.Interpretation_init.
  assert (h !! va = Some (Store.Dict d_va)) as Hcell.
  { unfold Store.read_dict in Hva. destruct (h !! va) as [[| |]|]; congruence. }
  destruct (keep_dict h va d_va Hva) as [Hsub1 Hva1].
  pose proof (keep_dict_ref h va d_va Hva) as Href1.
  destruct (if Store.truthy h (Some va) then (h, va)
            else Store.alloc h (Store.Dict ∅)) as [h1 va1]; cbn [fst snd] in *.
  assert (Store.read_dict h1 da = Some d_da) as Hda1
    by eauto using read_dict_weaken.
  destruct (keep_dict h1 da d_da Hda1) as [Hsub2 Hda2].
  pose proof (keep_dict_ref h1 da d_da Hda1) as Href2.
  destruct (if Store.truthy h1 (Some da) then (h1, da)
            else Store.alloc h1 (Store.Dict ∅)) as [h2 da2]; cbn [fst snd] in *.
  set (obj := Store.InterpretationObj st va1 da2).
  pose proof (alloc_subseteq h2 obj) as Hsub3.
  pose proof (alloc_fresh h2 obj) as Hfresh.
  pose proof (alloc_lookup h2 obj) as Hnew.
  destruct (Store.alloc h2 obj) as [h3 r]; cbn [fst snd] in *.
  assert (h ⊆ h2) as Hh2 by (etrans; [exact Hsub1|exact Hsub2]).
  assert (h ⊆ h3) as Hh3 by (etrans; [exact Hh2|exact Hsub3]).
  assert (h1 ⊆ h3) as Hh13 by (etrans; [exact Hsub2|exact Hsub3]).
  assert (va <> r) as Hr.
  { intros ->. by rewrite (lookup_weaken _ _ _ _ Hcell Hh2) in Hfresh. }
  assert (va <> st) as Hs by (intros ->; congruence).
  unfold Store.snapshot. rewrite lookup_insert_ne by done.
  rewrite Hnew. subst obj. cbn match. rewrite lookup_insert_ne by done.
  rewrite (lookup_weaken _ _ _ _ Hst Hh3).
  rewrite (read_dict_update_other h3 va m) by done.
  rewrite (read_dict_weaken h _ _ _ Hm Hh3). cbn.
  assert (Store.read_dict (<[va := Store.Dict d']> h3) va1
          = Some (if bool_decide (d_va = ∅) then ∅ else d')) as ->.
  { destruct Href1 as [[-> Hne]|[Hnone ->]].
    - unfold Store.read_dict. rewrite lookup_insert_eq.
      by rewrite bool_decide_eq_false_2.
    - rewrite read_dict_update_other by (intros ->; congruence).
      by rewrite (read_dict_weaken h1 _ _ _ Hva1 Hh13). }
  cbn.
  assert (Store.read_dict (<[va := Store.Dict d']> h3) da2 = Some d_da) as ->.
  { rewrite read_dict_update_other.
    - by rewrite (read_dict_weaken h2 _ _ _ Hda2 Hsub3).
    - destruct Href2 as [[-> _]|[Hnone _]]; [done|]. intros ->.
      by rewrite (lookup_weaken _ _ _ _ Hcell Hsub1) in Hnone. }
  done.
Qed.
End InitAliasing.

(** X21. Which dicts an interpretation shares with its caller.  The
    constructor keeps the dict it is given only when the dict is not
    empty.  So when the caller later changes the variable dict in
    place, an interpretation built from a non-empty dict sees the
    change, and an interpretation built from an empty dict does not: it
    has an empty dict of its own.  The structure and the domains are as
    given either way. *)
Theorem init_shares_only_nonempty_dicts `{PyRuntime} (h : Store.store)
    (st va da : nat) (sg : Signature) (m : nat)
    (d_m d_va d_da d' : gmap string Obj) :
  h !! st = Some (Store.StructureObj sg m) ->
  Store.read_dict h m = Some d_m ->
  Store.read_dict h va = Some d_va ->
  Store.read_dict h da = Some d_da ->
  va <> m -> va <> da ->
  let made := Store.Interpretation_init h st (Some va) (Some da) in
  Store.snapshot (<[va := Store.Dict d']> made.1) made.2
  = Some (mkInterpretation (mkStructure sg d_m)
            (if bool_decide (d_va = ∅) then ∅ else d') d_da).
Proof. apply init_then_update. Qed.

Lemma init_shares_only_nonempty_dicts_witness :
  let later : gmap string (@Obj Example.runtime) :=
    {[ "x"%string := Example.Tensor [9%Z] ]} in
  (let made := Store.Interpretation_init Example.objects 1 (Some 2) (Some 3) in
   Store.snapshot (<[2 := Store.Dict later]> made.1) made.2
   = Some (mkInterpretation (mkStructure Example.no_signature ∅)
             (if bool_decide
                   (({[ "x"%string := Example.Tensor [1%Z] ]}
                     : gmap string (@Obj Example.runtime)) = ∅)
              then ∅ else later)
             {[ "D"%string := Example.Tensor [1%Z; 2%Z] ]})) /\
  (let made := Store.Interpretation_init (<[6 := Store.Dict ∅]> Example.objects)
                 1 (Some 6) (Some 3) in
   Store.snapshot (<[6 := Store.Dict later]> made.1) made.2
   = Some (mkInterpretation (mkStructure Example.no_signature ∅)
             (if bool_decide ((∅ : gmap string (@Obj Example.runtime)) = ∅)
              then ∅ else later)
             {[ "D"%string := Example.Tensor [1%Z; 2%Z] ]})).
Proof.
  intros later. split.
  - apply (@init_shares_only_nonempty_dicts Example.runtime Example.objects
             1 2 3 Example.no_signature 0 ∅
             {[ "x"%string := Example.Tensor [1%Z] ]}
             {[ "D"%string := Example.Tensor [1%Z; 2%Z] ]} later);
      [reflexivity..|lia|lia].
  - apply (@init_shares_only_nonempty_dicts Example.runtime
             (<[6 := Store.Dict ∅]> Example.objects)
             1 6 3 Example.no_signature 0 ∅ ∅
             {[ "D"%string := Example.Tensor [1%Z; 2%Z] ]} later);
      [reflexivity..|lia|lia].
Defined.

(** ** A junctor table with a key missing *)

(** X22. A junctor table has to be complete.  When the kind that comes
    last in the precedence list is one of implication, disjunction,
    conjunction and negation and the junctor table has no symbol for
    it, parsing any text that is not blank raises the KeyError of the
    missing key, before anything of the text is looked at: also a text
    in which that junctor does not occur. *)
Theorem missing_junctor_symbol (signature : Signature) (front : list NodeType)
    (kind : NodeType) (junctorSymbols : NodeType -> option string)
    (n : nat) (text : string) (onlyFormulas : bool) :
  kind ∈ [IMPLICATION; DISJUNCTION; CONJUNCTION; NEGATION] ->
  junctorSymbols kind = None ->
  PyStr.strip text <> EmptyString ->
  parse signature (front ++ [kind]) junctorSymbols (S n) text onlyFormulas
  = Raise (MissingJunctor kind).
Proof.
  intros Hkind Hnone Hne. unfold parse. cbn [_parse].
  apply PyStrFacts.eqb_empty in Hne. rewrite Hne, rev_unit.
  cbn [_parse_loop].
  assert (_parse_type signature junctorSymbols
            (_parse signature (front ++ [kind]) junctorSymbols n)
            (PyStr.strip text) kind = Some (Raise (MissingJunctor kind))) as ->; [|done].
  repeat (apply elem_of_cons in Hkind as [->|Hkind]);
    [..|by apply elem_of_nil in Hkind];
    cbn [_parse_type]; unfold _parse_junctor, _parse_negation; by rewrite Hnone.
Qed.

Lemma missing_junctor_symbol_witness :
  parse Example.P_signature _STANDARD_PRECEDENCE
        (fun kind => match kind with
                     | CONJUNCTION => Some ","%string
                     | _ => None
                     end)
        5 "P(a)" false
  = Raise (MissingJunctor IMPLICATION).
Proof.
  apply (missing_junctor_symbol Example.P_signature
           [BRACKET; VARIABLE; CONSTANT; FUNCTOR; PREDICATE;
            EXISTENTIAL; UNIVERSAL; NEGATION; CONJUNCTION; DISJUNCTION]
           IMPLICATION _ 4 "P(a)" false).
  - by left.
  - reflexivity.
  - discriminate.
Defined.

(** ** Splitting and searching agree *)

Lemma _splitAtLevel_loop_grows str seperator suffix i depth begin result :
  S (length result)
  <= length (_splitAtLevel_loop str seperator suffix i depth begin result).
Proof.
  revert i depth begin result; induction suffix as [|c r IH];
    intros i depth begin result; cbn [_splitAtLevel_loop].
  - rewrite List.length_app. cbn. lia.
  - repeat case_match; try apply IH.
    etrans; [|apply IH]. rewrite List.length_app. cbn. lia.
Qed.

Lemma split_whole_iff_not_found (c : ascii) (str suffix : string)
    (i j depth begin : Z) (result : list string) :
  Ascii.eqb c "(" = false -> Ascii.eqb c ")" = false ->
  (0 <= j)%Z -> (0 <= depth)%Z ->
  length (_splitAtLevel_loop str (String c "") suffix i depth begin result)
  = S (length result)
  <-> _findTopLevel_loop suffix (String c "") j depth = (-1)%Z.
Proof.
  intros Hopen Hclose. revert i j depth begin result.
  induction suffix as [|x rest IH]; intros i j depth begin result Hj Hd.
  - cbn [_splitAtLevel_loop _findTopLevel_loop]. rewrite List.length_app. cbn.
    split; [done|lia].
  - cbn [_splitAtLevel_loop _findTopLevel_loop PyStr.startswith].
    rewrite andb_true_r.
    destruct (Ascii.eqb_spec x "(") as [->|Hx1].
    + rewrite (Ascii.eqb_sym "(" c), Hopen. cbn [Ascii.eqb Bool.eqb andb].
      apply IH; lia.
    + destruct (Ascii.eqb_spec x ")") as [->|Hx2].
      * rewrite (Ascii.eqb_sym ")" c), Hclose. cbn [andb]. apply IH; lia.
      * destruct (Ascii.eqb x c) eqn:Hxc; cbn [andb].
        { destruct (Z.eqb_spec depth 0) as [->|Hdepth]; cbn [andb].
          - pose proof (_splitAtLevel_loop_grows str (String c "") rest
                          (i + 1) 0 (i + Z.of_nat (String.length (String c "")))
                          (result ++ [PyStr.slice str begin (Some i)])) as Hgrow.
            rewrite List.length_app in Hgrow. cbn [length] in Hgrow.
            split; lia.
          - apply IH; lia. }
        rewrite andb_false_r. apply IH; lia.
Qed.

(** X23. Splitting and searching agree on what is at bracket depth 0.
    For a separator of one character that is not a bracket,
    [_splitAtLevel] returns the text as its only piece exactly when
    [_findTopLevel] finds no occurrence of the separator, and a split
    never returns no piece at all. *)
Theorem split_agrees_with_search (str : string) (c : ascii) :
  Ascii.eqb c "(" = false -> Ascii.eqb c ")" = false ->
  (_splitAtLevel str (String c "") = [str]
   <-> _findTopLevel str (String c "") = (-1)%Z) /\
  1 <= length (_splitAtLevel str (String c "")).
Proof.
  intros Hopen Hclose. split; [|apply _splitAtLevel_nonempty].
  pose proof (split_whole_iff_not_found c str str 0 0 0 0 [] Hopen Hclose
                ltac:(lia) ltac:(lia)) as Hiff.
  fold (_splitAtLevel str (String c "")) in Hiff.
  fold (_findTopLevel str (String c "")) in Hiff.
  rewrite <- Hiff. cbn [length]. split; [by intros ->|].
  intros Hone. pose proof (_splitAtLevel_join str c) as Hjoin.
  destruct (_splitAtLevel str (String c "")) as [|piece [|? ?]]; try done.
  cbn in Hjoin. by rewrite Hjoin.
Qed.

Lemma split_agrees_with_search_witness :
  (_splitAtLevel "f(a,b)" "," = ["f(a,b)"%string]
   <-> _findTopLevel "f(a,b)" "," = (-1)%Z) /\
  1 <= length (_splitAtLevel "f(a,b)" ",").
Proof. apply (split_agrees_with_search "f(a,b)" ","); reflexivity. Defined.
